(** * ctaes: a constant-time bit-sliced AES, embedded in Rocq

    The C sources [ctaes.c] (SubBytes and InvSubBytes as two functions) and
    its sibling with the two S-box directions merged behind a flag are
    translated function by function.  Machine integers are [Z] with the
    wrap-around of every store written out ([u8], [u16], [u32]); the
    [AES_state] struct is a record of its eight slice words; byte buffers
    are lists of [Z]; [for] loops are [for_range]. *)

From Stdlib Require Import ZArith List Bool Lia Btauto.
Import ListNotations.

Local Open Scope Z_scope.

(** ** Machine integers *)

Definition u8 (z : Z) : Z := z mod 256.
Definition u16 (z : Z) : Z := z mod 65536.
Definition u32 (z : Z) : Z := z mod 4294967296.

(** C truthiness of an [int] used as a condition. *)
Definition truthy (z : Z) : bool := negb (z =? 0).

(** The C operators on integers, at C's relative precedences. *)
Declare Scope c_scope.
Delimit Scope c_scope with c.
Infix "<<" := Z.shiftl (at level 55, left associativity) : c_scope.
Infix ">>" := Z.shiftr (at level 55, left associativity) : c_scope.
Infix ".&" := Z.land (at level 56, left associativity) : c_scope.
Infix ".^" := Z.lxor (at level 57, left associativity) : c_scope.
Infix ".|" := Z.lor (at level 58, left associativity) : c_scope.
Notation ".~ x" := (Z.lnot x) (at level 35, right associativity) : c_scope.
Local Open Scope c_scope.

(** A declaration [uint16_t x = e;] stores [e] truncated to 16 bits. *)
Notation "'uint16_t' x '::=' e ';' b" := (let x := u16 e in b)
  (at level 10, x name, e at level 99, b at level 200,
   format "'[v' 'uint16_t'  x  '::='  e ';' '/' b ']'") : c_scope.

(** [for (i = lo; i < hi; i++) body]: [count] iterations from index [i]. *)
Fixpoint loop {A : Type} (count : nat) (i : Z) (body : Z -> A -> A) (a : A) : A :=
  match count with
  | O => a
  | S count' => loop count' (i + 1) body (body i a)
  end.

Definition for_range {A : Type} (lo hi : Z) (body : Z -> A -> A) (a : A) : A :=
  loop (Z.to_nat (hi - lo)) lo body a.

(** ** Data model *)

(** [typedef struct { uint16_t slice[8]; } AES_state;] *)
Record AES_state : Type := mk_state {
  slice0 : Z; slice1 : Z; slice2 : Z; slice3 : Z;
  slice4 : Z; slice5 : Z; slice6 : Z; slice7 : Z
}.

(** [s->slice[i]]; the code only ever indexes with 0..7. *)
Definition slice (s : AES_state) (i : Z) : Z :=
  match i with
  | 0 => slice0 s | 1 => slice1 s | 2 => slice2 s | 3 => slice3 s
  | 4 => slice4 s | 5 => slice5 s | 6 => slice6 s | 7 => slice7 s
  | _ => 0
  end.

(** [s->slice[i] = v], the store truncating to [uint16_t]. *)
Definition set_slice (s : AES_state) (i : Z) (v : Z) : AES_state :=
  let '(mk_state a0 a1 a2 a3 a4 a5 a6 a7) := s in
  match i with
  | 0 => mk_state (u16 v) a1 a2 a3 a4 a5 a6 a7
  | 1 => mk_state a0 (u16 v) a2 a3 a4 a5 a6 a7
  | 2 => mk_state a0 a1 (u16 v) a3 a4 a5 a6 a7
  | 3 => mk_state a0 a1 a2 (u16 v) a4 a5 a6 a7
  | 4 => mk_state a0 a1 a2 a3 (u16 v) a5 a6 a7
  | 5 => mk_state a0 a1 a2 a3 a4 (u16 v) a6 a7
  | 6 => mk_state a0 a1 a2 a3 a4 a5 (u16 v) a7
  | 7 => mk_state a0 a1 a2 a3 a4 a5 a6 (u16 v)
  | _ => s
  end.

(** A local [AES_state s;] before its first store. *)
Definition uninit_state : AES_state := mk_state 0 0 0 0 0 0 0 0.

(** A local array of integers before its first store. *)
Definition uninit_array (n : nat) : list Z := repeat 0 n.

(** [a[i]] and [a[i] = v] on a C array of integers held as a list. *)
Definition idx (a : list Z) (i : Z) : Z := nth (Z.to_nat i) a 0.

Fixpoint upd_nat (a : list Z) (n : nat) (v : Z) : list Z :=
  match a, n with
  | [], _ => []
  | _ :: a', O => v :: a'
  | x :: a', S n' => x :: upd_nat a' n' v
  end.

Definition upd (a : list Z) (i : Z) (v : Z) : list Z := upd_nat a (Z.to_nat i) v.

(** ** Bit-slice codec *)

(** The innermost loop of [LoadWords]: bit [i] of [v] goes to position [pos]
    of slice [i]. *)
Definition LoadWords_bits (pos : Z) (v : Z) (s : AES_state) : AES_state :=
  snd (for_range 0 8 (fun i '(v, s) =>
         let s := set_slice s i (slice s i .| (v .& 1) << pos) in
         let v := u8 (v >> 1) in
         (v, s)) (v, s)).

(** The middle loop of [LoadWords]: the four bytes of column word [w], most
    significant first, go to rows 0..3 of column [c]. *)
Definition LoadWords_column (c : Z) (w : Z) (s : AES_state) : AES_state :=
  snd (for_range 0 4 (fun r '(w, s) =>
         let v := u8 (w >> 24) in
         let w := u32 (w << 8) in
         (w, LoadWords_bits (r * 4 + c) v s)) (w, s)).

(** Load 4 32-bit MSB words representing columns of data into 8 sliced
    integers. *)
Definition LoadWords (s : AES_state) (w0 w1 w2 w3 : Z) : AES_state :=
  let s := for_range 0 8 (fun b s => set_slice s b 0) s in
  for_range 0 4 (fun c s =>
    let w := if truthy (c .& 2) then (if truthy (c .& 1) then w3 else w2)
                                else (if truthy (c .& 1) then w1 else w0) in
    LoadWords_column c w s) s.

Definition LoadBytes (s : AES_state) (data16 : list Z) : AES_state :=
  let w0 := u32 (idx data16 0 << 24 .| idx data16 1 << 16 .| idx data16 2 << 8 .| idx data16 3) in
  let data16 := skipn 4 data16 in
  let w1 := u32 (idx data16 0 << 24 .| idx data16 1 << 16 .| idx data16 2 << 8 .| idx data16 3) in
  let data16 := skipn 4 data16 in
  let w2 := u32 (idx data16 0 << 24 .| idx data16 1 << 16 .| idx data16 2 << 8 .| idx data16 3) in
  let data16 := skipn 4 data16 in
  let w3 := u32 (idx data16 0 << 24 .| idx data16 1 << 16 .| idx data16 2 << 8 .| idx data16 3) in
  LoadWords s w0 w1 w2 w3.

(** The innermost loop of [SaveBytes]: the byte held at position [pos]. *)
Definition SaveBytes_byte (s : AES_state) (pos : Z) : Z :=
  for_range 0 8 (fun b v => u8 (v .| (slice s b >> pos .& 1) << b)) 0.

Definition SaveBytes (s : AES_state) : list Z :=
  for_range 0 4 (fun c data16 =>
    for_range 0 4 (fun r data16 =>
      data16 ++ [SaveBytes_byte s (r * 4 + c)]) data16) [].

(** ** The S-box gate network (Boyar-Peralta depth-16 circuit) *)

Definition SubBytes (s : AES_state) : AES_state :=
  (* Load the bit slices *)
  uint16_t U0 ::= slice s 7;
  uint16_t U1 ::= slice s 6;
  uint16_t U2 ::= slice s 5;
  uint16_t U3 ::= slice s 4;
  uint16_t U4 ::= slice s 3;
  uint16_t U5 ::= slice s 2;
  uint16_t U6 ::= slice s 1;
  uint16_t U7 ::= slice s 0;
  (* Linear preprocessing. *)
  uint16_t T1 ::= U0 .^ U3;
  uint16_t T2 ::= U0 .^ U5;
  uint16_t T3 ::= U0 .^ U6;
  uint16_t T4 ::= U3 .^ U5;
  uint16_t T5 ::= U4 .^ U6;
  uint16_t T6 ::= T1 .^ T5;
  uint16_t T7 ::= U1 .^ U2;
  uint16_t T8 ::= U7 .^ T6;
  uint16_t T9 ::= U7 .^ T7;
  uint16_t T10 ::= T6 .^ T7;
  uint16_t T11 ::= U1 .^ U5;
  uint16_t T12 ::= U2 .^ U5;
  uint16_t T13 ::= T3 .^ T4;
  uint16_t T14 ::= T6 .^ T11;
  uint16_t T15 ::= T5 .^ T11;
  uint16_t T16 ::= T5 .^ T12;
  uint16_t T17 ::= T9 .^ T16;
  uint16_t T18 ::= U3 .^ U7;
  uint16_t T19 ::= T7 .^ T18;
  uint16_t T20 ::= T1 .^ T19;
  uint16_t T21 ::= U6 .^ U7;
  uint16_t T22 ::= T7 .^ T21;
  uint16_t T23 ::= T2 .^ T22;
  uint16_t T24 ::= T2 .^ T10;
  uint16_t T25 ::= T20 .^ T17;
  uint16_t T26 ::= T3 .^ T16;
  uint16_t T27 ::= T1 .^ T12;
  uint16_t D ::= U7;
  (* Non-linear transformation. *)
  uint16_t M1 ::= T13 .& T6;
  uint16_t M6 ::= T3 .& T16;
  uint16_t M11 ::= T1 .& T15;
  uint16_t M13 ::= (T4 .& T27) .^ M11;
  uint16_t M15 ::= (T2 .& T10) .^ M11;
  uint16_t M20 ::= T14 .^ M1 .^ (T23 .& T8) .^ M13;
  uint16_t M21 ::= (T19 .& D) .^ M1 .^ T24 .^ M15;
  uint16_t M22 ::= T26 .^ M6 .^ (T22 .& T9) .^ M13;
  uint16_t M23 ::= (T20 .& T17) .^ M6 .^ M15 .^ T25;
  uint16_t M25 ::= M22 .& M20;
  uint16_t M37 ::= M21 .^ ((M20 .^ M21) .& (M23 .^ M25));
  uint16_t M38 ::= M20 .^ M25 .^ (M21 .| (M20 .& M23));
  uint16_t M39 ::= M23 .^ ((M22 .^ M23) .& (M21 .^ M25));
  uint16_t M40 ::= M22 .^ M25 .^ (M23 .| (M21 .& M22));
  uint16_t M41 ::= M38 .^ M40;
  uint16_t M42 ::= M37 .^ M39;
  uint16_t M43 ::= M37 .^ M38;
  uint16_t M44 ::= M39 .^ M40;
  uint16_t M45 ::= M42 .^ M41;
  uint16_t M46 ::= M44 .& T6;
  uint16_t M47 ::= M40 .& T8;
  uint16_t M48 ::= M39 .& D;
  uint16_t M49 ::= M43 .& T16;
  uint16_t M50 ::= M38 .& T9;
  uint16_t M51 ::= M37 .& T17;
  uint16_t M52 ::= M42 .& T15;
  uint16_t M53 ::= M45 .& T27;
  uint16_t M54 ::= M41 .& T10;
  uint16_t M55 ::= M44 .& T13;
  uint16_t M56 ::= M40 .& T23;
  uint16_t M57 ::= M39 .& T19;
  uint16_t M58 ::= M43 .& T3;
  uint16_t M59 ::= M38 .& T22;
  uint16_t M60 ::= M37 .& T20;
  uint16_t M61 ::= M42 .& T1;
  uint16_t M62 ::= M45 .& T4;
  uint16_t M63 ::= M41 .& T2;
  (* Linear postprocessing *)
  uint16_t L0 ::= M61 .^ M62;
  uint16_t L1 ::= M50 .^ M56;
  uint16_t L2 ::= M46 .^ M48;
  uint16_t L3 ::= M47 .^ M55;
  uint16_t L4 ::= M54 .^ M58;
  uint16_t L5 ::= M49 .^ M61;
  uint16_t L6 ::= M62 .^ L5;
  uint16_t L7 ::= M46 .^ L3;
  uint16_t L8 ::= M51 .^ M59;
  uint16_t L9 ::= M52 .^ M53;
  uint16_t L10 ::= M53 .^ L4;
  uint16_t L11 ::= M60 .^ L2;
  uint16_t L12 ::= M48 .^ M51;
  uint16_t L13 ::= M50 .^ L0;
  uint16_t L14 ::= M52 .^ M61;
  uint16_t L15 ::= M55 .^ L1;
  uint16_t L16 ::= M56 .^ L0;
  uint16_t L17 ::= M57 .^ L1;
  uint16_t L18 ::= M58 .^ L8;
  uint16_t L19 ::= M63 .^ L4;
  uint16_t L20 ::= L0 .^ L1;
  uint16_t L21 ::= L1 .^ L7;
  uint16_t L22 ::= L3 .^ L12;
  uint16_t L23 ::= L18 .^ L2;
  uint16_t L24 ::= L15 .^ L9;
  uint16_t L25 ::= L6 .^ L10;
  uint16_t L26 ::= L7 .^ L9;
  uint16_t L27 ::= L8 .^ L10;
  uint16_t L28 ::= L11 .^ L14;
  uint16_t L29 ::= L11 .^ L17;
  let s := set_slice s 7 (L6 .^ L24) in
  let s := set_slice s 6 (.~ (L16 .^ L26)) in
  let s := set_slice s 5 (.~ (L19 .^ L28)) in
  let s := set_slice s 4 (L6 .^ L21) in
  let s := set_slice s 3 (L20 .^ L22) in
  let s := set_slice s 2 (L25 .^ L29) in
  let s := set_slice s 1 (.~ (L13 .^ L27)) in
  let s := set_slice s 0 (.~ (L6 .^ L23)) in
  s.

Definition InvSubBytes (s : AES_state) : AES_state :=
  (* Load the bit slices *)
  uint16_t U0 ::= slice s 7;
  uint16_t U1 ::= slice s 6;
  uint16_t U2 ::= slice s 5;
  uint16_t U3 ::= slice s 4;
  uint16_t U4 ::= slice s 3;
  uint16_t U5 ::= slice s 2;
  uint16_t U6 ::= slice s 1;
  uint16_t U7 ::= slice s 0;
  (* Undo linear postprocessing *)
  uint16_t T23 ::= U0 .^ U3;
  uint16_t T22 ::= .~ (U1 .^ U3);
  uint16_t T2 ::= .~ (U0 .^ U1);
  uint16_t T1 ::= U3 .^ U4;
  uint16_t T24 ::= .~ (U4 .^ U7);
  uint16_t R5 ::= U6 .^ U7;
  uint16_t T8 ::= .~ (U1 .^ T23);
  uint16_t T19 ::= T22 .^ R5;
  uint16_t T9 ::= .~ (U7 .^ T1);
  uint16_t T10 ::= T2 .^ T24;
  uint16_t T13 ::= T2 .^ R5;
  uint16_t T3 ::= T1 .^ R5;
  uint16_t T25 ::= .~ (U2 .^ T1);
  uint16_t R13 ::= U1 .^ U6;
  uint16_t T17 ::= .~ (U2 .^ T19);
  uint16_t T20 ::= T24 .^ R13;
  uint16_t T4 ::= U4 .^ T8;
  uint16_t R17 ::= .~ (U2 .^ U5);
  uint16_t R18 ::= .~ (U5 .^ U6);
  uint16_t R19 ::= .~ (U2 .^ U4);
  uint16_t D ::= U0 .^ R17;
  uint16_t T6 ::= T22 .^ R17;
  uint16_t T16 ::= R13 .^ R19;
  uint16_t T27 ::= T1 .^ R18;
  uint16_t T15 ::= T10 .^ T27;
  uint16_t T14 ::= T10 .^ R18;
  uint16_t T26 ::= T3 .^ T16;
  (* Non-linear transformation (identical to the code in SubBytes) *)
  uint16_t M1 ::= T13 .& T6;
  uint16_t M6 ::= T3 .& T16;
  uint16_t M11 ::= T1 .& T15;
  uint16_t M13 ::= (T4 .& T27) .^ M11;
  uint16_t M15 ::= (T2 .& T10) .^ M11;
  uint16_t M20 ::= T14 .^ M1 .^ (T23 .& T8) .^ M13;
  uint16_t M21 ::= (T19 .& D) .^ M1 .^ T24 .^ M15;
  uint16_t M22 ::= T26 .^ M6 .^ (T22 .& T9) .^ M13;
  uint16_t M23 ::= (T20 .& T17) .^ M6 .^ M15 .^ T25;
  uint16_t M25 ::= M22 .& M20;
  uint16_t M37 ::= M21 .^ ((M20 .^ M21) .& (M23 .^ M25));
  uint16_t M38 ::= M20 .^ M25 .^ (M21 .| (M20 .& M23));
  uint16_t M39 ::= M23 .^ ((M22 .^ M23) .& (M21 .^ M25));
  uint16_t M40 ::= M22 .^ M25 .^ (M23 .| (M21 .& M22));
  uint16_t M41 ::= M38 .^ M40;
  uint16_t M42 ::= M37 .^ M39;
  uint16_t M43 ::= M37 .^ M38;
  uint16_t M44 ::= M39 .^ M40;
  uint16_t M45 ::= M42 .^ M41;
  uint16_t M46 ::= M44 .& T6;
  uint16_t M47 ::= M40 .& T8;
  uint16_t M48 ::= M39 .& D;
  uint16_t M49 ::= M43 .& T16;
  uint16_t M50 ::= M38 .& T9;
  uint16_t M51 ::= M37 .& T17;
  uint16_t M52 ::= M42 .& T15;
  uint16_t M53 ::= M45 .& T27;
  uint16_t M54 ::= M41 .& T10;
  uint16_t M55 ::= M44 .& T13;
  uint16_t M56 ::= M40 .& T23;
  uint16_t M57 ::= M39 .& T19;
  uint16_t M58 ::= M43 .& T3;
  uint16_t M59 ::= M38 .& T22;
  uint16_t M60 ::= M37 .& T20;
  uint16_t M61 ::= M42 .& T1;
  uint16_t M62 ::= M45 .& T4;
  uint16_t M63 ::= M41 .& T2;
  (* Undo linear preprocessing *)
  uint16_t P0 ::= M52 .^ M61;
  uint16_t P1 ::= M58 .^ M59;
  uint16_t P2 ::= M54 .^ M62;
  uint16_t P3 ::= M47 .^ M50;
  uint16_t P4 ::= M48 .^ M56;
  uint16_t P5 ::= M46 .^ M51;
  uint16_t P6 ::= M49 .^ M60;
  uint16_t P7 ::= P0 .^ P1;
  uint16_t P8 ::= M50 .^ M53;
  uint16_t P9 ::= M55 .^ M63;
  uint16_t P10 ::= M57 .^ P4;
  uint16_t P11 ::= P0 .^ P3;
  uint16_t P12 ::= M46 .^ M48;
  uint16_t P13 ::= M49 .^ M51;
  uint16_t P14 ::= M49 .^ M62;
  uint16_t P15 ::= M54 .^ M59;
  uint16_t P16 ::= M57 .^ M61;
  uint16_t P17 ::= M58 .^ P2;
  uint16_t P18 ::= M63 .^ P5;
  uint16_t P19 ::= P2 .^ P3;
  uint16_t P20 ::= P4 .^ P6;
  uint16_t P22 ::= P2 .^ P7;
  uint16_t P23 ::= P7 .^ P8;
  uint16_t P24 ::= P5 .^ P7;
  uint16_t P25 ::= P6 .^ P10;
  uint16_t P26 ::= P9 .^ P11;
  uint16_t P27 ::= P10 .^ P18;
  uint16_t P28 ::= P11 .^ P25;
  uint16_t P29 ::= P15 .^ P20;
  let s := set_slice s 7 (P13 .^ P22) in
  let s := set_slice s 6 (P26 .^ P29) in
  let s := set_slice s 5 (P17 .^ P28) in
  let s := set_slice s 4 (P12 .^ P22) in
  let s := set_slice s 3 (P23 .^ P27) in
  let s := set_slice s 2 (P19 .^ P24) in
  let s := set_slice s 1 (P14 .^ P23) in
  let s := set_slice s 0 (P9 .^ P16) in
  s.

(** The first loop of [SubWord]: bit [b] of byte [j] of [x] goes to position
    [j] of slice [b]. *)
Definition SubWord_pack (x : Z) (s : AES_state) : AES_state :=
  snd (for_range 0 8 (fun b '(x, s) =>
         let s := set_slice s b (x .& 1 .| (x >> 7 .& 2) .| (x >> 14 .& 4) .| (x >> 21 .& 8)) in
         let x := u32 (x >> 1) in
         (x, s)) (x, s)).

(** The second loop of [SubWord]: positions 0..3 of slice [b] go back to bit
    [b] of bytes 0..3 of the result. *)
Definition SubWord_unpack (s : AES_state) (r : Z) : Z :=
  for_range 0 8 (fun b r =>
    let t := u32 (slice s b) in
    u32 (r .| u32 ((t .& 1 .| (t .& 2) << 7 .| (t .& 4) << 14 .| (t .& 8) << 21) << b))) r.

(** Apply the SubBytes transform to the bytes of an unsliced word. *)
Definition SubWord (x : Z) : Z :=
  let s := uninit_state in
  let r := 0 in
  (* Convert to sliced form *)
  let s := SubWord_pack x s in
  (* Apply the transformation in sliced form *)
  let s := SubBytes s in
  (* Convert back to word form *)
  SubWord_unpack s r.

(** ** Linear layers *)

Definition ShiftRows (s : AES_state) : AES_state :=
  for_range 0 8 (fun i s =>
    uint16_t v ::= slice s i;
    set_slice s i (v .& 0xF .| (v .& 0x10) << 3 .| (v .& 0xE0) >> 1 .| (v .& 0x300) << 2
                   .| (v .& 0xC00) >> 2 .| (v .& 0x7000) << 1 .| (v .& 0x8000) >> 3)) s.

Definition InvShiftRows (s : AES_state) : AES_state :=
  for_range 0 8 (fun i s =>
    uint16_t v ::= slice s i;
    set_slice s i (v .& 0xF .| (v .& 0x70) << 1 .| (v .& 0x80) >> 3 .| (v .& 0x300) << 2
                   .| (v .& 0xC00) >> 2 .| (v .& 0x1000) << 3 .| (v .& 0xE000) >> 1)) s.

(** [#define ROT(x,b) (((x) >> ((b) * 4)) | ((x) << ((4-(b)) * 4)))] *)
Definition ROT (x b : Z) : Z := x >> (b * 4) .| x << ((4 - b) * 4).

Definition MixColumns (s : AES_state) : AES_state :=
  (* b(r,c) = 02 * a(r,c) + 02 * a(r+1,c) + a(r+1,c) + a(r+2,c) + a(r+3,c) *)
  uint16_t a0 ::= slice s 0;
  uint16_t a1 ::= slice s 1;
  uint16_t a2 ::= slice s 2;
  uint16_t a3 ::= slice s 3;
  uint16_t a4 ::= slice s 4;
  uint16_t a5 ::= slice s 5;
  uint16_t a6 ::= slice s 6;
  uint16_t a7 ::= slice s 7;
  uint16_t a0_01 ::= a0 .^ ROT a0 1;
  uint16_t a0_123 ::= ROT a0_01 1 .^ ROT a0 3;
  uint16_t a1_01 ::= a1 .^ ROT a1 1;
  uint16_t a1_123 ::= ROT a1_01 1 .^ ROT a1 3;
  uint16_t a2_01 ::= a2 .^ ROT a2 1;
  uint16_t a2_123 ::= ROT a2_01 1 .^ ROT a2 3;
  uint16_t a3_01 ::= a3 .^ ROT a3 1;
  uint16_t a3_123 ::= ROT a3_01 1 .^ ROT a3 3;
  uint16_t a4_01 ::= a4 .^ ROT a4 1;
  uint16_t a4_123 ::= ROT a4_01 1 .^ ROT a4 3;
  uint16_t a5_01 ::= a5 .^ ROT a5 1;
  uint16_t a5_123 ::= ROT a5_01 1 .^ ROT a5 3;
  uint16_t a6_01 ::= a6 .^ ROT a6 1;
  uint16_t a6_123 ::= ROT a6_01 1 .^ ROT a6 3;
  uint16_t a7_01 ::= a7 .^ ROT a7 1;
  uint16_t a7_123 ::= ROT a7_01 1 .^ ROT a7 3;
  let s := set_slice s 0 (a7_01 .^ a0_123) in
  let s := set_slice s 1 (a7_01 .^ a0_01 .^ a1_123) in
  let s := set_slice s 2 (a1_01 .^ a2_123) in
  let s := set_slice s 3 (a7_01 .^ a2_01 .^ a3_123) in
  let s := set_slice s 4 (a7_01 .^ a3_01 .^ a4_123) in
  let s := set_slice s 5 (a4_01 .^ a5_123) in
  let s := set_slice s 6 (a5_01 .^ a6_123) in
  let s := set_slice s 7 (a6_01 .^ a7_123) in
  s.

Definition InvMixColumns (s : AES_state) : AES_state :=
  (* b(r,c) = 0e * a(r,c) + 0b * a(r+1,c) + 0d * a(r+2,c) + 09 * a(r+3,c)
     b(r,c) = 08 * (a(r,c) + a(r+1,c) + a(r+2,c) + a(r+3,c)) +
              04 * (a(r,c) + a(r+2,c)) +
              02 * (a(r,c) + a(r+1,c)) +
              01 * (a(r+1,c) + a(r+2,c) + a(r+3,c)) *)
  uint16_t a0 ::= slice s 0;
  uint16_t a1 ::= slice s 1;
  uint16_t a2 ::= slice s 2;
  uint16_t a3 ::= slice s 3;
  uint16_t a4 ::= slice s 4;
  uint16_t a5 ::= slice s 5;
  uint16_t a6 ::= slice s 6;
  uint16_t a7 ::= slice s 7;
  uint16_t a0_01 ::= a0 .^ ROT a0 1;
  uint16_t a0_12 ::= ROT a0_01 1;
  uint16_t a0_123 ::= a0_12 .^ ROT a0 3;
  uint16_t a0_0123 ::= a0 .^ a0_123;
  uint16_t a0_02 ::= a0_01 .^ a0_12;
  uint16_t a1_01 ::= a1 .^ ROT a1 1;
  uint16_t a1_12 ::= ROT a1_01 1;
  uint16_t a1_123 ::= a1_12 .^ ROT a1 3;
  uint16_t a1_0123 ::= a1 .^ a1_123;
  uint16_t a1_02 ::= a1_01 .^ a1_12;
  uint16_t a2_01 ::= a2 .^ ROT a2 1;
  uint16_t a2_12 ::= ROT a2_01 1;
  uint16_t a2_123 ::= a2_12 .^ ROT a2 3;
  uint16_t a2_0123 ::= a2 .^ a2_123;
  uint16_t a2_02 ::= a2_01 .^ a2_12;
  uint16_t a3_01 ::= a3 .^ ROT a3 1;
  uint16_t a3_12 ::= ROT a3_01 1;
  uint16_t a3_123 ::= a3_12 .^ ROT a3 3;
  uint16_t a3_0123 ::= a3 .^ a3_123;
  uint16_t a3_02 ::= a3_01 .^ a3_12;
  uint16_t a4_01 ::= a4 .^ ROT a4 1;
  uint16_t a4_12 ::= ROT a4_01 1;
  uint16_t a4_123 ::= a4_12 .^ ROT a4 3;
  uint16_t a4_0123 ::= a4 .^ a4_123;
  uint16_t a4_02 ::= a4_01 .^ a4_12;
  uint16_t a5_01 ::= a5 .^ ROT a5 1;
  uint16_t a5_12 ::= ROT a5_01 1;
  uint16_t a5_123 ::= a5_12 .^ ROT a5 3;
  uint16_t a5_0123 ::= a5 .^ a5_123;
  uint16_t a5_02 ::= a5_01 .^ a5_12;
  uint16_t a6_01 ::= a6 .^ ROT a6 1;
  uint16_t a6_12 ::= ROT a6_01 1;
  uint16_t a6_123 ::= a6_12 .^ ROT a6 3;
  uint16_t a6_0123 ::= a6 .^ a6_123;
  uint16_t a6_02 ::= a6_01 .^ a6_12;
  uint16_t a7_01 ::= a7 .^ ROT a7 1;
  uint16_t a7_12 ::= ROT a7_01 1;
  uint16_t a7_123 ::= a7_12 .^ ROT a7 3;
  uint16_t a7_0123 ::= a7 .^ a7_123;
  uint16_t a7_02 ::= a7_01 .^ a7_12;
  let s := set_slice s 0 (a0_123 .^ a7_01 .^ a6_02 .^ a5_0123) in
  let s := set_slice s 1 (a1_123 .^ a0_01 .^ a7_12 .^ a6_02 .^ a5_0123 .^ a6_0123) in
  let s := set_slice s 2 (a2_123 .^ a1_01 .^ a0_02 .^ a7_02 .^ a6_0123 .^ a7_0123) in
  let s := set_slice s 3 (a3_123 .^ a2_01 .^ a7_01 .^ a1_02 .^ a6_02 .^ a0_0123 .^ a5_0123 .^ a7_0123) in
  let s := set_slice s 4 (a4_123 .^ a3_01 .^ a7_12 .^ a2_02 .^ a6_02 .^ a1_0123 .^ a5_0123 .^ a6_0123) in
  let s := set_slice s 5 (a5_123 .^ a4_01 .^ a3_02 .^ a7_02 .^ a2_0123 .^ a6_0123 .^ a7_0123) in
  let s := set_slice s 6 (a6_123 .^ a5_01 .^ a4_02 .^ a3_0123 .^ a7_0123) in
  let s := set_slice s 7 (a7_123 .^ a6_01 .^ a5_02 .^ a4_0123) in
  s.

Definition AddRoundKey (s round : AES_state) : AES_state :=
  for_range 0 8 (fun b s => set_slice s b (slice s b .^ slice round b)) s.

(** ** Key schedule *)

(** The loop state of [AES_setup]: the locals [rcon], [rk], [pos], the read
    pointer [key] (the bytes not yet consumed) and the round keys stored so
    far through the write pointer [rounds]. *)
Record setup_state : Type := mk_setup {
  st_rcon : Z;
  st_rk : list Z;
  st_pos : Z;
  st_key : list Z;
  st_rounds : list AES_state
}.

(** [LoadWords(rounds++, ...)]: the next slot of the schedule is written. *)
Definition store_round (rounds : list AES_state) (w0 w1 w2 w3 : Z) : list AES_state :=
  rounds ++ [LoadWords uninit_state w0 w1 w2 w3].

(** The body of the first loop of [AES_setup]: round key word [i] is read
    from the key. *)
Definition AES_setup_load (i : Z) (st : setup_state) : setup_state :=
  let '(mk_setup rcon rk pos key rounds) := st in
  let rk := upd rk i (u32 (idx key 0 << 24 .| idx key 1 << 16 .| idx key 2 << 8 .| idx key 3)) in
  let rounds :=
    if (i .& 3) =? 3
    (* If we've generated 4 round key words, convert them to sliced form *)
    then store_round rounds (idx rk (i - 3)) (idx rk (i - 2)) (idx rk (i - 1)) (idx rk i)
    else rounds in
  let key := skipn 4 key in
  mk_setup rcon rk pos key rounds.

(** The body of the second loop of [AES_setup]: round key word [i] is
    computed from the words before it. *)
Definition AES_setup_expand (nkeywords : Z) (i : Z) (st : setup_state) : setup_state :=
  let '(mk_setup rcon rk pos key rounds) := st in
  (* Get the previous round word *)
  let temp := idx rk ((i + 7) .& 7) in
  (* Transform temp *)
  let '(temp, rcon) :=
    if pos =? 0 then
      let temp := u32 (SubWord (u32 (temp << 8) .| temp >> 24) .^ u32 (rcon << 24)) in
      (* Compute the next round constant (multiply by x modulo x^8 + x^4 + x^3 + x + 1) *)
      let rcon := u8 ((- (rcon >> 7)) .& 0x1B .^ rcon << 1) in
      (temp, rcon)
    else if (nkeywords >? 6) && (pos =? 4) then
      let temp := SubWord temp in
      (temp, rcon)
    else (temp, rcon) in
  let pos := pos + 1 in
  let pos := if pos =? nkeywords then 0 else pos in
  (* Compute the next round key word *)
  let rk := upd rk (i .& 7) (u32 (idx rk ((i + 8 - nkeywords) .& 7) .^ temp)) in
  let rounds :=
    if (i .& 3) =? 3
    (* If we've generated 4 round key words, convert them to sliced form *)
    then store_round rounds (idx rk ((i + 5) .& 7)) (idx rk ((i + 6) .& 7))
                            (idx rk ((i + 7) .& 7)) (idx rk (i .& 7))
    else rounds in
  mk_setup rcon rk pos key rounds.

(** Expand the cipher key into the key schedule.  [nkeywords] is 4, 6 or 8
    and [nrounds] 10, 12 or 14.  (The local [round] of [ctaes.c] is never
    read and is left out.) *)
Definition AES_setup (key : list Z) (nkeywords nrounds : Z) : list AES_state :=
  (* The one-byte round constant *)
  let rcon := 0x01 in
  (* A ring buffer containing the last 8 round key words *)
  let rk := uninit_array 8 in
  (* The number of the word being generated, modulo nkeywords *)
  let pos := 0 in
  let st := mk_setup rcon rk pos key [] in
  (* The first nkeywords round key words are just taken from the key directly *)
  let st := for_range 0 nkeywords AES_setup_load st in
  let st := for_range nkeywords (4 * (nrounds + 1)) (AES_setup_expand nkeywords) st in
  st_rounds st.

(** ** Round drivers *)

(** [rounds[i]] on a key schedule. *)
Definition round_key (rounds : list AES_state) (i : Z) : AES_state :=
  nth (Z.to_nat i) rounds uninit_state.

Definition AES_encrypt (rounds : list AES_state) (nrounds : Z) (plain16 : list Z) : list Z :=
  let s := uninit_state in
  let rp := 0 in
  let s := LoadBytes s plain16 in
  let s := AddRoundKey s (round_key rounds rp) in
  let rp := rp + 1 in
  let '(s, rp) := for_range 1 nrounds (fun round '(s, rp) =>
      let s := SubBytes s in
      let s := ShiftRows s in
      let s := MixColumns s in
      let s := AddRoundKey s (round_key rounds rp) in
      (s, rp + 1)) (s, rp) in
  let s := SubBytes s in
  let s := ShiftRows s in
  let s := AddRoundKey s (round_key rounds rp) in
  SaveBytes s.

Definition AES_decrypt (rounds : list AES_state) (nrounds : Z) (cipher16 : list Z) : list Z :=
  let s := uninit_state in
  let rp := 0 + nrounds in
  let s := LoadBytes s cipher16 in
  let s := AddRoundKey s (round_key rounds rp) in
  let rp := rp - 1 in
  let '(s, rp) := for_range 1 nrounds (fun round '(s, rp) =>
      let s := InvShiftRows s in
      let s := InvSubBytes s in
      let s := AddRoundKey s (round_key rounds rp) in
      let rp := rp - 1 in
      let s := InvMixColumns s in
      (s, rp)) (s, rp) in
  let s := InvShiftRows s in
  let s := InvSubBytes s in
  let s := AddRoundKey s (round_key rounds rp) in
  SaveBytes s.

(** ** Per-variant API

    The context structs of [ctaes.h] hold one array [rk] of 11, 13 or 15
    states; a context is modelled by that array. *)
Definition AES128_ctx : Type := list AES_state.
Definition AES192_ctx : Type := list AES_state.
Definition AES256_ctx : Type := list AES_state.

Definition AES128_init (key16 : list Z) : AES128_ctx := AES_setup key16 4 10.
Definition AES128_encrypt (ctx : AES128_ctx) (plain16 : list Z) : list Z := AES_encrypt ctx 10 plain16.
Definition AES128_decrypt (ctx : AES128_ctx) (cipher16 : list Z) : list Z := AES_decrypt ctx 10 cipher16.

Definition AES192_init (key24 : list Z) : AES192_ctx := AES_setup key24 6 12.
Definition AES192_encrypt (ctx : AES192_ctx) (plain16 : list Z) : list Z := AES_encrypt ctx 12 plain16.
Definition AES192_decrypt (ctx : AES192_ctx) (cipher16 : list Z) : list Z := AES_decrypt ctx 12 cipher16.

Definition AES256_init (key32 : list Z) : AES256_ctx := AES_setup key32 8 14.
Definition AES256_encrypt (ctx : AES256_ctx) (plain16 : list Z) : list Z := AES_encrypt ctx 14 plain16.
Definition AES256_decrypt (ctx : AES256_ctx) (cipher16 : list Z) : list Z := AES_decrypt ctx 14 cipher16.

(** * The sibling source file: SubBytes and InvSubBytes merged behind a flag

    The second source file differs from [ctaes.c] in [LoadBytes]
    (a loop over [w[4]]), [SubBytes] (one function with a direction flag
    [inv]), [MixColumns] and [InvMixColumns] (arrays and a loop) and in the
    callers of [SubBytes].  [LoadWords], [SaveBytes], the two loops of
    [SubWord], [ShiftRows], [InvShiftRows], [ROT] and [AddRoundKey] are the
    same text in both files and are shared with the model above. *)
Module Merged.

(** Load 16 bytes of data into 8 sliced integers. *)
Definition LoadBytes (s : AES_state) (data16 : list Z) : AES_state :=
  let w := uninit_array 4 in
  let '(w, data16) := for_range 0 4 (fun i '(w, data16) =>
      let w := upd w i (u32 (idx data16 0 << 24 .| idx data16 1 << 16
                             .| idx data16 2 << 8 .| idx data16 3)) in
      let data16 := skipn 4 data16 in
      (w, data16)) (w, data16) in
  LoadWords s (idx w 0) (idx w 1) (idx w 2) (idx w 3).

(** The code of [SubBytes] after the first [if (inv)]: the non-linear
    transformation, shared by the two directions, and the second
    [if (inv)].  The variables assigned in both branches of the first [if]
    are its arguments. *)
Definition SubBytes_shared (s : AES_state) (inv : Z) (T1 T2 T3 T4 T6 T8 T9 T10 T13 T14 T15 T16 T17 T19 T20 T22 T23 T24 T25 T26 T27 D : Z) : AES_state :=
  (* Non-linear transformation (identical to the code in SubBytes) *)
  uint16_t M1 ::= T13 .& T6;
  uint16_t M6 ::= T3 .& T16;
  uint16_t M11 ::= T1 .& T15;
  uint16_t M13 ::= (T4 .& T27) .^ M11;
  uint16_t M15 ::= (T2 .& T10) .^ M11;
  uint16_t M20 ::= T14 .^ M1 .^ (T23 .& T8) .^ M13;
  uint16_t M21 ::= (T19 .& D) .^ M1 .^ T24 .^ M15;
  uint16_t M22 ::= T26 .^ M6 .^ (T22 .& T9) .^ M13;
  uint16_t M23 ::= (T20 .& T17) .^ M6 .^ M15 .^ T25;
  uint16_t M25 ::= M22 .& M20;
  uint16_t M37 ::= M21 .^ ((M20 .^ M21) .& (M23 .^ M25));
  uint16_t M38 ::= M20 .^ M25 .^ (M21 .| (M20 .& M23));
  uint16_t M39 ::= M23 .^ ((M22 .^ M23) .& (M21 .^ M25));
  uint16_t M40 ::= M22 .^ M25 .^ (M23 .| (M21 .& M22));
  uint16_t M41 ::= M38 .^ M40;
  uint16_t M42 ::= M37 .^ M39;
  uint16_t M43 ::= M37 .^ M38;
  uint16_t M44 ::= M39 .^ M40;
  uint16_t M45 ::= M42 .^ M41;
  uint16_t M46 ::= M44 .& T6;
  uint16_t M47 ::= M40 .& T8;
  uint16_t M48 ::= M39 .& D;
  uint16_t M49 ::= M43 .& T16;
  uint16_t M50 ::= M38 .& T9;
  uint16_t M51 ::= M37 .& T17;
  uint16_t M52 ::= M42 .& T15;
  uint16_t M53 ::= M45 .& T27;
  uint16_t M54 ::= M41 .& T10;
  uint16_t M55 ::= M44 .& T13;
  uint16_t M56 ::= M40 .& T23;
  uint16_t M57 ::= M39 .& T19;
  uint16_t M58 ::= M43 .& T3;
  uint16_t M59 ::= M38 .& T22;
  uint16_t M60 ::= M37 .& T20;
  uint16_t M61 ::= M42 .& T1;
  uint16_t M62 ::= M45 .& T4;
  uint16_t M63 ::= M41 .& T2;
  if truthy inv then
    (* Undo linear preprocessing *)
    uint16_t P0 ::= M52 .^ M61;
    uint16_t P1 ::= M58 .^ M59;
    uint16_t P2 ::= M54 .^ M62;
    uint16_t P3 ::= M47 .^ M50;
    uint16_t P4 ::= M48 .^ M56;
    uint16_t P5 ::= M46 .^ M51;
    uint16_t P6 ::= M49 .^ M60;
    uint16_t P7 ::= P0 .^ P1;
    uint16_t P8 ::= M50 .^ M53;
    uint16_t P9 ::= M55 .^ M63;
    uint16_t P10 ::= M57 .^ P4;
    uint16_t P11 ::= P0 .^ P3;
    uint16_t P12 ::= M46 .^ M48;
    uint16_t P13 ::= M49 .^ M51;
    uint16_t P14 ::= M49 .^ M62;
    uint16_t P15 ::= M54 .^ M59;
    uint16_t P16 ::= M57 .^ M61;
    uint16_t P17 ::= M58 .^ P2;
    uint16_t P18 ::= M63 .^ P5;
    uint16_t P19 ::= P2 .^ P3;
    uint16_t P20 ::= P4 .^ P6;
    uint16_t P22 ::= P2 .^ P7;
    uint16_t P23 ::= P7 .^ P8;
    uint16_t P24 ::= P5 .^ P7;
    uint16_t P25 ::= P6 .^ P10;
    uint16_t P26 ::= P9 .^ P11;
    uint16_t P27 ::= P10 .^ P18;
    uint16_t P28 ::= P11 .^ P25;
    uint16_t P29 ::= P15 .^ P20;
    let s := set_slice s 7 (P13 .^ P22) in
    let s := set_slice s 6 (P26 .^ P29) in
    let s := set_slice s 5 (P17 .^ P28) in
    let s := set_slice s 4 (P12 .^ P22) in
    let s := set_slice s 3 (P23 .^ P27) in
    let s := set_slice s 2 (P19 .^ P24) in
    let s := set_slice s 1 (P14 .^ P23) in
    let s := set_slice s 0 (P9 .^ P16) in
    s
  else
    (* Linear postprocessing *)
    uint16_t L0 ::= M61 .^ M62;
    uint16_t L1 ::= M50 .^ M56;
    uint16_t L2 ::= M46 .^ M48;
    uint16_t L3 ::= M47 .^ M55;
    uint16_t L4 ::= M54 .^ M58;
    uint16_t L5 ::= M49 .^ M61;
    uint16_t L6 ::= M62 .^ L5;
    uint16_t L7 ::= M46 .^ L3;
    uint16_t L8 ::= M51 .^ M59;
    uint16_t L9 ::= M52 .^ M53;
    uint16_t L10 ::= M53 .^ L4;
    uint16_t L11 ::= M60 .^ L2;
    uint16_t L12 ::= M48 .^ M51;
    uint16_t L13 ::= M50 .^ L0;
    uint16_t L14 ::= M52 .^ M61;
    uint16_t L15 ::= M55 .^ L1;
    uint16_t L16 ::= M56 .^ L0;
    uint16_t L17 ::= M57 .^ L1;
    uint16_t L18 ::= M58 .^ L8;
    uint16_t L19 ::= M63 .^ L4;
    uint16_t L20 ::= L0 .^ L1;
    uint16_t L21 ::= L1 .^ L7;
    uint16_t L22 ::= L3 .^ L12;
    uint16_t L23 ::= L18 .^ L2;
    uint16_t L24 ::= L15 .^ L9;
    uint16_t L25 ::= L6 .^ L10;
    uint16_t L26 ::= L7 .^ L9;
    uint16_t L27 ::= L8 .^ L10;
    uint16_t L28 ::= L11 .^ L14;
    uint16_t L29 ::= L11 .^ L17;
    let s := set_slice s 7 (L6 .^ L24) in
    let s := set_slice s 6 (.~ (L16 .^ L26)) in
    let s := set_slice s 5 (.~ (L19 .^ L28)) in
    let s := set_slice s 4 (L6 .^ L21) in
    let s := set_slice s 3 (L20 .^ L22) in
    let s := set_slice s 2 (L25 .^ L29) in
    let s := set_slice s 1 (.~ (L13 .^ L27)) in
    let s := set_slice s 0 (.~ (L6 .^ L23)) in
    s.

Definition SubBytes (s : AES_state) (inv : Z) : AES_state :=
  (* Load the bit slices *)
  uint16_t U0 ::= slice s 7;
  uint16_t U1 ::= slice s 6;
  uint16_t U2 ::= slice s 5;
  uint16_t U3 ::= slice s 4;
  uint16_t U4 ::= slice s 3;
  uint16_t U5 ::= slice s 2;
  uint16_t U6 ::= slice s 1;
  uint16_t U7 ::= slice s 0;
  if truthy inv then
    (* Undo linear postprocessing *)
    uint16_t T23 ::= U0 .^ U3;
    uint16_t T22 ::= .~ (U1 .^ U3);
    uint16_t T2 ::= .~ (U0 .^ U1);
    uint16_t T1 ::= U3 .^ U4;
    uint16_t T24 ::= .~ (U4 .^ U7);
    uint16_t R5 ::= U6 .^ U7;
    uint16_t T8 ::= .~ (U1 .^ T23);
    uint16_t T19 ::= T22 .^ R5;
    uint16_t T9 ::= .~ (U7 .^ T1);
    uint16_t T10 ::= T2 .^ T24;
    uint16_t T13 ::= T2 .^ R5;
    uint16_t T3 ::= T1 .^ R5;
    uint16_t T25 ::= .~ (U2 .^ T1);
    uint16_t R13 ::= U1 .^ U6;
    uint16_t T17 ::= .~ (U2 .^ T19);
    uint16_t T20 ::= T24 .^ R13;
    uint16_t T4 ::= U4 .^ T8;
    uint16_t R17 ::= .~ (U2 .^ U5);
    uint16_t R18 ::= .~ (U5 .^ U6);
    uint16_t R19 ::= .~ (U2 .^ U4);
    uint16_t D ::= U0 .^ R17;
    uint16_t T6 ::= T22 .^ R17;
    uint16_t T16 ::= R13 .^ R19;
    uint16_t T27 ::= T1 .^ R18;
    uint16_t T15 ::= T10 .^ T27;
    uint16_t T14 ::= T10 .^ R18;
    uint16_t T26 ::= T3 .^ T16;
    SubBytes_shared s inv T1 T2 T3 T4 T6 T8 T9 T10 T13 T14 T15 T16 T17 T19 T20 T22 T23 T24 T25 T26 T27 D
  else
    (* Linear preprocessing. *)
    uint16_t T1 ::= U0 .^ U3;
    uint16_t T2 ::= U0 .^ U5;
    uint16_t T3 ::= U0 .^ U6;
    uint16_t T4 ::= U3 .^ U5;
    uint16_t T5 ::= U4 .^ U6;
    uint16_t T6 ::= T1 .^ T5;
    uint16_t T7 ::= U1 .^ U2;
    uint16_t T8 ::= U7 .^ T6;
    uint16_t T9 ::= U7 .^ T7;
    uint16_t T10 ::= T6 .^ T7;
    uint16_t T11 ::= U1 .^ U5;
    uint16_t T12 ::= U2 .^ U5;
    uint16_t T13 ::= T3 .^ T4;
    uint16_t T14 ::= T6 .^ T11;
    uint16_t T15 ::= T5 .^ T11;
    uint16_t T16 ::= T5 .^ T12;
    uint16_t T17 ::= T9 .^ T16;
    uint16_t T18 ::= U3 .^ U7;
    uint16_t T19 ::= T7 .^ T18;
    uint16_t T20 ::= T1 .^ T19;
    uint16_t T21 ::= U6 .^ U7;
    uint16_t T22 ::= T7 .^ T21;
    uint16_t T23 ::= T2 .^ T22;
    uint16_t T24 ::= T2 .^ T10;
    uint16_t T25 ::= T20 .^ T17;
    uint16_t T26 ::= T3 .^ T16;
    uint16_t T27 ::= T1 .^ T12;
    uint16_t D ::= U7;
    SubBytes_shared s inv T1 T2 T3 T4 T6 T8 T9 T10 T13 T14 T15 T16 T17 T19 T20 T22 T23 T24 T25 T26 T27 D.

(** Apply the SubBytes transform to the bytes of an unsliced word. *)
Definition SubWord (x : Z) : Z :=
  let s := uninit_state in
  let r := 0 in
  (* Convert to sliced form *)
  let s := SubWord_pack x s in
  (* Apply the transformation in sliced form *)
  let s := SubBytes s 0 in
  (* Convert back to word form *)
  SubWord_unpack s r.

Definition MixColumns (s : AES_state) : AES_state :=
  (* b(r,c) = 02 * a(r,c) + 02 * a(r+1,c) + a(r+1,c) + a(r+2,c) + a(r+3,c) *)
  let a123 := uninit_array 8 in
  let a01 := uninit_array 8 in
  let '(a01, a123) := for_range 0 8 (fun i '(a01, a123) =>
      uint16_t a ::= slice s i;
      let a01 := upd a01 i (u16 (a .^ ROT a 1)) in
      let a123 := upd a123 i (u16 (ROT (idx a01 i) 1 .^ ROT a 3)) in
      (a01, a123)) (a01, a123) in
  let s := set_slice s 0 (idx a01 7 .^ idx a123 0) in
  let s := set_slice s 1 (idx a01 7 .^ idx a01 0 .^ idx a123 1) in
  let s := set_slice s 2 (idx a01 1 .^ idx a123 2) in
  let s := set_slice s 3 (idx a01 7 .^ idx a01 2 .^ idx a123 3) in
  let s := set_slice s 4 (idx a01 7 .^ idx a01 3 .^ idx a123 4) in
  let s := set_slice s 5 (idx a01 4 .^ idx a123 5) in
  let s := set_slice s 6 (idx a01 5 .^ idx a123 6) in
  let s := set_slice s 7 (idx a01 6 .^ idx a123 7) in
  s.

Definition InvMixColumns (s : AES_state) : AES_state :=
  (* b(r,c) = 0e * a(r,c) + 0b * a(r+1,c) + 0d * a(r+2,c) + 09 * a(r+3,c) *)
  let a01 := uninit_array 8 in
  let a12 := uninit_array 8 in
  let a123 := uninit_array 8 in
  let a0123 := uninit_array 8 in
  let a02 := uninit_array 8 in
  let '(a01, a12, a123, a0123, a02) :=
    for_range 0 8 (fun i '(a01, a12, a123, a0123, a02) =>
      uint16_t a ::= slice s i;
      let a01 := upd a01 i (u16 (a .^ ROT a 1)) in
      let a12 := upd a12 i (u16 (ROT (idx a01 i) 1)) in
      let a123 := upd a123 i (u16 (idx a12 i .^ ROT a 3)) in
      let a0123 := upd a0123 i (u16 (a .^ idx a123 i)) in
      let a02 := upd a02 i (u16 (idx a01 i .^ idx a12 i)) in
      (a01, a12, a123, a0123, a02)) (a01, a12, a123, a0123, a02) in
  let s := set_slice s 0 (idx a123 0 .^ idx a01 7 .^ idx a02 6 .^ idx a0123 5) in
  let s := set_slice s 1 (idx a123 1 .^ idx a01 0 .^ idx a12 7 .^ idx a02 6 .^ idx a0123 5
                          .^ idx a0123 6) in
  let s := set_slice s 2 (idx a123 2 .^ idx a01 1 .^ idx a02 0 .^ idx a02 7 .^ idx a0123 6
                          .^ idx a0123 7) in
  let s := set_slice s 3 (idx a123 3 .^ idx a01 2 .^ idx a01 7 .^ idx a02 1 .^ idx a02 6
                          .^ idx a0123 0 .^ idx a0123 5 .^ idx a0123 7) in
  let s := set_slice s 4 (idx a123 4 .^ idx a01 3 .^ idx a12 7 .^ idx a02 2 .^ idx a02 6
                          .^ idx a0123 1 .^ idx a0123 5 .^ idx a0123 6) in
  let s := set_slice s 5 (idx a123 5 .^ idx a01 4 .^ idx a02 3 .^ idx a02 7 .^ idx a0123 2
                          .^ idx a0123 6 .^ idx a0123 7) in
  let s := set_slice s 6 (idx a123 6 .^ idx a01 5 .^ idx a02 4 .^ idx a0123 3 .^ idx a0123 7) in
  let s := set_slice s 7 (idx a123 7 .^ idx a01 6 .^ idx a02 5 .^ idx a0123 4) in
  s.

(** The body of the second loop of [AES_setup] (the first loop is the same
    text as in [ctaes.c]: [AES_setup_load]). *)
Definition AES_setup_expand (nkeywords : Z) (i : Z) (st : setup_state) : setup_state :=
  let '(mk_setup rcon rk pos key rounds) := st in
  (* Get the previous round word *)
  let temp := idx rk ((i + 7) .& 7) in
  (* Transform temp *)
  let '(temp, rcon) :=
    if pos =? 0 then
      let temp := u32 (SubWord (u32 (temp << 8) .| temp >> 24) .^ u32 (rcon << 24)) in
      (* Compute the next round constant (multiply by x modulo x^8 + x^4 + x^3 + x + 1) *)
      let rcon := u8 ((- (rcon >> 7)) .& 0x1B .^ rcon << 1) in
      (temp, rcon)
    else if (nkeywords >? 6) && (pos =? 4) then
      let temp := SubWord temp in
      (temp, rcon)
    else (temp, rcon) in
  let pos := pos + 1 in
  let pos := if pos =? nkeywords then 0 else pos in
  (* Compute the next round key word *)
  let rk := upd rk (i .& 7) (u32 (idx rk ((i + 8 - nkeywords) .& 7) .^ temp)) in
  let rounds :=
    if (i .& 3) =? 3
    (* If we've generated 4 round key words, convert them to sliced form *)
    then store_round rounds (idx rk ((i + 5) .& 7)) (idx rk ((i + 6) .& 7))
                            (idx rk ((i + 7) .& 7)) (idx rk (i .& 7))
    else rounds in
  mk_setup rcon rk pos key rounds.

(** Expand the cipher key into the key schedule. *)
Definition AES_setup (key : list Z) (nkeywords nrounds : Z) : list AES_state :=
  (* The one-byte round constant *)
  let rcon := 0x01 in
  (* A ring buffer containing the last 8 round key words *)
  let rk := uninit_array 8 in
  (* The number of the word being generated, modulo nkeywords *)
  let pos := 0 in
  let st := mk_setup rcon rk pos key [] in
  (* The first nkeywords round key words are just taken from the key directly *)
  let st := for_range 0 nkeywords AES_setup_load st in
  let st := for_range nkeywords (4 * (nrounds + 1)) (AES_setup_expand nkeywords) st in
  st_rounds st.

Definition AES_encrypt (rounds : list AES_state) (nrounds : Z) (plain16 : list Z) : list Z :=
  let s := uninit_state in
  let rp := 0 in
  let s := LoadBytes s plain16 in
  let s := AddRoundKey s (round_key rounds rp) in
  let rp := rp + 1 in
  let '(s, rp) := for_range 1 nrounds (fun round '(s, rp) =>
      let s := SubBytes s 0 in
      let s := ShiftRows s in
      let s := MixColumns s in
      let s := AddRoundKey s (round_key rounds rp) in
      (s, rp + 1)) (s, rp) in
  let s := SubBytes s 0 in
  let s := ShiftRows s in
  let s := AddRoundKey s (round_key rounds rp) in
  SaveBytes s.

Definition AES_decrypt (rounds : list AES_state) (nrounds : Z) (cipher16 : list Z) : list Z :=
  let s := uninit_state in
  let rp := 0 + nrounds in
  let s := LoadBytes s cipher16 in
  let s := AddRoundKey s (round_key rounds rp) in
  let rp := rp - 1 in
  let '(s, rp) := for_range 1 nrounds (fun round '(s, rp) =>
      let s := InvShiftRows s in
      let s := SubBytes s 1 in
      let s := AddRoundKey s (round_key rounds rp) in
      let rp := rp - 1 in
      let s := InvMixColumns s in
      (s, rp)) (s, rp) in
  let s := InvShiftRows s in
  let s := SubBytes s 1 in
  let s := AddRoundKey s (round_key rounds rp) in
  SaveBytes s.

Definition AES128_init (key16 : list Z) : AES128_ctx := AES_setup key16 4 10.
Definition AES128_encrypt (ctx : AES128_ctx) (plain16 : list Z) : list Z := AES_encrypt ctx 10 plain16.
Definition AES128_decrypt (ctx : AES128_ctx) (cipher16 : list Z) : list Z := AES_decrypt ctx 10 cipher16.

Definition AES192_init (key24 : list Z) : AES192_ctx := AES_setup key24 6 12.
Definition AES192_encrypt (ctx : AES192_ctx) (plain16 : list Z) : list Z := AES_encrypt ctx 12 plain16.
Definition AES192_decrypt (ctx : AES192_ctx) (cipher16 : list Z) : list Z := AES_decrypt ctx 12 cipher16.

Definition AES256_init (key32 : list Z) : AES256_ctx := AES_setup key32 8 14.
Definition AES256_encrypt (ctx : AES256_ctx) (plain16 : list Z) : list Z := AES_encrypt ctx 14 plain16.
Definition AES256_decrypt (ctx : AES256_ctx) (cipher16 : list Z) : list Z := AES_decrypt ctx 14 cipher16.

End Merged.

(** * What an execution of [ctaes.c] reveals through timing

    The same translation of [ctaes.c], instrumented: next to its result every
    function returns the list of what a timing or cache observer can see of
    the run, in order: the outcome of every condition ([if], [?:], [&&] and
    loop tests), the subscript of every array access and every move of a
    pointer.  The arithmetic between them is that of the functions above. *)
Module Leakage.

(** The arrays and pointers of the source. *)
Inductive array : Type :=
| a_slice      (* [s->slice] of the state a function works on *)
| a_round      (* [round->slice] of the round key given to [AddRoundKey] *)
| a_rk         (* the ring buffer [rk] of [AES_setup] *)
| a_key        (* the key bytes, through the pointer [key] *)
| a_data16     (* a 16-byte input or output block, through its pointer *)
| a_rounds.    (* the round keys of a context, through the pointer [rounds] *)

Inductive event : Type :=
| Branch (taken : bool)         (* a condition was evaluated, with this outcome *)
| Index (a : array) (i : Z)     (* element [i] from the current pointer was accessed *)
| Move (a : array) (d : Z).     (* the pointer moved by [d] elements *)

(** A computation with its leakage. *)
Definition leak (A : Type) : Type := (A * list event)%type.

Definition ret {A : Type} (a : A) : leak A := (a, []).

Definition bind {A B : Type} (m : leak A) (k : A -> leak B) : leak B :=
  let '(a, t) := m in
  let '(b, t') := k a in
  (b, t ++ t').

Notation "x <- m ;; k" := (bind m (fun x => k))
  (at level 61, m at next level, right associativity).
Notation "m ;;; k" := (bind m (fun _ => k))
  (at level 61, right associativity).

Definition result {A : Type} (m : leak A) : A := fst m.
Definition leakage {A : Type} (m : leak A) : list event := snd m.

(** A condition: its outcome is revealed and steers the control flow. *)
Definition branch (b : bool) : leak bool := (b, [Branch b]).

(** A subscript: its value is revealed and selects the element. *)
Definition at_ (a : array) (i : Z) : leak Z := (i, [Index a i]).

(** Accesses at literal subscripts, in the order of the source. *)
Definition touch (a : array) (l : list Z) : leak unit := (tt, map (Index a) l).

Definition move (a : array) (d : Z) : leak unit := (tt, [Move a d]).

(** [for (i = lo; i < hi; i++) body]: the test [i < hi] is evaluated before
    every iteration and once more to leave the loop. *)
Fixpoint loop {A : Type} (fuel : nat) (i hi : Z) (body : Z -> A -> leak A) (a : A) : leak A :=
  match fuel with
  | O => ret a
  | S fuel' =>
      c <- branch (i <? hi);;
      if c then a' <- body i a;; loop fuel' (i + 1) hi body a'
      else ret a
  end.

Definition for_range {A : Type} (lo hi : Z) (body : Z -> A -> leak A) (a : A) : leak A :=
  loop (S (Z.to_nat (hi - lo))) lo hi body a.

(** ** Bit-slice codec *)

Definition LoadWords_bits (pos : Z) (v : Z) (s : AES_state) : leak AES_state :=
  vs <- for_range 0 8 (fun i '(v, s) =>
          j <- at_ a_slice i;;
          let s := set_slice s j (slice s j .| (v .& 1) << pos) in
          let v := u8 (v >> 1) in
          ret (v, s)) (v, s);;
  ret (snd vs).

Definition LoadWords_column (c : Z) (w : Z) (s : AES_state) : leak AES_state :=
  ws <- for_range 0 4 (fun r '(w, s) =>
          let v := u8 (w >> 24) in
          let w := u32 (w << 8) in
          s <- LoadWords_bits (r * 4 + c) v s;;
          ret (w, s)) (w, s);;
  ret (snd ws).

Definition LoadWords (s : AES_state) (w0 w1 w2 w3 : Z) : leak AES_state :=
  s <- for_range 0 8 (fun b s => j <- at_ a_slice b;; ret (set_slice s j 0)) s;;
  for_range 0 4 (fun c s =>
    c2 <- branch (truthy (c .& 2));;
    c1 <- branch (truthy (c .& 1));;
    let w := if c2 then (if c1 then w3 else w2) else (if c1 then w1 else w0) in
    LoadWords_column c w s) s.

Definition LoadBytes (s : AES_state) (data16 : list Z) : leak AES_state :=
  touch a_data16 [0; 1; 2; 3];;;
  let w0 := u32 (idx data16 0 << 24 .| idx data16 1 << 16 .| idx data16 2 << 8 .| idx data16 3) in
  move a_data16 4;;;
  let data16 := skipn 4 data16 in
  touch a_data16 [0; 1; 2; 3];;;
  let w1 := u32 (idx data16 0 << 24 .| idx data16 1 << 16 .| idx data16 2 << 8 .| idx data16 3) in
  move a_data16 4;;;
  let data16 := skipn 4 data16 in
  touch a_data16 [0; 1; 2; 3];;;
  let w2 := u32 (idx data16 0 << 24 .| idx data16 1 << 16 .| idx data16 2 << 8 .| idx data16 3) in
  move a_data16 4;;;
  let data16 := skipn 4 data16 in
  touch a_data16 [0; 1; 2; 3];;;
  let w3 := u32 (idx data16 0 << 24 .| idx data16 1 << 16 .| idx data16 2 << 8 .| idx data16 3) in
  LoadWords s w0 w1 w2 w3.

Definition SaveBytes_byte (s : AES_state) (pos : Z) : leak Z :=
  for_range 0 8 (fun b v =>
    j <- at_ a_slice b;;
    ret (u8 (v .| (slice s j >> pos .& 1) << b))) 0.

Definition SaveBytes (s : AES_state) : leak (list Z) :=
  for_range 0 4 (fun c data16 =>
    for_range 0 4 (fun r data16 =>
      v <- SaveBytes_byte s (r * 4 + c);;
      touch a_data16 [0];;;
      move a_data16 1;;;
      ret (data16 ++ [v])) data16) [].

(** ** The S-box layer and the linear layers

    [SubBytes], [InvSubBytes], [MixColumns] and [InvMixColumns] are straight
    lines of assignments: no condition, eight reads and eight writes of
    [s->slice] at literal subscripts, and gates on locals in between. *)

Definition SubBytes (s : AES_state) : leak AES_state :=
  touch a_slice [7; 6; 5; 4; 3; 2; 1; 0];;;
  let s := SubBytes s in
  touch a_slice [7; 6; 5; 4; 3; 2; 1; 0];;;
  ret s.

Definition InvSubBytes (s : AES_state) : leak AES_state :=
  touch a_slice [7; 6; 5; 4; 3; 2; 1; 0];;;
  let s := InvSubBytes s in
  touch a_slice [7; 6; 5; 4; 3; 2; 1; 0];;;
  ret s.

Definition SubWord_pack (x : Z) (s : AES_state) : leak AES_state :=
  xs <- for_range 0 8 (fun b '(x, s) =>
          j <- at_ a_slice b;;
          let s := set_slice s j (x .& 1 .| (x >> 7 .& 2) .| (x >> 14 .& 4) .| (x >> 21 .& 8)) in
          let x := u32 (x >> 1) in
          ret (x, s)) (x, s);;
  ret (snd xs).

Definition SubWord_unpack (s : AES_state) (r : Z) : leak Z :=
  for_range 0 8 (fun b r =>
    j <- at_ a_slice b;;
    let t := u32 (slice s j) in
    ret (u32 (r .| u32 ((t .& 1 .| (t .& 2) << 7 .| (t .& 4) << 14 .| (t .& 8) << 21) << b)))) r.

Definition SubWord (x : Z) : leak Z :=
  let s := uninit_state in
  let r := 0 in
  s <- SubWord_pack x s;;
  s <- SubBytes s;;
  SubWord_unpack s r.

Definition ShiftRows (s : AES_state) : leak AES_state :=
  for_range 0 8 (fun i s =>
    j <- at_ a_slice i;;
    uint16_t v ::= slice s j;
    j' <- at_ a_slice i;;
    ret (set_slice s j' (v .& 0xF .| (v .& 0x10) << 3 .| (v .& 0xE0) >> 1 .| (v .& 0x300) << 2
                         .| (v .& 0xC00) >> 2 .| (v .& 0x7000) << 1 .| (v .& 0x8000) >> 3))) s.

Definition InvShiftRows (s : AES_state) : leak AES_state :=
  for_range 0 8 (fun i s =>
    j <- at_ a_slice i;;
    uint16_t v ::= slice s j;
    j' <- at_ a_slice i;;
    ret (set_slice s j' (v .& 0xF .| (v .& 0x70) << 1 .| (v .& 0x80) >> 3 .| (v .& 0x300) << 2
                         .| (v .& 0xC00) >> 2 .| (v .& 0x1000) << 3 .| (v .& 0xE000) >> 1))) s.

Definition MixColumns (s : AES_state) : leak AES_state :=
  touch a_slice [0; 1; 2; 3; 4; 5; 6; 7];;;
  let s := MixColumns s in
  touch a_slice [0; 1; 2; 3; 4; 5; 6; 7];;;
  ret s.

Definition InvMixColumns (s : AES_state) : leak AES_state :=
  touch a_slice [0; 1; 2; 3; 4; 5; 6; 7];;;
  let s := InvMixColumns s in
  touch a_slice [0; 1; 2; 3; 4; 5; 6; 7];;;
  ret s.

Definition AddRoundKey (s round : AES_state) : leak AES_state :=
  for_range 0 8 (fun b s =>
    j <- at_ a_slice b;;
    k <- at_ a_round b;;
    ret (set_slice s j (slice s j .^ slice round k))) s.

(** ** Key schedule *)

(** [LoadWords(rounds++, ...)] *)
Definition store_round (rounds : list AES_state) (w0 w1 w2 w3 : Z) : leak (list AES_state) :=
  touch a_rounds [0];;;
  move a_rounds 1;;;
  s <- LoadWords uninit_state w0 w1 w2 w3;;
  ret (rounds ++ [s]).

Definition AES_setup_load (i : Z) (st : setup_state) : leak setup_state :=
  let '(mk_setup rcon rk pos key rounds) := st in
  touch a_key [0; 1; 2; 3];;;
  j <- at_ a_rk i;;
  let rk := upd rk j (u32 (idx key 0 << 24 .| idx key 1 << 16 .| idx key 2 << 8 .| idx key 3)) in
  c <- branch ((i .& 3) =? 3);;
  rounds <- (if c then
               j0 <- at_ a_rk (i - 3);;
               j1 <- at_ a_rk (i - 2);;
               j2 <- at_ a_rk (i - 1);;
               j3 <- at_ a_rk i;;
               store_round rounds (idx rk j0) (idx rk j1) (idx rk j2) (idx rk j3)
             else ret rounds);;
  move a_key 4;;;
  let key := skipn 4 key in
  ret (mk_setup rcon rk pos key rounds).

Definition AES_setup_expand (nkeywords : Z) (i : Z) (st : setup_state) : leak setup_state :=
  let '(mk_setup rcon rk pos key rounds) := st in
  j <- at_ a_rk ((i + 7) .& 7);;
  let temp := idx rk j in
  c0 <- branch (pos =? 0);;
  tr <- (if c0 then
           t <- SubWord (u32 (temp << 8) .| temp >> 24);;
           let temp := u32 (t .^ u32 (rcon << 24)) in
           let rcon := u8 ((- (rcon >> 7)) .& 0x1B .^ rcon << 1) in
           ret (temp, rcon)
         else
           c1 <- branch (nkeywords >? 6);;
           c2 <- (if c1 then branch (pos =? 4) else ret false);;
           if c2 then temp <- SubWord temp;; ret (temp, rcon)
           else ret (temp, rcon));;
  let '(temp, rcon) := tr in
  let pos := pos + 1 in
  c3 <- branch (pos =? nkeywords);;
  let pos := if c3 then 0 else pos in
  j1 <- at_ a_rk ((i + 8 - nkeywords) .& 7);;
  j2 <- at_ a_rk (i .& 7);;
  let rk := upd rk j2 (u32 (idx rk j1 .^ temp)) in
  c4 <- branch ((i .& 3) =? 3);;
  rounds <- (if c4 then
               k0 <- at_ a_rk ((i + 5) .& 7);;
               k1 <- at_ a_rk ((i + 6) .& 7);;
               k2 <- at_ a_rk ((i + 7) .& 7);;
               k3 <- at_ a_rk (i .& 7);;
               store_round rounds (idx rk k0) (idx rk k1) (idx rk k2) (idx rk k3)
             else ret rounds);;
  ret (mk_setup rcon rk pos key rounds).

Definition AES_setup (key : list Z) (nkeywords nrounds : Z) : leak (list AES_state) :=
  let rcon := 0x01 in
  let rk := uninit_array 8 in
  let pos := 0 in
  let st := mk_setup rcon rk pos key [] in
  st <- for_range 0 nkeywords AES_setup_load st;;
  st <- for_range nkeywords (4 * (nrounds + 1)) (AES_setup_expand nkeywords) st;;
  ret (st_rounds st).

(** ** Round drivers *)

Definition AES_encrypt (rounds : list AES_state) (nrounds : Z) (plain16 : list Z)
  : leak (list Z) :=
  let s := uninit_state in
  let rp := 0 in
  s <- LoadBytes s plain16;;
  touch a_rounds [0];;;
  s <- AddRoundKey s (round_key rounds rp);;
  move a_rounds 1;;;
  let rp := rp + 1 in
  sr <- for_range 1 nrounds (fun round '(s, rp) =>
      s <- SubBytes s;;
      s <- ShiftRows s;;
      s <- MixColumns s;;
      touch a_rounds [0];;;
      s <- AddRoundKey s (round_key rounds rp);;
      move a_rounds 1;;;
      ret (s, rp + 1)) (s, rp);;
  let '(s, rp) := sr in
  s <- SubBytes s;;
  s <- ShiftRows s;;
  touch a_rounds [0];;;
  s <- AddRoundKey s (round_key rounds rp);;
  SaveBytes s.

Definition AES_decrypt (rounds : list AES_state) (nrounds : Z) (cipher16 : list Z)
  : leak (list Z) :=
  let s := uninit_state in
  move a_rounds nrounds;;;
  let rp := 0 + nrounds in
  s <- LoadBytes s cipher16;;
  touch a_rounds [0];;;
  s <- AddRoundKey s (round_key rounds rp);;
  move a_rounds (-1);;;
  let rp := rp - 1 in
  sr <- for_range 1 nrounds (fun round '(s, rp) =>
      s <- InvShiftRows s;;
      s <- InvSubBytes s;;
      touch a_rounds [0];;;
      s <- AddRoundKey s (round_key rounds rp);;
      move a_rounds (-1);;;
      let rp := rp - 1 in
      s <- InvMixColumns s;;
      ret (s, rp)) (s, rp);;
  let '(s, rp) := sr in
  s <- InvShiftRows s;;
  s <- InvSubBytes s;;
  touch a_rounds [0];;;
  s <- AddRoundKey s (round_key rounds rp);;
  SaveBytes s.

(** ** Per-variant API *)

Definition AES128_init (key16 : list Z) : leak AES128_ctx := AES_setup key16 4 10.
Definition AES128_encrypt (ctx : AES128_ctx) (plain16 : list Z) : leak (list Z) :=
  AES_encrypt ctx 10 plain16.
Definition AES128_decrypt (ctx : AES128_ctx) (cipher16 : list Z) : leak (list Z) :=
  AES_decrypt ctx 10 cipher16.

Definition AES192_init (key24 : list Z) : leak AES192_ctx := AES_setup key24 6 12.
Definition AES192_encrypt (ctx : AES192_ctx) (plain16 : list Z) : leak (list Z) :=
  AES_encrypt ctx 12 plain16.
Definition AES192_decrypt (ctx : AES192_ctx) (cipher16 : list Z) : leak (list Z) :=
  AES_decrypt ctx 12 cipher16.

Definition AES256_init (key32 : list Z) : leak AES256_ctx := AES_setup key32 8 14.
Definition AES256_encrypt (ctx : AES256_ctx) (plain16 : list Z) : leak (list Z) :=
  AES_encrypt ctx 14 plain16.
Definition AES256_decrypt (ctx : AES256_ctx) (cipher16 : list Z) : leak (list Z) :=
  AES_decrypt ctx 14 cipher16.

End Leakage.

(** * What an execution of the file with the merged S-box reveals

    The instrumented translation of the second source file.  It has local
    arrays of its own ([w] in [LoadBytes], [a01] ... [a02] in [MixColumns]
    and [InvMixColumns]) and two tests of the flag [inv] in [SubBytes]; the
    functions whose text is that of [ctaes.c] are taken from [Leakage]. *)
Module MergedLeakage.

Inductive array : Type :=
| shared (a : Leakage.array)   (* an array that [ctaes.c] has too *)
| a_w                          (* [w[4]] of [LoadBytes] *)
| a_a01 | a_a12 | a_a123 | a_a0123 | a_a02.   (* the locals of the column mixes *)

Inductive event : Type :=
| Branch (taken : bool)
| Index (a : array) (i : Z)
| Move (a : array) (d : Z).

Definition leak (A : Type) : Type := (A * list event)%type.

Definition ret {A : Type} (a : A) : leak A := (a, []).

Definition bind {A B : Type} (m : leak A) (k : A -> leak B) : leak B :=
  let '(a, t) := m in
  let '(b, t') := k a in
  (b, t ++ t').

Notation "x <- m ;; k" := (bind m (fun x => k))
  (at level 61, m at next level, right associativity).
Notation "m ;;; k" := (bind m (fun _ => k))
  (at level 61, right associativity).

Definition result {A : Type} (m : leak A) : A := fst m.
Definition leakage {A : Type} (m : leak A) : list event := snd m.

Definition branch (b : bool) : leak bool := (b, [Branch b]).
Definition at_ (a : array) (i : Z) : leak Z := (i, [Index a i]).
Definition touch (a : array) (l : list Z) : leak unit := (tt, map (Index a) l).
Definition move (a : array) (d : Z) : leak unit := (tt, [Move a d]).

Fixpoint loop {A : Type} (fuel : nat) (i hi : Z) (body : Z -> A -> leak A) (a : A) : leak A :=
  match fuel with
  | O => ret a
  | S fuel' =>
      c <- branch (i <? hi);;
      if c then a' <- body i a;; loop fuel' (i + 1) hi body a'
      else ret a
  end.

Definition for_range {A : Type} (lo hi : Z) (body : Z -> A -> leak A) (a : A) : leak A :=
  loop (S (Z.to_nat (hi - lo))) lo hi body a.

(** A function whose text is the same in both files reveals the same. *)
Definition of_ctaes (e : Leakage.event) : event :=
  match e with
  | Leakage.Branch b => Branch b
  | Leakage.Index a i => Index (shared a) i
  | Leakage.Move a d => Move (shared a) d
  end.

Definition same_text {A : Type} (m : Leakage.leak A) : leak A :=
  (Leakage.result m, map of_ctaes (Leakage.leakage m)).

Definition LoadBytes (s : AES_state) (data16 : list Z) : leak AES_state :=
  let w := uninit_array 4 in
  wd <- for_range 0 4 (fun i '(w, data16) =>
      touch (shared Leakage.a_data16) [0; 1; 2; 3];;;
      j <- at_ a_w i;;
      let w := upd w j (u32 (idx data16 0 << 24 .| idx data16 1 << 16
                             .| idx data16 2 << 8 .| idx data16 3)) in
      move (shared Leakage.a_data16) 4;;;
      let data16 := skipn 4 data16 in
      ret (w, data16)) (w, data16);;
  let '(w, data16) := wd in
  touch a_w [0; 1; 2; 3];;;
  same_text (Leakage.LoadWords s (idx w 0) (idx w 1) (idx w 2) (idx w 3)).

(** [SubBytes(s, inv)]: eight reads of [s->slice], the first [if (inv)],
    gates on locals, the second [if (inv)] and eight writes. *)
Definition SubBytes (s : AES_state) (inv : Z) : leak AES_state :=
  touch (shared Leakage.a_slice) [7; 6; 5; 4; 3; 2; 1; 0];;;
  branch (truthy inv);;;
  branch (truthy inv);;;
  let s := Merged.SubBytes s inv in
  touch (shared Leakage.a_slice) [7; 6; 5; 4; 3; 2; 1; 0];;;
  ret s.

Definition SubWord (x : Z) : leak Z :=
  let s := uninit_state in
  let r := 0 in
  s <- same_text (Leakage.SubWord_pack x s);;
  s <- SubBytes s 0;;
  same_text (Leakage.SubWord_unpack s r).

(** [MixColumns]: the loop fills [a01] and [a123] at subscript [i]; the
    eight assignments after it read them and write [s->slice] at literal
    subscripts. *)
Definition MixColumns (s : AES_state) : leak AES_state :=
  for_range 0 8 (fun i (_ : unit) =>
    j <- at_ (shared Leakage.a_slice) i;;
    j <- at_ a_a01 i;;
    j <- at_ a_a01 i;;
    j <- at_ a_a123 i;;
    ret tt) tt;;;
  touch a_a01 [7];;; touch a_a123 [0];;; touch (shared Leakage.a_slice) [0];;;
  touch a_a01 [7; 0];;; touch a_a123 [1];;; touch (shared Leakage.a_slice) [1];;;
  touch a_a01 [1];;; touch a_a123 [2];;; touch (shared Leakage.a_slice) [2];;;
  touch a_a01 [7; 2];;; touch a_a123 [3];;; touch (shared Leakage.a_slice) [3];;;
  touch a_a01 [7; 3];;; touch a_a123 [4];;; touch (shared Leakage.a_slice) [4];;;
  touch a_a01 [4];;; touch a_a123 [5];;; touch (shared Leakage.a_slice) [5];;;
  touch a_a01 [5];;; touch a_a123 [6];;; touch (shared Leakage.a_slice) [6];;;
  touch a_a01 [6];;; touch a_a123 [7];;; touch (shared Leakage.a_slice) [7];;;
  ret (Merged.MixColumns s).

(** [InvMixColumns]: the loop fills the five arrays at subscript [i]. *)
Definition InvMixColumns (s : AES_state) : leak AES_state :=
  for_range 0 8 (fun i (_ : unit) =>
    j <- at_ (shared Leakage.a_slice) i;;
    j <- at_ a_a01 i;;
    j <- at_ a_a01 i;; j <- at_ a_a12 i;;
    j <- at_ a_a12 i;; j <- at_ a_a123 i;;
    j <- at_ a_a123 i;; j <- at_ a_a0123 i;;
    j <- at_ a_a01 i;; j <- at_ a_a12 i;; j <- at_ a_a02 i;;
    ret tt) tt;;;
  touch a_a123 [0];;; touch a_a01 [7];;; touch a_a02 [6];;; touch a_a0123 [5];;;
  touch (shared Leakage.a_slice) [0];;;
  touch a_a123 [1];;; touch a_a01 [0];;; touch a_a12 [7];;; touch a_a02 [6];;;
  touch a_a0123 [5; 6];;; touch (shared Leakage.a_slice) [1];;;
  touch a_a123 [2];;; touch a_a01 [1];;; touch a_a02 [0; 7];;; touch a_a0123 [6; 7];;;
  touch (shared Leakage.a_slice) [2];;;
  touch a_a123 [3];;; touch a_a01 [2; 7];;; touch a_a02 [1; 6];;; touch a_a0123 [0; 5; 7];;;
  touch (shared Leakage.a_slice) [3];;;
  touch a_a123 [4];;; touch a_a01 [3];;; touch a_a12 [7];;; touch a_a02 [2; 6];;;
  touch a_a0123 [1; 5; 6];;; touch (shared Leakage.a_slice) [4];;;
  touch a_a123 [5];;; touch a_a01 [4];;; touch a_a02 [3; 7];;; touch a_a0123 [2; 6; 7];;;
  touch (shared Leakage.a_slice) [5];;;
  touch a_a123 [6];;; touch a_a01 [5];;; touch a_a02 [4];;; touch a_a0123 [3; 7];;;
  touch (shared Leakage.a_slice) [6];;;
  touch a_a123 [7];;; touch a_a01 [6];;; touch a_a02 [5];;; touch a_a0123 [4];;;
  touch (shared Leakage.a_slice) [7];;;
  ret (Merged.InvMixColumns s).

(** ** Key schedule *)

Definition store_round (rounds : list AES_state) (w0 w1 w2 w3 : Z) : leak (list AES_state) :=
  same_text (Leakage.store_round rounds w0 w1 w2 w3).

Definition AES_setup_expand (nkeywords : Z) (i : Z) (st : setup_state) : leak setup_state :=
  let '(mk_setup rcon rk pos key rounds) := st in
  j <- at_ (shared Leakage.a_rk) ((i + 7) .& 7);;
  let temp := idx rk j in
  c0 <- branch (pos =? 0);;
  tr <- (if c0 then
           t <- SubWord (u32 (temp << 8) .| temp >> 24);;
           let temp := u32 (t .^ u32 (rcon << 24)) in
           let rcon := u8 ((- (rcon >> 7)) .& 0x1B .^ rcon << 1) in
           ret (temp, rcon)
         else
           c1 <- branch (nkeywords >? 6);;
           c2 <- (if c1 then branch (pos =? 4) else ret false);;
           if c2 then temp <- SubWord temp;; ret (temp, rcon)
           else ret (temp, rcon));;
  let '(temp, rcon) := tr in
  let pos := pos + 1 in
  c3 <- branch (pos =? nkeywords);;
  let pos := if c3 then 0 else pos in
  j1 <- at_ (shared Leakage.a_rk) ((i + 8 - nkeywords) .& 7);;
  j2 <- at_ (shared Leakage.a_rk) (i .& 7);;
  let rk := upd rk j2 (u32 (idx rk j1 .^ temp)) in
  c4 <- branch ((i .& 3) =? 3);;
  rounds <- (if c4 then
               k0 <- at_ (shared Leakage.a_rk) ((i + 5) .& 7);;
               k1 <- at_ (shared Leakage.a_rk) ((i + 6) .& 7);;
               k2 <- at_ (shared Leakage.a_rk) ((i + 7) .& 7);;
               k3 <- at_ (shared Leakage.a_rk) (i .& 7);;
               store_round rounds (idx rk k0) (idx rk k1) (idx rk k2) (idx rk k3)
             else ret rounds);;
  ret (mk_setup rcon rk pos key rounds).

Definition AES_setup (key : list Z) (nkeywords nrounds : Z) : leak (list AES_state) :=
  let rcon := 0x01 in
  let rk := uninit_array 8 in
  let pos := 0 in
  let st := mk_setup rcon rk pos key [] in
  st <- for_range 0 nkeywords (fun i st => same_text (Leakage.AES_setup_load i st)) st;;
  st <- for_range nkeywords (4 * (nrounds + 1)) (AES_setup_expand nkeywords) st;;
  ret (st_rounds st).

(** ** Round drivers *)

Definition AES_encrypt (rounds : list AES_state) (nrounds : Z) (plain16 : list Z)
  : leak (list Z) :=
  let s := uninit_state in
  let rp := 0 in
  s <- LoadBytes s plain16;;
  touch (shared Leakage.a_rounds) [0];;;
  s <- same_text (Leakage.AddRoundKey s (round_key rounds rp));;
  move (shared Leakage.a_rounds) 1;;;
  let rp := rp + 1 in
  sr <- for_range 1 nrounds (fun round '(s, rp) =>
      s <- SubBytes s 0;;
      s <- same_text (Leakage.ShiftRows s);;
      s <- MixColumns s;;
      touch (shared Leakage.a_rounds) [0];;;
      s <- same_text (Leakage.AddRoundKey s (round_key rounds rp));;
      move (shared Leakage.a_rounds) 1;;;
      ret (s, rp + 1)) (s, rp);;
  let '(s, rp) := sr in
  s <- SubBytes s 0;;
  s <- same_text (Leakage.ShiftRows s);;
  touch (shared Leakage.a_rounds) [0];;;
  s <- same_text (Leakage.AddRoundKey s (round_key rounds rp));;
  same_text (Leakage.SaveBytes s).

Definition AES_decrypt (rounds : list AES_state) (nrounds : Z) (cipher16 : list Z)
  : leak (list Z) :=
  let s := uninit_state in
  move (shared Leakage.a_rounds) nrounds;;;
  let rp := 0 + nrounds in
  s <- LoadBytes s cipher16;;
  touch (shared Leakage.a_rounds) [0];;;
  s <- same_text (Leakage.AddRoundKey s (round_key rounds rp));;
  move (shared Leakage.a_rounds) (-1);;;
  let rp := rp - 1 in
  sr <- for_range 1 nrounds (fun round '(s, rp) =>
      s <- same_text (Leakage.InvShiftRows s);;
      s <- SubBytes s 1;;
      touch (shared Leakage.a_rounds) [0];;;
      s <- same_text (Leakage.AddRoundKey s (round_key rounds rp));;
      move (shared Leakage.a_rounds) (-1);;;
      let rp := rp - 1 in
      s <- InvMixColumns s;;
      ret (s, rp)) (s, rp);;
  let '(s, rp) := sr in
  s <- same_text (Leakage.InvShiftRows s);;
  s <- SubBytes s 1;;
  touch (shared Leakage.a_rounds) [0];;;
  s <- same_text (Leakage.AddRoundKey s (round_key rounds rp));;
  same_text (Leakage.SaveBytes s).

(** ** Per-variant API *)

Definition AES128_init (key16 : list Z) : leak AES128_ctx := AES_setup key16 4 10.
Definition AES128_encrypt (ctx : AES128_ctx) (plain16 : list Z) : leak (list Z) :=
  AES_encrypt ctx 10 plain16.
Definition AES128_decrypt (ctx : AES128_ctx) (cipher16 : list Z) : leak (list Z) :=
  AES_decrypt ctx 10 cipher16.

Definition AES192_init (key24 : list Z) : leak AES192_ctx := AES_setup key24 6 12.
Definition AES192_encrypt (ctx : AES192_ctx) (plain16 : list Z) : leak (list Z) :=
  AES_encrypt ctx 12 plain16.
Definition AES192_decrypt (ctx : AES192_ctx) (cipher16 : list Z) : leak (list Z) :=
  AES_decrypt ctx 12 cipher16.

Definition AES256_init (key32 : list Z) : leak AES256_ctx := AES_setup key32 8 14.
Definition AES256_encrypt (ctx : AES256_ctx) (plain16 : list Z) : leak (list Z) :=
  AES_encrypt ctx 14 plain16.
Definition AES256_decrypt (ctx : AES256_ctx) (cipher16 : list Z) : leak (list Z) :=
  AES_decrypt ctx 14 cipher16.

End MergedLeakage.

(** * Reference definitions: AES as FIPS-197 states it

    The specification points to FIPS-197 for what the layers must compute.
    These definitions follow the standard's text, on plain bytes, and are
    what the bit-sliced code is compared with. *)

(** Multiplication by [x] in GF(2^8) modulo [x^8 + x^4 + x^3 + x + 1]
    (FIPS-197 4.2.1): shift left, and reduce by [0x11b] when bit 7 was set. *)
Definition fips_xtime (b : Z) : Z :=
  if Z.testbit b 7 then Z.lxor (b * 2) 0x11b else b * 2.

(** Multiplication in GF(2^8) (FIPS-197 4.2): [a * b] is the sum of the
    multiples [x^i * b] for the bits [i] set in [a]. *)
Fixpoint fips_mul_bits (n : nat) (a b : Z) : Z :=
  match n with
  | O => 0
  | S n' => Z.lxor (if Z.odd a then b else 0) (fips_mul_bits n' (a / 2) (fips_xtime b))
  end.

Definition fips_mul (a b : Z) : Z := fips_mul_bits 8 a b.

(** The 256 byte values. *)
Definition all_bytes : list Z := map Z.of_nat (seq 0 256).

(** The multiplicative inverse in GF(2^8), with 0 mapped to 0 (FIPS-197 5.1.1). *)
Definition fips_inv (a : Z) : Z :=
  match find (fun b => fips_mul a b =? 1) all_bytes with
  | Some b => b
  | None => 0
  end.

(** The byte whose bit [i] is [f i]. *)
Definition byte_of_bits (f : Z -> bool) : Z :=
  fold_right (fun i acc => Z.lor (if f i then 2 ^ i else 0) acc) 0 [0; 1; 2; 3; 4; 5; 6; 7].

(** The affine transformation of the S-box (FIPS-197 equation 5.1):
    [b'_i = b_i + b_(i+4) + b_(i+5) + b_(i+6) + b_(i+7) + c_i] with [c = 0x63]. *)
Definition fips_affine (b : Z) : Z :=
  byte_of_bits (fun i =>
    xorb (Z.testbit b i)
      (xorb (Z.testbit b ((i + 4) mod 8))
         (xorb (Z.testbit b ((i + 5) mod 8))
            (xorb (Z.testbit b ((i + 6) mod 8))
               (xorb (Z.testbit b ((i + 7) mod 8)) (Z.testbit 0x63 i)))))).

(** The inverse of the affine transformation (FIPS-197 5.3.2):
    [b'_i = b_(i+2) + b_(i+5) + b_(i+7) + d_i] with [d = 0x05]. *)
Definition fips_inv_affine (b : Z) : Z :=
  byte_of_bits (fun i =>
    xorb (Z.testbit b ((i + 2) mod 8))
      (xorb (Z.testbit b ((i + 5) mod 8))
         (xorb (Z.testbit b ((i + 7) mod 8)) (Z.testbit 0x05 i)))).

(** The S-box: inverse in GF(2^8), then the affine map. *)
Definition fips_sbox (a : Z) : Z := fips_affine (fips_inv a).

(** The inverse S-box: inverse affine map, then inverse in GF(2^8). *)
Definition fips_inv_sbox (a : Z) : Z := fips_inv (fips_inv_affine a).

(** MixColumns on one column (FIPS-197 5.1.3), top byte of the result:
    the column [a0 a1 a2 a3] read downwards from the row computed. *)
Definition fips_mix_byte (a0 a1 a2 a3 : Z) : Z :=
  Z.lxor (Z.lxor (Z.lxor (fips_mul 0x02 a0) (fips_mul 0x03 a1)) a2) a3.

(** InvMixColumns on one column (FIPS-197 5.3.3). *)
Definition fips_inv_mix_byte (a0 a1 a2 a3 : Z) : Z :=
  Z.lxor (Z.lxor (Z.lxor (fips_mul 0x0e a0) (fips_mul 0x0b a1)) (fips_mul 0x0d a2))
         (fips_mul 0x09 a3).

(** The identity the specification states for MixColumns:
    [02*a0 + (02*a1 + a1) + a2 + a3]. *)
Definition spec_mix_byte (a0 a1 a2 a3 : Z) : Z :=
  Z.lxor (Z.lxor (Z.lxor (fips_mul 0x02 a0) (Z.lxor (fips_mul 0x02 a1) a1)) a2) a3.

(** The decomposition the specification states for InvMixColumns:
    [08*(a0+a1+a2+a3) + 04*(a0+a2) + 02*(a0+a1) + 01*(a1+a2+a3)]. *)
Definition spec_inv_mix_byte (a0 a1 a2 a3 : Z) : Z :=
  Z.lxor (Z.lxor (Z.lxor (fips_mul 0x08 (Z.lxor (Z.lxor (Z.lxor a0 a1) a2) a3))
                         (fips_mul 0x04 (Z.lxor a0 a2)))
                 (fips_mul 0x02 (Z.lxor a0 a1)))
         (fips_mul 0x01 (Z.lxor (Z.lxor a1 a2) a3)).

(** The S-box as the table of FIPS-197 Figure 7. *)
Definition fips_sbox_table : list Z :=
  [0x63; 0x7c; 0x77; 0x7b; 0xf2; 0x6b; 0x6f; 0xc5; 0x30; 0x01; 0x67; 0x2b; 0xfe; 0xd7; 0xab; 0x76;
   0xca; 0x82; 0xc9; 0x7d; 0xfa; 0x59; 0x47; 0xf0; 0xad; 0xd4; 0xa2; 0xaf; 0x9c; 0xa4; 0x72; 0xc0;
   0xb7; 0xfd; 0x93; 0x26; 0x36; 0x3f; 0xf7; 0xcc; 0x34; 0xa5; 0xe5; 0xf1; 0x71; 0xd8; 0x31; 0x15;
   0x04; 0xc7; 0x23; 0xc3; 0x18; 0x96; 0x05; 0x9a; 0x07; 0x12; 0x80; 0xe2; 0xeb; 0x27; 0xb2; 0x75;
   0x09; 0x83; 0x2c; 0x1a; 0x1b; 0x6e; 0x5a; 0xa0; 0x52; 0x3b; 0xd6; 0xb3; 0x29; 0xe3; 0x2f; 0x84;
   0x53; 0xd1; 0x00; 0xed; 0x20; 0xfc; 0xb1; 0x5b; 0x6a; 0xcb; 0xbe; 0x39; 0x4a; 0x4c; 0x58; 0xcf;
   0xd0; 0xef; 0xaa; 0xfb; 0x43; 0x4d; 0x33; 0x85; 0x45; 0xf9; 0x02; 0x7f; 0x50; 0x3c; 0x9f; 0xa8;
   0x51; 0xa3; 0x40; 0x8f; 0x92; 0x9d; 0x38; 0xf5; 0xbc; 0xb6; 0xda; 0x21; 0x10; 0xff; 0xf3; 0xd2;
   0xcd; 0x0c; 0x13; 0xec; 0x5f; 0x97; 0x44; 0x17; 0xc4; 0xa7; 0x7e; 0x3d; 0x64; 0x5d; 0x19; 0x73;
   0x60; 0x81; 0x4f; 0xdc; 0x22; 0x2a; 0x90; 0x88; 0x46; 0xee; 0xb8; 0x14; 0xde; 0x5e; 0x0b; 0xdb;
   0xe0; 0x32; 0x3a; 0x0a; 0x49; 0x06; 0x24; 0x5c; 0xc2; 0xd3; 0xac; 0x62; 0x91; 0x95; 0xe4; 0x79;
   0xe7; 0xc8; 0x37; 0x6d; 0x8d; 0xd5; 0x4e; 0xa9; 0x6c; 0x56; 0xf4; 0xea; 0x65; 0x7a; 0xae; 0x08;
   0xba; 0x78; 0x25; 0x2e; 0x1c; 0xa6; 0xb4; 0xc6; 0xe8; 0xdd; 0x74; 0x1f; 0x4b; 0xbd; 0x8b; 0x8a;
   0x70; 0x3e; 0xb5; 0x66; 0x48; 0x03; 0xf6; 0x0e; 0x61; 0x35; 0x57; 0xb9; 0x86; 0xc1; 0x1d; 0x9e;
   0xe1; 0xf8; 0x98; 0x11; 0x69; 0xd9; 0x8e; 0x94; 0x9b; 0x1e; 0x87; 0xe9; 0xce; 0x55; 0x28; 0xdf;
   0x8c; 0xa1; 0x89; 0x0d; 0xbf; 0xe6; 0x42; 0x68; 0x41; 0x99; 0x2d; 0x0f; 0xb0; 0x54; 0xbb; 0x16].

(** The inverse S-box as the table of FIPS-197 Figure 14. *)
Definition fips_inv_sbox_table : list Z :=
  [0x52; 0x09; 0x6a; 0xd5; 0x30; 0x36; 0xa5; 0x38; 0xbf; 0x40; 0xa3; 0x9e; 0x81; 0xf3; 0xd7; 0xfb;
   0x7c; 0xe3; 0x39; 0x82; 0x9b; 0x2f; 0xff; 0x87; 0x34; 0x8e; 0x43; 0x44; 0xc4; 0xde; 0xe9; 0xcb;
   0x54; 0x7b; 0x94; 0x32; 0xa6; 0xc2; 0x23; 0x3d; 0xee; 0x4c; 0x95; 0x0b; 0x42; 0xfa; 0xc3; 0x4e;
   0x08; 0x2e; 0xa1; 0x66; 0x28; 0xd9; 0x24; 0xb2; 0x76; 0x5b; 0xa2; 0x49; 0x6d; 0x8b; 0xd1; 0x25;
   0x72; 0xf8; 0xf6; 0x64; 0x86; 0x68; 0x98; 0x16; 0xd4; 0xa4; 0x5c; 0xcc; 0x5d; 0x65; 0xb6; 0x92;
   0x6c; 0x70; 0x48; 0x50; 0xfd; 0xed; 0xb9; 0xda; 0x5e; 0x15; 0x46; 0x57; 0xa7; 0x8d; 0x9d; 0x84;
   0x90; 0xd8; 0xab; 0x00; 0x8c; 0xbc; 0xd3; 0x0a; 0xf7; 0xe4; 0x58; 0x05; 0xb8; 0xb3; 0x45; 0x06;
   0xd0; 0x2c; 0x1e; 0x8f; 0xca; 0x3f; 0x0f; 0x02; 0xc1; 0xaf; 0xbd; 0x03; 0x01; 0x13; 0x8a; 0x6b;
   0x3a; 0x91; 0x11; 0x41; 0x4f; 0x67; 0xdc; 0xea; 0x97; 0xf2; 0xcf; 0xce; 0xf0; 0xb4; 0xe6; 0x73;
   0x96; 0xac; 0x74; 0x22; 0xe7; 0xad; 0x35; 0x85; 0xe2; 0xf9; 0x37; 0xe8; 0x1c; 0x75; 0xdf; 0x6e;
   0x47; 0xf1; 0x1a; 0x71; 0x1d; 0x29; 0xc5; 0x89; 0x6f; 0xb7; 0x62; 0x0e; 0xaa; 0x18; 0xbe; 0x1b;
   0xfc; 0x56; 0x3e; 0x4b; 0xc6; 0xd2; 0x79; 0x20; 0x9a; 0xdb; 0xc0; 0xfe; 0x78; 0xcd; 0x5a; 0xf4;
   0x1f; 0xdd; 0xa8; 0x33; 0x88; 0x07; 0xc7; 0x31; 0xb1; 0x12; 0x10; 0x59; 0x27; 0x80; 0xec; 0x5f;
   0x60; 0x51; 0x7f; 0xa9; 0x19; 0xb5; 0x4a; 0x0d; 0x2d; 0xe5; 0x7a; 0x9f; 0x93; 0xc9; 0x9c; 0xef;
   0xa0; 0xe0; 0x3b; 0x4d; 0xae; 0x2a; 0xf5; 0xb0; 0xc8; 0xeb; 0xbb; 0x3c; 0x83; 0x53; 0x99; 0x61;
   0x17; 0x2b; 0x04; 0x7e; 0xba; 0x77; 0xd6; 0x26; 0xe1; 0x69; 0x14; 0x63; 0x55; 0x21; 0x0c; 0x7d].


(** ** The key expansion (FIPS-197 5.2) *)

(** Four bytes read as a big-endian 32-bit word. *)
Definition fips_be_word (b0 b1 b2 b3 : Z) : Z :=
  b0 * 2 ^ 24 + b1 * 2 ^ 16 + b2 * 2 ^ 8 + b3.

(** [RotWord]: the 32-bit word rotated left by 8 bits. *)
Definition fips_RotWord (w : Z) : Z := (w * 2 ^ 8) mod 2 ^ 32 + w / 2 ^ 24.

(** [SubWord]: the S-box applied to each of the four bytes of a word. *)
Definition fips_SubWord (w : Z) : Z :=
  fips_be_word (fips_sbox (w / 2 ^ 24 mod 256)) (fips_sbox (w / 2 ^ 16 mod 256))
               (fips_sbox (w / 2 ^ 8 mod 256)) (fips_sbox (w mod 256)).

(** [Rcon[j]] for [j >= 1]: [x^(j-1)] in GF(2^8); it starts at [0x01] and
    advances by multiplication by [x]. *)
Fixpoint fips_rcon_pow (n : nat) : Z :=
  match n with
  | O => 0x01
  | S n' => fips_xtime (fips_rcon_pow n')
  end.

Definition fips_rcon (j : Z) : Z := fips_rcon_pow (Z.to_nat (j - 1)).

(** Word [i >= Nk] of the schedule from the words [w] before it. *)
Definition fips_next_word (nk : Z) (w : list Z) (i : Z) : Z :=
  let temp := idx w (i - 1) in
  let temp :=
    if i mod nk =? 0 then Z.lxor (fips_SubWord (fips_RotWord temp)) (fips_rcon (i / nk) * 2 ^ 24)
    else if (nk >? 6) && (i mod nk =? 4) then fips_SubWord temp
    else temp in
  Z.lxor (idx w (i - nk)) temp.

(** The first [n] words of the schedule of [key]. *)
Fixpoint fips_key_words (nk : Z) (key : list Z) (n : nat) : list Z :=
  match n with
  | O => []
  | S n' =>
      let w := fips_key_words nk key n' in
      let i := Z.of_nat n' in
      w ++ [if i <? nk
            then fips_be_word (idx key (4 * i)) (idx key (4 * i + 1))
                              (idx key (4 * i + 2)) (idx key (4 * i + 3))
            else fips_next_word nk w i]
  end.

(** Round key [r] in bit-sliced form: [LoadWords] of words [4r..4r+3]. *)
Definition fips_round_key (w : list Z) (r : nat) : AES_state :=
  let i := 4 * Z.of_nat r in
  LoadWords uninit_state (idx w i) (idx w (i + 1)) (idx w (i + 2)) (idx w (i + 3)).

(** The whole schedule: round keys [0..Nr]. *)
Definition fips_round_keys (nk nr : Z) (key : list Z) : list AES_state :=
  map (fips_round_key (fips_key_words nk key (Z.to_nat (4 * (nr + 1)))))
      (seq 0 (Z.to_nat (nr + 1))).

(** * Definitions used to state and prove the properties *)

Definition wf_state (s : AES_state) : Prop :=
  (0 <= slice0 s < 65536 /\ 0 <= slice1 s < 65536 /\
   0 <= slice2 s < 65536 /\ 0 <= slice3 s < 65536) /\
  (0 <= slice4 s < 65536 /\ 0 <= slice5 s < 65536 /\
   0 <= slice6 s < 65536 /\ 0 <= slice7 s < 65536).

Definition is_byte (b : Z) : Prop := 0 <= b < 256.

(** Lane [p] of [s] holds the same byte as lane [q] of [s']. *)
Definition lane_eq (p q : Z) (s s' : AES_state) : Prop :=
  forall i, 0 <= i < 8 -> Z.testbit (slice s i) p = Z.testbit (slice s' i) q.

(** The state that holds byte [x] in lane 0 (and zero elsewhere). *)
Definition lane0_state (x : Z) : AES_state := LoadBytes uninit_state [x].

(** Byte [j] of a word, least significant first. *)
Definition word_byte (x j : Z) : Z := x >> (8 * j) .& 0xFF.

Fixpoint zrange (start : Z) (n : nat) : list Z :=
  match n with
  | O => []
  | S n' => start :: zrange (start + 1) n'
  end.

(** The 65536 values of a slice word. *)
Definition all_words : list Z := zrange 0 (Z.to_nat 65536).

(** What [ShiftRows] and [InvShiftRows] store in each slice. *)
Definition ShiftRows_word (v : Z) : Z :=
  v .& 0xF .| (v .& 0x10) << 3 .| (v .& 0xE0) >> 1 .| (v .& 0x300) << 2
  .| (v .& 0xC00) >> 2 .| (v .& 0x7000) << 1 .| (v .& 0x8000) >> 3.

Definition InvShiftRows_word (v : Z) : Z :=
  v .& 0xF .| (v .& 0x70) << 1 .| (v .& 0x80) >> 3 .| (v .& 0x300) << 2
  .| (v .& 0xC00) >> 2 .| (v .& 0x1000) << 3 .| (v .& 0xE000) >> 1.

(** Position [p] moved down [k] rows (row indices modulo 4). *)
Definition rowrot (p k : Z) : Z := (p + 4 * k) mod 16.

(** The gate list of [MixColumns] on single bits: [b j k] is the bit of
    slice [j] found [k] rows below the position looked at. *)
Definition MixColumns_bits (b : Z -> Z -> bool) (i : Z) : bool :=
  let a01 j := xorb (b j 0) (b j 1) in
  let a123 j := xorb (xorb (b j 1) (b j 2)) (b j 3) in
  match i with
  | 0 => xorb (a01 7) (a123 0)
  | 1 => xorb (xorb (a01 7) (a01 0)) (a123 1)
  | 2 => xorb (a01 1) (a123 2)
  | 3 => xorb (xorb (a01 7) (a01 2)) (a123 3)
  | 4 => xorb (xorb (a01 7) (a01 3)) (a123 4)
  | 5 => xorb (a01 4) (a123 5)
  | 6 => xorb (a01 5) (a123 6)
  | _ => xorb (a01 6) (a123 7)
  end.

(** The gate list of [InvMixColumns] on single bits. *)
Definition InvMixColumns_bits (b : Z -> Z -> bool) (i : Z) : bool :=
  let a01 j := xorb (b j 0) (b j 1) in
  let a12 j := xorb (b j 1) (b j 2) in
  let a123 j := xorb (a12 j) (b j 3) in
  let a0123 j := xorb (b j 0) (a123 j) in
  let a02 j := xorb (a01 j) (a12 j) in
  let x := xorb in
  match i with
  | 0 => x (x (x (a123 0) (a01 7)) (a02 6)) (a0123 5)
  | 1 => x (x (x (x (x (a123 1) (a01 0)) (a12 7)) (a02 6)) (a0123 5)) (a0123 6)
  | 2 => x (x (x (x (x (a123 2) (a01 1)) (a02 0)) (a02 7)) (a0123 6)) (a0123 7)
  | 3 => x (x (x (x (x (x (x (a123 3) (a01 2)) (a01 7)) (a02 1)) (a02 6)) (a0123 0)) (a0123 5)) (a0123 7)
  | 4 => x (x (x (x (x (x (x (a123 4) (a01 3)) (a12 7)) (a02 2)) (a02 6)) (a0123 1)) (a0123 5)) (a0123 6)
  | 5 => x (x (x (x (x (x (a123 5) (a01 4)) (a02 3)) (a02 7)) (a0123 2)) (a0123 6)) (a0123 7)
  | 6 => x (x (x (x (a123 6) (a01 5)) (a02 4)) (a0123 3)) (a0123 7)
  | _ => x (x (x (a123 7) (a01 6)) (a02 5)) (a0123 4)
  end.

(** The bits of [s] seen from position [p]. *)
Definition bits_from (s : AES_state) (p : Z) : Z -> Z -> bool :=
  fun j k => Z.testbit (slice s j) (rowrot p k).

(** Byte [k] of a column, counted down from the row computed. *)
Definition column_byte (a0 a1 a2 a3 : Z) (k : Z) : Z :=
  match k with 0 => a0 | 1 => a1 | 2 => a2 | _ => a3 end.

(** The decoded byte at row [r], column [c] of a bit-sliced state. *)
Definition cell (s : AES_state) (r c : Z) : Z := SaveBytes_byte s (r * 4 + c).

(** One iteration of the loop of [AES_encrypt] and of [AES_decrypt]. *)
Definition encrypt_round (rounds : list AES_state) (round : Z) (st : AES_state * Z) :=
  let '(s, rp) := st in
  (AddRoundKey (MixColumns (ShiftRows (SubBytes s))) (round_key rounds rp), rp + 1).

Definition decrypt_round (rounds : list AES_state) (round : Z) (st : AES_state * Z) :=
  let '(s, rp) := st in
  (InvMixColumns (AddRoundKey (InvSubBytes (InvShiftRows s)) (round_key rounds rp)), rp - 1).

Definition is_word (w : Z) : Prop := 0 <= w < 4294967296.

(** All the words of the standard's schedule for a key, and word [j] of it. *)
Definition fips_schedule (nk nr : Z) (key : list Z) : list Z :=
  fips_key_words nk key (Z.to_nat (4 * (nr + 1))).

Definition fips_schedule_word (nk nr : Z) (key : list Z) (j : Z) : Z :=
  idx (fips_schedule nk nr key) j.

(** The state of the first loop of [AES_setup] with [i] words loaded. *)
Definition setup_load_inv (nk nr : Z) (key : list Z) (i : Z) (st : setup_state) : Prop :=
  length (st_rk st) = 8%nat /\
  (forall j, 0 <= j < i -> idx (st_rk st) j = fips_schedule_word nk nr key j) /\
  st_rounds st = map (fips_round_key (fips_schedule nk nr key)) (seq 0 (Z.to_nat (i / 4))) /\
  st_pos st = 0 /\ st_rcon st = 1 /\
  st_key st = skipn (Z.to_nat (4 * i)) key.

(** The state of the second loop of [AES_setup] with [i] words generated. *)
Definition setup_expand_inv (nk nr : Z) (key : list Z) (i : Z) (st : setup_state) : Prop :=
  length (st_rk st) = 8%nat /\
  (forall j, 0 <= j < i -> i - 8 <= j ->
     idx (st_rk st) (j mod 8) = fips_schedule_word nk nr key j) /\
  st_rounds st = map (fips_round_key (fips_schedule nk nr key)) (seq 0 (Z.to_nat (i / 4))) /\
  st_pos st = i mod nk /\ st_rcon st = fips_rcon ((i + nk - 1) / nk).

(** The plaintext of appendix C, shared by the three example vectors. *)
Definition kat_plain : list Z :=
  [0x00; 0x11; 0x22; 0x33; 0x44; 0x55; 0x66; 0x77;
   0x88; 0x99; 0xaa; 0xbb; 0xcc; 0xdd; 0xee; 0xff].

(** Appendix C.1: the AES-128 key and ciphertext. *)
Definition kat128_key : list Z :=
  [0x00; 0x01; 0x02; 0x03; 0x04; 0x05; 0x06; 0x07;
   0x08; 0x09; 0x0a; 0x0b; 0x0c; 0x0d; 0x0e; 0x0f].

Definition kat128_cipher : list Z :=
  [0x69; 0xc4; 0xe0; 0xd8; 0x6a; 0x7b; 0x04; 0x30;
   0xd8; 0xcd; 0xb7; 0x80; 0x70; 0xb4; 0xc5; 0x5a].

(** Appendix C.2: the AES-192 key and ciphertext. *)
Definition kat192_key : list Z :=
  [0x00; 0x01; 0x02; 0x03; 0x04; 0x05; 0x06; 0x07;
   0x08; 0x09; 0x0a; 0x0b; 0x0c; 0x0d; 0x0e; 0x0f;
   0x10; 0x11; 0x12; 0x13; 0x14; 0x15; 0x16; 0x17].

Definition kat192_cipher : list Z :=
  [0xdd; 0xa9; 0x7c; 0xa4; 0x86; 0x4c; 0xdf; 0xe0;
   0x6e; 0xaf; 0x70; 0xa0; 0xec; 0x0d; 0x71; 0x91].

(** Appendix C.3: the AES-256 key and ciphertext. *)
Definition kat256_key : list Z :=
  [0x00; 0x01; 0x02; 0x03; 0x04; 0x05; 0x06; 0x07;
   0x08; 0x09; 0x0a; 0x0b; 0x0c; 0x0d; 0x0e; 0x0f;
   0x10; 0x11; 0x12; 0x13; 0x14; 0x15; 0x16; 0x17;
   0x18; 0x19; 0x1a; 0x1b; 0x1c; 0x1d; 0x1e; 0x1f].

Definition kat256_cipher : list Z :=
  [0x8e; 0xa2; 0xb7; 0xca; 0x51; 0x67; 0x45; 0xbf;
   0xea; 0xfc; 0x49; 0x90; 0x4b; 0x49; 0x60; 0x89].

(** Appendix B: the cipher example. *)
Definition katB_key : list Z :=
  [0x2b; 0x7e; 0x15; 0x16; 0x28; 0xae; 0xd2; 0xa6;
   0xab; 0xf7; 0x15; 0x88; 0x09; 0xcf; 0x4f; 0x3c].

Definition katB_plain : list Z :=
  [0x32; 0x43; 0xf6; 0xa8; 0x88; 0x5a; 0x30; 0x8d;
   0x31; 0x31; 0x98; 0xa2; 0xe0; 0x37; 0x07; 0x34].

Definition katB_cipher : list Z :=
  [0x39; 0x25; 0x84; 0x1d; 0x02; 0xdc; 0x09; 0xfb;
   0xdc; 0x11; 0x85; 0x97; 0x19; 0x6a; 0x0b; 0x32].

(** Two instrumented computations reveal the same, and their results are
    related by [R] (what of the results may steer what is revealed later). *)
Definition leak_equiv {A : Type} (R : A -> A -> Prop) (m m' : Leakage.leak A) : Prop :=
  Leakage.leakage m = Leakage.leakage m' /\ R (Leakage.result m) (Leakage.result m').

(** Results that are never looked at by a condition or a subscript. *)
Definition unconstrained {A : Type} (a a' : A) : Prop := True.

(** Of the loop state of [AES_setup] only [pos] reaches a condition. *)
Definition same_pos (st st' : setup_state) : Prop := st_pos st = st_pos st'.

(** The block whose byte at row [r], column [c] is [f r c], in the order of
    the input and output arrays: [in[r + 4c] = s[r, c]] (FIPS-197 3.4). *)
Definition fips_block (f : Z -> Z -> Z) : list Z :=
  [f 0 0; f 1 0; f 2 0; f 3 0; f 0 1; f 1 1; f 2 1; f 3 1;
   f 0 2; f 1 2; f 2 2; f 3 2; f 0 3; f 1 3; f 2 3; f 3 3].

Definition fips_at (B : list Z) (r c : Z) : Z := idx B (r + 4 * c).

(** SubBytes, ShiftRows, MixColumns and AddRoundKey (FIPS-197 5.1.1 to 5.1.4). *)
Definition fips_SubBytes (B : list Z) : list Z :=
  fips_block (fun r c => fips_sbox (fips_at B r c)).

Definition fips_ShiftRows (B : list Z) : list Z :=
  fips_block (fun r c => fips_at B r ((c + r) mod 4)).

Definition fips_MixColumns (B : list Z) : list Z :=
  fips_block (fun r c =>
    fips_mix_byte (fips_at B r c) (fips_at B ((r + 1) mod 4) c)
                  (fips_at B ((r + 2) mod 4) c) (fips_at B ((r + 3) mod 4) c)).

Definition fips_AddRoundKey (B K : list Z) : list Z :=
  fips_block (fun r c => Z.lxor (fips_at B r c) (fips_at K r c)).

(** InvSubBytes, InvShiftRows and InvMixColumns (FIPS-197 5.3.1 to 5.3.3). *)
Definition fips_InvSubBytes (B : list Z) : list Z :=
  fips_block (fun r c => fips_inv_sbox (fips_at B r c)).

Definition fips_InvShiftRows (B : list Z) : list Z :=
  fips_block (fun r c => fips_at B r ((c - r) mod 4)).

Definition fips_InvMixColumns (B : list Z) : list Z :=
  fips_block (fun r c =>
    fips_inv_mix_byte (fips_at B r c) (fips_at B ((r + 1) mod 4) c)
                      (fips_at B ((r + 2) mod 4) c) (fips_at B ((r + 3) mod 4) c)).

(** Round key [round] as a block: column [c] is word [4 round + c] of the
    schedule, most significant byte in row 0. *)
Definition fips_round_key_block (w : list Z) (round : Z) : list Z :=
  fips_block (fun r c => idx w (4 * round + c) / 2 ^ (8 * (3 - r)) mod 256).

(** [n] full rounds, the first with round key [round]. *)
Fixpoint fips_rounds (n : nat) (round : Z) (w : list Z) (B : list Z) : list Z :=
  match n with
  | O => B
  | S n' =>
      fips_rounds n' (round + 1) w
        (fips_AddRoundKey (fips_MixColumns (fips_ShiftRows (fips_SubBytes B)))
                          (fips_round_key_block w round))
  end.

(** [Cipher] (FIPS-197 figure 5) under the key schedule [w]. *)
Definition fips_Cipher (nr : Z) (w : list Z) (B : list Z) : list Z :=
  let B := fips_AddRoundKey B (fips_round_key_block w 0) in
  let B := fips_rounds (Z.to_nat (nr - 1)) 1 w B in
  fips_AddRoundKey (fips_ShiftRows (fips_SubBytes B)) (fips_round_key_block w nr).

(** [n] full inverse rounds, the first with round key [round], going down. *)
Fixpoint fips_inv_rounds (n : nat) (round : Z) (w : list Z) (B : list Z) : list Z :=
  match n with
  | O => B
  | S n' =>
      fips_inv_rounds n' (round - 1) w
        (fips_InvMixColumns
           (fips_AddRoundKey (fips_InvSubBytes (fips_InvShiftRows B))
                             (fips_round_key_block w round)))
  end.

(** [InvCipher] (FIPS-197 figure 12) under the key schedule [w]. *)
Definition fips_InvCipher (nr : Z) (w : list Z) (B : list Z) : list Z :=
  let B := fips_AddRoundKey B (fips_round_key_block w nr) in
  let B := fips_inv_rounds (Z.to_nat (nr - 1)) (nr - 1) w B in
  fips_AddRoundKey (fips_InvSubBytes (fips_InvShiftRows B)) (fips_round_key_block w 0).

Definition array_eqb (a b : Leakage.array) : bool :=
  match a, b with
  | Leakage.a_slice, Leakage.a_slice | Leakage.a_round, Leakage.a_round
  | Leakage.a_rk, Leakage.a_rk | Leakage.a_key, Leakage.a_key
  | Leakage.a_data16, Leakage.a_data16 | Leakage.a_rounds, Leakage.a_rounds => true
  | _, _ => false
  end.

(** The accesses of a run as offsets from where each pointer stood at the
    start: a subscript counts from where the pointer stands, and a move
    shifts what follows. *)
Fixpoint accesses (off : Leakage.array -> Z) (t : list Leakage.event)
  : list (Leakage.array * Z) :=
  match t with
  | [] => []
  | Leakage.Branch _ :: t' => accesses off t'
  | Leakage.Index a i :: t' => (a, off a + i) :: accesses off t'
  | Leakage.Move a d :: t' =>
      accesses (fun b => if array_eqb a b then off b + d else off b) t'
  end.

(** The offsets at which a run accesses array [a], in order. *)
Definition accessed {A : Type} (a : Leakage.array) (m : Leakage.leak A) : list Z :=
  map snd (filter (fun x => array_eqb a (fst x)) (accesses (fun _ => 0) (Leakage.leakage m))).

(** Every offset of a list is one of [0 .. n-1]. *)
Definition below (n : Z) (l : list Z) : bool := forallb (fun i => (0 <=? i) && (i <? n)) l.

(** * Bit-level facts about machine integers *)

Lemma u8_range z : 0 <= u8 z < 256.
Proof. unfold u8. apply Z.mod_pos_bound. lia. Qed.

Lemma u16_range z : 0 <= u16 z < 65536.
Proof. unfold u16. apply Z.mod_pos_bound. lia. Qed.

Lemma u32_range z : 0 <= u32 z < 4294967296.
Proof. unfold u32. apply Z.mod_pos_bound. lia. Qed.

Lemma u8_small z : 0 <= z < 256 -> u8 z = z.
Proof. apply Z.mod_small. Qed.

Lemma u16_small z : 0 <= z < 65536 -> u16 z = z.
Proof. apply Z.mod_small. Qed.

Lemma u32_small z : 0 <= z < 4294967296 -> u32 z = z.
Proof. apply Z.mod_small. Qed.

Lemma testbit_u8 z p : Z.testbit (u8 z) p = (p <? 8) && Z.testbit z p.
Proof. unfold u8. change 256 with (2 ^ 8). apply Z.testbit_mod_pow2. lia. Qed.

Lemma testbit_u16 z p : Z.testbit (u16 z) p = (p <? 16) && Z.testbit z p.
Proof. unfold u16. change 65536 with (2 ^ 16). apply Z.testbit_mod_pow2. lia. Qed.

Lemma testbit_u32 z p : Z.testbit (u32 z) p = (p <? 32) && Z.testbit z p.
Proof. unfold u32. change 4294967296 with (2 ^ 32). apply Z.testbit_mod_pow2. lia. Qed.

Lemma testbit_u16_low z p : p < 16 -> Z.testbit (u16 z) p = Z.testbit z p.
Proof. intros H. rewrite testbit_u16. apply Z.ltb_lt in H. now rewrite H. Qed.

(** A value below [2^n] has no bit at or above [n]. *)
Lemma testbit_high n z p : 0 <= n -> 0 <= z < 2 ^ n -> n <= p -> Z.testbit z p = false.
Proof.
  intros Hn Hz Hp. rewrite <- (Z.mod_small z (2 ^ n)) by assumption.
  apply Z.mod_pow2_bits_high. lia.
Qed.

(** Two values below [2^n] with the same low [n] bits are equal. *)
Lemma bits_ext n a b :
  0 <= n -> 0 <= a < 2 ^ n -> 0 <= b < 2 ^ n ->
  (forall p, 0 <= p < n -> Z.testbit a p = Z.testbit b p) -> a = b.
Proof.
  intros Hn Ha Hb H. apply Z.bits_inj'. intros p Hp.
  destruct (Z.lt_ge_cases p n) as [Hlt | Hge].
  - apply H. lia.
  - now rewrite (testbit_high n a p), (testbit_high n b p).
Qed.

Lemma testbit_1 p : Z.testbit 1 p = (p =? 0).
Proof.
  destruct p as [ | p | p ]; reflexivity.
Qed.

Lemma bit_cases_8 (P : Z -> Prop) :
  P 0 -> P 1 -> P 2 -> P 3 -> P 4 -> P 5 -> P 6 -> P 7 ->
  forall i, 0 <= i < 8 -> P i.
Proof.
  intros ? ? ? ? ? ? ? ? i Hi.
  assert (i = 0 \/ i = 1 \/ i = 2 \/ i = 3 \/ i = 4 \/ i = 5 \/ i = 6 \/ i = 7) as K by lia.
  repeat (destruct K as [-> | K]; [assumption | ]). now subst.
Qed.

Lemma bit_cases_4 (P : Z -> Prop) :
  P 0 -> P 1 -> P 2 -> P 3 -> forall i, 0 <= i < 4 -> P i.
Proof.
  intros ? ? ? ? i Hi.
  assert (i = 0 \/ i = 1 \/ i = 2 \/ i = 3) as K by lia.
  repeat (destruct K as [-> | K]; [assumption | ]). now subst.
Qed.

Lemma bit_cases_16 (P : Z -> Prop) :
  (forall r, 0 <= r < 4 -> forall c, 0 <= c < 4 -> P (r * 4 + c)) ->
  forall p, 0 <= p < 16 -> P p.
Proof.
  intros H p Hp.
  replace p with ((p / 4) * 4 + p mod 4) by (pose proof (Z.div_mod p 4); lia).
  apply H.
  - split; [apply Z.div_pos; lia | apply Z.div_lt_upper_bound; lia].
  - apply Z.mod_pos_bound. lia.
Qed.

Ltac enum_cases K x :=
  repeat (destruct K as [K | K]; [ subst x | ]); [ .. | subst x ].
Ltac enum4 x :=
  let K := fresh "K" in
  assert (x = 0 \/ x = 1 \/ x = 2 \/ x = 3) as K by lia; enum_cases K x.
Ltac enum8 x :=
  let K := fresh "K" in
  assert (x = 0 \/ x = 1 \/ x = 2 \/ x = 3 \/ x = 4 \/ x = 5 \/ x = 6 \/ x = 7) as K by lia;
  enum_cases K x.

(** Unrolling of the loops with constant bounds. *)
Lemma for_range_0_8 {A} (body : Z -> A -> A) a :
  for_range 0 8 body a =
  body 7 (body 6 (body 5 (body 4 (body 3 (body 2 (body 1 (body 0 a))))))).
Proof. reflexivity. Qed.

Lemma for_range_0_4 {A} (body : Z -> A -> A) a :
  for_range 0 4 body a = body 3 (body 2 (body 1 (body 0 a))).
Proof. reflexivity. Qed.

(** Evaluation of closed integer arithmetic left by bit positions. *)
Ltac is_pos_num p :=
  lazymatch p with
  | xH => idtac
  | xO ?q => is_pos_num q
  | xI ?q => is_pos_num q
  end.
Ltac is_Z_num z :=
  lazymatch z with
  | Z0 => idtac
  | Zpos ?p => is_pos_num p
  | Zneg ?p => is_pos_num p
  end.
Ltac calc_in f a b :=
  is_Z_num a; is_Z_num b;
  let v := eval cbv in (f a b) in change (f a b) with v.
Ltac zcalc :=
  repeat match goal with
  | |- context [Z.add ?a ?b] => calc_in Z.add a b
  | |- context [Z.sub ?a ?b] => calc_in Z.sub a b
  | |- context [Z.mul ?a ?b] => calc_in Z.mul a b
  | |- context [Z.ltb ?a ?b] => calc_in Z.ltb a b
  | |- context [Z.leb ?a ?b] => calc_in Z.leb a b
  | |- context [Z.eqb ?a ?b] => calc_in Z.eqb a b
  | |- context [Z.testbit ?a ?b] => calc_in Z.testbit a b
  end.

Ltac bool_simpl :=
  rewrite ?andb_true_l, ?andb_true_r, ?andb_false_l, ?andb_false_r,
          ?orb_true_l, ?orb_true_r, ?orb_false_l, ?orb_false_r,
          ?xorb_false_l, ?xorb_false_r.

(** Pushing [Z.testbit] at a constant position through the C operators. *)
Ltac bits :=
  repeat (first
    [ rewrite testbit_u8 | rewrite testbit_u16 | rewrite testbit_u32
    | rewrite Z.lor_spec | rewrite Z.land_spec | rewrite Z.lxor_spec
    | rewrite Z.shiftl_spec by lia | rewrite Z.shiftr_spec by lia
    | rewrite Z.lnot_spec by lia
    | rewrite Z.testbit_0_l
    | rewrite Z.testbit_neg_r by lia
    | progress zcalc | progress bool_simpl ]).

Lemma testbit_shl a n m : Z.testbit (a << n) m = (0 <=? m) && Z.testbit a (m - n).
Proof.
  destruct (Z.leb_spec 0 m) as [H | H].
  - now rewrite Z.shiftl_spec.
  - now rewrite Z.testbit_neg_r.
Qed.

Lemma testbit_shr a n m : Z.testbit (a >> n) m = (0 <=? m) && Z.testbit a (m + n).
Proof.
  destruct (Z.leb_spec 0 m) as [H | H].
  - now rewrite Z.shiftr_spec.
  - now rewrite Z.testbit_neg_r.
Qed.

Lemma testbit_lnot a m : Z.testbit (Z.lnot a) m = (0 <=? m) && negb (Z.testbit a m).
Proof.
  destruct (Z.leb_spec 0 m) as [H | H].
  - now rewrite Z.lnot_spec.
  - now rewrite Z.testbit_neg_r.
Qed.

Ltac push_bits :=
  repeat (progress rewrite ?testbit_u8, ?testbit_u16, ?testbit_u32,
            ?Z.lor_spec, ?Z.land_spec, ?Z.lxor_spec,
            ?testbit_shl, ?testbit_shr, ?testbit_lnot).

Ltac norm_positions :=
  repeat match goal with
  | |- context [Z.testbit ?x ?k] =>
      tryif is_Z_num k then fail else
      (let k' := eval cbv in k in
       is_Z_num k'; change (Z.testbit x k) with (Z.testbit x k'))
  end.

Ltac abstract_bits :=
  norm_positions;
  repeat match goal with
  | |- context [Z.testbit ?x ?k] =>
      tryif is_Z_num x then fail else
      lazymatch k with
      | Zneg _ => rewrite (Z.testbit_neg_r x k) by reflexivity
      | _ => generalize (Z.testbit x k); intro
      end
  end.

Ltac solve_bits :=
  abstract_bits; cbv - [xorb andb orb negb]; repeat (progress bool_simpl); btauto.
Ltac bits_auto := push_bits; solve_bits.

Lemma testbit_2 m : Z.testbit 2 m = (m =? 1).
Proof. change 2 with (2 ^ 1). rewrite Z.pow2_bits_eqb by lia. apply Z.eqb_sym. Qed.

Lemma testbit_4 m : Z.testbit 4 m = (m =? 2).
Proof. change 4 with (2 ^ 2). rewrite Z.pow2_bits_eqb by lia. apply Z.eqb_sym. Qed.

Lemma testbit_8 m : Z.testbit 8 m = (m =? 3).
Proof. change 8 with (2 ^ 3). rewrite Z.pow2_bits_eqb by lia. apply Z.eqb_sym. Qed.

(** * The bit-slice codec *)

Lemma LoadWords_bits_bit pos v s i p :
  0 <= i < 8 -> 0 <= p -> 0 <= pos ->
  Z.testbit (slice (LoadWords_bits pos v s) i) p =
  (p <? 16) && (Z.testbit (slice s i) p || ((p =? pos) && Z.testbit v i)).
Proof.
  intros Hi Hp Hpos. revert i Hi. destruct s as [a0 a1 a2 a3 a4 a5 a6 a7].
  unfold LoadWords_bits. rewrite for_range_0_8.
  cbv beta iota delta [snd set_slice slice slice0 slice1 slice2 slice3 slice4 slice5 slice6 slice7].
  apply bit_cases_8; cbv beta iota zeta;
    rewrite testbit_u16, Z.lor_spec, Z.shiftl_spec, Z.land_spec, testbit_1 by assumption;
    (destruct (Z.eqb_spec p pos) as [-> | Hne];
     [ rewrite Z.sub_diag, Z.eqb_refl; bits; reflexivity
     | replace (p - pos =? 0) with false by (symmetry; apply Z.eqb_neq; lia);
       bool_simpl; reflexivity ]).
Qed.

Lemma slice_uninit i : slice uninit_state i = 0.
Proof.
  destruct i as [ | p | p ]; try reflexivity.
  do 3 (destruct p as [ p | p | ]; try reflexivity).
Qed.

Lemma LoadWords_bits_wf pos v s : wf_state (LoadWords_bits pos v s).
Proof.
  destruct s as [a0 a1 a2 a3 a4 a5 a6 a7].
  unfold LoadWords_bits. rewrite for_range_0_8.
  cbv beta iota zeta delta [snd set_slice slice slice0 slice1 slice2 slice3 slice4 slice5 slice6 slice7 wf_state].
  repeat split; apply u16_range.
Qed.

Lemma LoadWords_column_unfold c w s :
  LoadWords_column c w s =
  LoadWords_bits (3 * 4 + c) (u8 (u32 (u32 (u32 (w << 8) << 8) << 8) >> 24))
    (LoadWords_bits (2 * 4 + c) (u8 (u32 (u32 (w << 8) << 8) >> 24))
       (LoadWords_bits (1 * 4 + c) (u8 (u32 (w << 8) >> 24))
          (LoadWords_bits (0 * 4 + c) (u8 (w >> 24)) s))).
Proof. reflexivity. Qed.

Lemma LoadWords_column_wf c w s : wf_state (LoadWords_column c w s).
Proof. rewrite LoadWords_column_unfold. apply LoadWords_bits_wf. Qed.

Lemma LoadWords_column_bit c w s i p :
  0 <= c < 4 -> 0 <= i < 8 -> 0 <= p ->
  Z.testbit (slice (LoadWords_column c w s) i) p =
  (p <? 16) && (Z.testbit (slice s i) p
                || (p =? 0 + c) && Z.testbit w (24 + i)
                || (p =? 4 + c) && Z.testbit w (16 + i)
                || (p =? 8 + c) && Z.testbit w (8 + i)
                || (p =? 12 + c) && Z.testbit w (0 + i)).
Proof.
  intros Hc Hi Hp. rewrite LoadWords_column_unfold.
  rewrite !LoadWords_bits_bit by lia.
  revert i Hi. apply bit_cases_8; bits; btauto.
Qed.

Lemma LoadWords_unfold s w0 w1 w2 w3 :
  LoadWords s w0 w1 w2 w3 =
  LoadWords_column 3 w3 (LoadWords_column 2 w2
    (LoadWords_column 1 w1 (LoadWords_column 0 w0 uninit_state))).
Proof. destruct s. reflexivity. Qed.

Lemma LoadWords_wf s w0 w1 w2 w3 : wf_state (LoadWords s w0 w1 w2 w3).
Proof. rewrite LoadWords_unfold. apply LoadWords_column_wf. Qed.

(** Bit [i] of row [r] of column word [c] lands at position [4r+c] of slice [i]. *)
Lemma LoadWords_bit s w0 w1 w2 w3 i r c :
  0 <= i < 8 -> 0 <= r < 4 -> 0 <= c < 4 ->
  Z.testbit (slice (LoadWords s w0 w1 w2 w3) i) (r * 4 + c) =
  Z.testbit (idx [w0; w1; w2; w3] c) (8 * (3 - r) + i).
Proof.
  intros Hi Hr Hc. rewrite LoadWords_unfold.
  rewrite !LoadWords_column_bit by lia. rewrite slice_uninit.
  enum4 r; enum4 c;
    cbv beta iota delta [idx nth Z.to_nat Pos.to_nat Pos.iter_op Nat.add]; bits; reflexivity.
Qed.

Lemma SaveBytes_unfold s :
  SaveBytes s =
  [SaveBytes_byte s 0; SaveBytes_byte s 4; SaveBytes_byte s 8; SaveBytes_byte s 12;
   SaveBytes_byte s 1; SaveBytes_byte s 5; SaveBytes_byte s 9; SaveBytes_byte s 13;
   SaveBytes_byte s 2; SaveBytes_byte s 6; SaveBytes_byte s 10; SaveBytes_byte s 14;
   SaveBytes_byte s 3; SaveBytes_byte s 7; SaveBytes_byte s 11; SaveBytes_byte s 15].
Proof. reflexivity. Qed.

Lemma SaveBytes_byte_range s p : 0 <= SaveBytes_byte s p < 256.
Proof. unfold SaveBytes_byte. rewrite for_range_0_8. apply u8_range. Qed.

(** Bit [i] of the byte saved from position [p] is bit [p] of slice [i]. *)
Lemma SaveBytes_byte_bit s p i :
  0 <= i < 8 -> 0 <= p ->
  Z.testbit (SaveBytes_byte s p) i = Z.testbit (slice s i) p.
Proof.
  intros Hi Hp. unfold SaveBytes_byte. rewrite for_range_0_8.
  enum8 i; bits; rewrite Z.add_0_l; reflexivity.
Qed.

Lemma Forall_bytes_idx data i : Forall is_byte data -> is_byte (idx data i).
Proof.
  intros H. unfold idx. generalize (Z.to_nat i) as n. induction H as [ | b l Hb Hl IH ].
  - intros [ | n ]; cbn; unfold is_byte; lia.
  - intros [ | n ]; cbn; [ assumption | apply IH ].
Qed.

Lemma idx_skipn data k i :
  0 <= i -> idx (skipn k data) i = idx data (Z.of_nat k + i).
Proof.
  intros Hi. unfold idx.
  replace (Z.to_nat (Z.of_nat k + i)) with (k + Z.to_nat i)%nat by lia.
  generalize (Z.to_nat i) as n. revert data.
  induction k as [ | k IH ]; intros data n; [ reflexivity | ].
  destruct data as [ | b data ]; cbn [skipn].
  - destruct n, k; reflexivity.
  - apply IH.
Qed.

(** The big-endian word of four bytes holds byte [k] in bits [8(3-k)..]. *)
Lemma be_word_bit b0 b1 b2 b3 k i :
  is_byte b0 -> is_byte b1 -> is_byte b2 -> is_byte b3 ->
  0 <= k < 4 -> 0 <= i < 8 ->
  Z.testbit (u32 (b0 << 24 .| b1 << 16 .| b2 << 8 .| b3)) (8 * (3 - k) + i) =
  Z.testbit (idx [b0; b1; b2; b3] k) i.
Proof.
  unfold is_byte. intros H0 H1 H2 H3 Hk Hi.
  rewrite <- (u8_small b0), <- (u8_small b1), <- (u8_small b2), <- (u8_small b3) by assumption.
  enum4 k; enum8 i; cbv beta iota delta [idx nth Z.to_nat Pos.to_nat Pos.iter_op Nat.add];
    bits; reflexivity.
Qed.

Lemma idx_4 w0 w1 w2 w3 :
  idx [w0; w1; w2; w3] 0 = w0 /\ idx [w0; w1; w2; w3] 1 = w1 /\
  idx [w0; w1; w2; w3] 2 = w2 /\ idx [w0; w1; w2; w3] 3 = w3.
Proof. repeat split. Qed.

Lemma LoadBytes_wf s data : wf_state (LoadBytes s data).
Proof. unfold LoadBytes. cbv zeta. apply LoadWords_wf. Qed.

(** Bit [i] of input byte [4c+r] lands at position [4r+c] of slice [i]. *)
Lemma LoadBytes_bit s data i r c :
  Forall is_byte data -> 0 <= i < 8 -> 0 <= r < 4 -> 0 <= c < 4 ->
  Z.testbit (slice (LoadBytes s data) i) (r * 4 + c) = Z.testbit (idx data (4 * c + r)) i.
Proof.
  intros Hd Hi Hr Hc. unfold LoadBytes. cbv zeta. rewrite LoadWords_bit by assumption.
  rewrite !idx_skipn by lia.
  pose proof (fun k => Forall_bytes_idx data k Hd) as Hb.
  assert (forall x0 x1 x2 x3 k, 0 <= k < 4 ->
            idx [idx data x0; idx data x1; idx data x2; idx data x3] k
            = idx data (idx [x0; x1; x2; x3] k)) as Hsel
    by (intros x0 x1 x2 x3 k Hk; enum4 k; reflexivity).
  destruct (idx_4 (u32 (idx data 0 << 24 .| idx data 1 << 16 .| idx data 2 << 8 .| idx data 3))
                  (u32 (idx data (Z.of_nat 4 + 0) << 24 .| idx data (Z.of_nat 4 + 1) << 16
                        .| idx data (Z.of_nat 4 + 2) << 8 .| idx data (Z.of_nat 4 + 3)))
                  (u32 (idx data (Z.of_nat 4 + (Z.of_nat 4 + 0)) << 24
                        .| idx data (Z.of_nat 4 + (Z.of_nat 4 + 1)) << 16
                        .| idx data (Z.of_nat 4 + (Z.of_nat 4 + 2)) << 8
                        .| idx data (Z.of_nat 4 + (Z.of_nat 4 + 3))))
                  (u32 (idx data (Z.of_nat 4 + (Z.of_nat 4 + (Z.of_nat 4 + 0))) << 24
                        .| idx data (Z.of_nat 4 + (Z.of_nat 4 + (Z.of_nat 4 + 1))) << 16
                        .| idx data (Z.of_nat 4 + (Z.of_nat 4 + (Z.of_nat 4 + 2))) << 8
                        .| idx data (Z.of_nat 4 + (Z.of_nat 4 + (Z.of_nat 4 + 3))))))
    as (E0 & E1 & E2 & E3).
  enum4 c; rewrite ?E0, ?E1, ?E2, ?E3; rewrite be_word_bit by auto;
    rewrite Hsel by assumption; enum4 r; reflexivity.
Qed.

Lemma SaveBytes_byte_LoadBytes s data r c :
  Forall is_byte data -> 0 <= r < 4 -> 0 <= c < 4 ->
  SaveBytes_byte (LoadBytes s data) (r * 4 + c) = idx data (4 * c + r).
Proof.
  intros Hd Hr Hc. apply (bits_ext 8); try lia.
  - apply SaveBytes_byte_range.
  - apply Forall_bytes_idx, Hd.
  - intros i Hi. rewrite SaveBytes_byte_bit by lia. now apply LoadBytes_bit.
Qed.

Lemma state_ext s s' :
  wf_state s -> wf_state s' ->
  (forall i p, 0 <= i < 8 -> 0 <= p < 16 ->
     Z.testbit (slice s i) p = Z.testbit (slice s' i) p) ->
  s = s'.
Proof.
  destruct s as [a0 a1 a2 a3 a4 a5 a6 a7], s' as [b0 b1 b2 b3 b4 b5 b6 b7].
  unfold wf_state. cbn [slice0 slice1 slice2 slice3 slice4 slice5 slice6 slice7].
  intros ((A0 & A1 & A2 & A3) & A4 & A5 & A6 & A7) ((B0 & B1 & B2 & B3) & B4 & B5 & B6 & B7) H.
  f_equal; apply (bits_ext 16); try assumption; try lia; intros p Hp.
  - apply (H 0); lia.
  - apply (H 1); lia.
  - apply (H 2); lia.
  - apply (H 3); lia.
  - apply (H 4); lia.
  - apply (H 5); lia.
  - apply (H 6); lia.
  - apply (H 7); lia.
Qed.

Lemma length_16 {A} (l : list A) :
  length l = 16%nat ->
  exists b0 b1 b2 b3 b4 b5 b6 b7 b8 b9 b10 b11 b12 b13 b14 b15,
    l = [b0; b1; b2; b3; b4; b5; b6; b7; b8; b9; b10; b11; b12; b13; b14; b15].
Proof.
  intros H.
  do 16 (destruct l as [ | ? l ]; [ discriminate | ]).
  destruct l; [ | discriminate ]. repeat eexists.
Qed.

Lemma SaveBytes_byte_LoadBytes_pos s data p :
  Forall is_byte data -> 0 <= p < 16 ->
  SaveBytes_byte (LoadBytes s data) p = idx data (4 * (p mod 4) + p / 4).
Proof.
  intros Hd. revert p. apply bit_cases_16. intros r Hr c Hc.
  rewrite SaveBytes_byte_LoadBytes by assumption.
  enum4 r; enum4 c; reflexivity.
Qed.

Lemma SaveBytes_LoadBytes s data :
  length data = 16%nat -> Forall is_byte data -> SaveBytes (LoadBytes s data) = data.
Proof.
  intros Hlen Hd. rewrite SaveBytes_unfold.
  rewrite !SaveBytes_byte_LoadBytes_pos by (assumption || lia).
  destruct (length_16 data Hlen) as (b0 & b1 & b2 & b3 & b4 & b5 & b6 & b7 & b8 & b9
    & b10 & b11 & b12 & b13 & b14 & b15 & ->).
  reflexivity.
Qed.

Lemma SaveBytes_bytes s : Forall is_byte (SaveBytes s).
Proof.
  rewrite SaveBytes_unfold. repeat constructor; apply SaveBytes_byte_range.
Qed.

Lemma idx_SaveBytes s r c :
  0 <= r < 4 -> 0 <= c < 4 -> idx (SaveBytes s) (4 * c + r) = SaveBytes_byte s (r * 4 + c).
Proof. intros Hr Hc. rewrite SaveBytes_unfold. enum4 r; enum4 c; reflexivity. Qed.

Lemma LoadBytes_SaveBytes s0 s : wf_state s -> LoadBytes s0 (SaveBytes s) = s.
Proof.
  intros Hwf. apply state_ext; [ apply LoadBytes_wf | assumption | ].
  intros i p Hi Hp. revert p Hp. apply bit_cases_16. intros r Hr c Hc.
  rewrite LoadBytes_bit by (assumption || apply SaveBytes_bytes).
  rewrite idx_SaveBytes by assumption. apply SaveBytes_byte_bit; lia.
Qed.

(** C8: the bit-slice codec round-trips.  For every block [B] of 16 bytes,
    [LoadBytes] places bit [i] of the byte at input index [4c+r] at bit
    position [4r+c] of slice word [i], whatever the state held before, and
    [SaveBytes] of the loaded state gives [B] back. *)
Theorem codec_round_trip (s : AES_state) (B : list Z) :
  length B = 16%nat -> Forall is_byte B ->
  (forall r c i, 0 <= r < 4 -> 0 <= c < 4 -> 0 <= i < 8 ->
     Z.testbit (slice (LoadBytes s B) i) (4 * r + c) = Z.testbit (idx B (4 * c + r)) i) /\
  SaveBytes (LoadBytes s B) = B.
Proof.
  intros Hlen HB. split.
  - intros r c i Hr Hc Hi. rewrite (Z.mul_comm 4 r). now apply LoadBytes_bit.
  - now apply SaveBytes_LoadBytes.
Qed.

(** * Exhaustive checks over the 256 byte values *)

Lemma all_bytes_In x : 0 <= x < 256 -> In x all_bytes.
Proof.
  intros Hx. unfold all_bytes. apply in_map_iff. exists (Z.to_nat x). split; [ lia | ].
  apply in_seq. lia.
Qed.

Lemma forall_bytes (P : Z -> bool) :
  forallb P all_bytes = true -> forall x, 0 <= x < 256 -> P x = true.
Proof.
  intros H x Hx. rewrite forallb_forall in H. apply H, all_bytes_In, Hx.
Qed.

(** * The S-box network acts lane by lane *)

Lemma lane_eq_cell p q s s' :
  0 <= p -> 0 <= q -> lane_eq p q s s' -> SaveBytes_byte s p = SaveBytes_byte s' q.
Proof.
  intros Hp Hq H. apply (bits_ext 8); try lia; try apply SaveBytes_byte_range.
  intros i Hi. rewrite !SaveBytes_byte_bit by lia. now apply H.
Qed.

Section Lanes.
Variables p q : Z.
Hypothesis Hp : 0 <= p < 16.
Hypothesis Hq : 0 <= q < 16.

Lemma let_lane (e e' : Z) (b b' : Z -> AES_state) :
  Z.testbit e p = Z.testbit e' q ->
  (forall v v', Z.testbit v p = Z.testbit v' q -> lane_eq p q (b v) (b' v')) ->
  lane_eq p q (let x := e in b x) (let x := e' in b' x).
Proof. intros H K. cbv zeta. apply K, H. Qed.

(** One gate: the bit of the result from the bits of the operands. *)
Ltac gate :=
  rewrite ?testbit_u16_low by lia;
  rewrite ?Z.lxor_spec, ?Z.land_spec, ?Z.lor_spec;
  rewrite ?Z.lnot_spec by lia;
  rewrite ?Z.lxor_spec, ?Z.land_spec, ?Z.lor_spec;
  congruence.

Ltac gate_step :=
  lazymatch goal with
  | |- lane_eq _ _ (let x := ?e in @?b x) (let y := ?e' in @?b' y) =>
      refine (let_lane e e' b b' _ _); [ gate | intros ? ? ?; cbv beta ]
  end.

Ltac lanes_of H :=
  pose proof (H 0 ltac:(lia)); pose proof (H 1 ltac:(lia));
  pose proof (H 2 ltac:(lia)); pose proof (H 3 ltac:(lia));
  pose proof (H 4 ltac:(lia)); pose proof (H 5 ltac:(lia));
  pose proof (H 6 ltac:(lia)); pose proof (H 7 ltac:(lia)); clear H;
  cbv beta iota delta [slice slice0 slice1 slice2 slice3 slice4 slice5 slice6 slice7] in *.

Ltac lane_circuit :=
  repeat gate_step; cbv zeta; cbv beta iota delta [set_slice];
  intros i Hi; enum8 i;
  cbv beta iota delta [slice slice0 slice1 slice2 slice3 slice4 slice5 slice6 slice7];
  gate.

Lemma SubBytes_lane s s' : lane_eq p q s s' -> lane_eq p q (SubBytes s) (SubBytes s').
Proof.
  destruct s as [a0 a1 a2 a3 a4 a5 a6 a7], s' as [b0 b1 b2 b3 b4 b5 b6 b7].
  intros H. lanes_of H. cbv beta iota delta [SubBytes].
  cbv beta iota delta [slice slice0 slice1 slice2 slice3 slice4 slice5 slice6 slice7].
  lane_circuit.
Qed.

Lemma InvSubBytes_lane s s' : lane_eq p q s s' -> lane_eq p q (InvSubBytes s) (InvSubBytes s').
Proof.
  destruct s as [a0 a1 a2 a3 a4 a5 a6 a7], s' as [b0 b1 b2 b3 b4 b5 b6 b7].
  intros H. lanes_of H. cbv beta iota delta [InvSubBytes].
  cbv beta iota delta [slice slice0 slice1 slice2 slice3 slice4 slice5 slice6 slice7].
  lane_circuit.
Qed.
End Lanes.

Lemma lane0_state_eq s p :
  0 <= p -> lane_eq p 0 s (lane0_state (SaveBytes_byte s p)).
Proof.
  intros Hp i Hi. unfold lane0_state.
  rewrite (LoadBytes_bit _ _ i 0 0); try lia.
  - symmetry. apply SaveBytes_byte_bit; lia.
  - constructor; [ apply SaveBytes_byte_range | constructor ].
Qed.

Lemma SubBytes_lane0 x :
  0 <= x < 256 -> SaveBytes_byte (SubBytes (lane0_state x)) 0 = fips_sbox x.
Proof.
  intros Hx. apply Z.eqb_eq. revert x Hx.
  apply (forall_bytes (fun x => SaveBytes_byte (SubBytes (lane0_state x)) 0 =? fips_sbox x)).
  vm_compute. reflexivity.
Qed.

Lemma InvSubBytes_lane0 x :
  0 <= x < 256 -> SaveBytes_byte (InvSubBytes (lane0_state x)) 0 = fips_inv_sbox x.
Proof.
  intros Hx. apply Z.eqb_eq. revert x Hx.
  apply (forall_bytes (fun x => SaveBytes_byte (InvSubBytes (lane0_state x)) 0 =? fips_inv_sbox x)).
  vm_compute. reflexivity.
Qed.

Lemma SubBytes_cell s p :
  0 <= p < 16 -> SaveBytes_byte (SubBytes s) p = fips_sbox (SaveBytes_byte s p).
Proof.
  intros Hp. rewrite <- SubBytes_lane0 by apply SaveBytes_byte_range.
  apply lane_eq_cell; try lia. apply SubBytes_lane; try lia. apply lane0_state_eq. lia.
Qed.

Lemma InvSubBytes_cell s p :
  0 <= p < 16 -> SaveBytes_byte (InvSubBytes s) p = fips_inv_sbox (SaveBytes_byte s p).
Proof.
  intros Hp. rewrite <- InvSubBytes_lane0 by apply SaveBytes_byte_range.
  apply lane_eq_cell; try lia. apply InvSubBytes_lane; try lia. apply lane0_state_eq. lia.
Qed.

Lemma fips_sbox_table_ok x : 0 <= x < 256 -> idx fips_sbox_table x = fips_sbox x.
Proof.
  intros Hx. apply Z.eqb_eq. revert x Hx.
  apply (forall_bytes (fun x => idx fips_sbox_table x =? fips_sbox x)).
  vm_compute. reflexivity.
Qed.

Lemma fips_inv_sbox_table_ok x : 0 <= x < 256 -> idx fips_inv_sbox_table x = fips_inv_sbox x.
Proof.
  intros Hx. apply Z.eqb_eq. revert x Hx.
  apply (forall_bytes (fun x => idx fips_inv_sbox_table x =? fips_inv_sbox x)).
  vm_compute. reflexivity.
Qed.

(** C3: for every bit-sliced state [s] and every lane [j] in 0..15, the
    byte decoded from lane [j] of [SubBytes s] is the AES S-box (the inverse
    in GF(2^8) followed by the affine map, which is also the table of
    FIPS-197) of the byte decoded from lane [j] of [s]; and the byte decoded
    from lane [j] of [InvSubBytes s] is the inverse S-box of that byte. *)
Theorem SubBytes_is_sbox (s : AES_state) (j : Z) :
  0 <= j < 16 ->
  (SaveBytes_byte (SubBytes s) j = fips_sbox (SaveBytes_byte s j) /\
   SaveBytes_byte (SubBytes s) j = idx fips_sbox_table (SaveBytes_byte s j)) /\
  (SaveBytes_byte (InvSubBytes s) j = fips_inv_sbox (SaveBytes_byte s j) /\
   SaveBytes_byte (InvSubBytes s) j = idx fips_inv_sbox_table (SaveBytes_byte s j)).
Proof.
  intros Hj. pose proof (SaveBytes_byte_range s j) as Hb.
  rewrite fips_sbox_table_ok, fips_inv_sbox_table_ok by assumption.
  rewrite SubBytes_cell, InvSubBytes_cell by assumption. repeat split.
Qed.

(** * Well-formedness: every store truncates to 16 bits *)

Lemma let_wf (e : Z) (b : Z -> AES_state) :
  (forall v, wf_state (b v)) -> wf_state (let x := e in b x).
Proof. intros H. apply H. Qed.

Ltac wf_step :=
  lazymatch goal with
  | |- wf_state (let x := ?e in @?b x) => refine (let_wf e b _); intros ?; cbv beta
  end.

Ltac wf_circuit :=
  repeat wf_step; cbv zeta; cbv beta iota delta [set_slice wf_state];
  cbv beta iota delta [slice0 slice1 slice2 slice3 slice4 slice5 slice6 slice7];
  repeat split; apply u16_range.

Lemma SubBytes_wf s : wf_state (SubBytes s).
Proof. destruct s as [a0 a1 a2 a3 a4 a5 a6 a7]. cbv beta iota delta [SubBytes]. wf_circuit. Qed.

Lemma InvSubBytes_wf s : wf_state (InvSubBytes s).
Proof. destruct s as [a0 a1 a2 a3 a4 a5 a6 a7]. cbv beta iota delta [InvSubBytes]. wf_circuit. Qed.

Lemma fips_inv_sbox_sbox x : 0 <= x < 256 -> fips_inv_sbox (fips_sbox x) = x.
Proof.
  intros Hx. apply Z.eqb_eq. revert x Hx.
  apply (forall_bytes (fun x => fips_inv_sbox (fips_sbox x) =? x)).
  vm_compute. reflexivity.
Qed.

Lemma InvSubBytes_SubBytes s : wf_state s -> InvSubBytes (SubBytes s) = s.
Proof.
  intros Hwf. apply state_ext; [ apply InvSubBytes_wf | assumption | ].
  intros i p Hi Hp.
  rewrite <- !SaveBytes_byte_bit by lia.
  rewrite InvSubBytes_cell, SubBytes_cell by assumption.
  rewrite fips_inv_sbox_sbox by apply SaveBytes_byte_range. reflexivity.
Qed.

(** * SubWord *)

Lemma SubWord_pack_bit x s i j :
  0 <= i < 8 -> 0 <= j < 4 ->
  Z.testbit (slice (SubWord_pack x s) i) j = Z.testbit x (8 * j + i).
Proof.
  intros Hi Hj. destruct s as [a0 a1 a2 a3 a4 a5 a6 a7].
  unfold SubWord_pack. rewrite for_range_0_8.
  cbv beta iota zeta delta [snd set_slice].
  enum8 i; cbv beta iota delta [slice slice0 slice1 slice2 slice3 slice4 slice5 slice6 slice7];
    enum4 j; bits; reflexivity.
Qed.

(** One word of [SubWord]'s second loop: positions 0..3 of [t] spread to
    bits 0, 8, 16 and 24. *)
Lemma spread_bit t m :
  Z.testbit (t .& 1 .| (t .& 2) << 7 .| (t .& 4) << 14 .| (t .& 8) << 21) m =
  (m =? 0) && Z.testbit t 0 || (m =? 8) && Z.testbit t 1
  || (m =? 16) && Z.testbit t 2 || (m =? 24) && Z.testbit t 3.
Proof.
  rewrite !Z.lor_spec, !testbit_shl, !Z.land_spec.
  rewrite testbit_1, testbit_2, testbit_4, testbit_8.
  destruct (Z.eqb_spec m 0) as [-> | H0]; [ solve_bits | ].
  destruct (Z.eqb_spec m 8) as [-> | H1]; [ solve_bits | ].
  destruct (Z.eqb_spec m 16) as [-> | H2]; [ solve_bits | ].
  destruct (Z.eqb_spec m 24) as [-> | H3]; [ solve_bits | ].
  replace (m - 7 =? 1) with false by (symmetry; apply Z.eqb_neq; lia).
  replace (m - 14 =? 2) with false by (symmetry; apply Z.eqb_neq; lia).
  replace (m - 21 =? 3) with false by (symmetry; apply Z.eqb_neq; lia).
  now rewrite !andb_false_r.
Qed.

Lemma SubWord_unpack_step r t b k :
  Z.testbit (u32 (r .| u32 ((t .& 1 .| (t .& 2) << 7 .| (t .& 4) << 14 .| (t .& 8) << 21) << b))) k =
  (k <? 32) && (Z.testbit r k
                || (0 <=? k) && ((k - b =? 0) && Z.testbit t 0 || (k - b =? 8) && Z.testbit t 1
                                 || (k - b =? 16) && Z.testbit t 2 || (k - b =? 24) && Z.testbit t 3)).
Proof.
  rewrite testbit_u32, Z.lor_spec, testbit_u32, testbit_shl, spread_bit.
  destruct (k <? 32); reflexivity.
Qed.

Lemma SubWord_unpack_bit s i j :
  0 <= i < 8 -> 0 <= j < 4 ->
  Z.testbit (SubWord_unpack s 0) (8 * j + i) = Z.testbit (slice s i) j.
Proof.
  intros Hi Hj. unfold SubWord_unpack. rewrite for_range_0_8. cbv beta zeta.
  rewrite !SubWord_unpack_step. rewrite !testbit_u32.
  enum8 i; enum4 j; solve_bits.
Qed.

Lemma SubWord_eq x : SubWord x = SubWord_unpack (SubBytes (SubWord_pack x uninit_state)) 0.
Proof. reflexivity. Qed.

Lemma SubWord_unpack_range s : 0 <= SubWord_unpack s 0 < 4294967296.
Proof. unfold SubWord_unpack. rewrite for_range_0_8. apply u32_range. Qed.

Lemma testbit_255 i : 0 <= i < 8 -> Z.testbit 255 i = true.
Proof. intros Hi. enum8 i; reflexivity. Qed.

Lemma word_byte_bit x j i :
  0 <= j -> 0 <= i < 8 -> Z.testbit (word_byte x j) i = Z.testbit x (8 * j + i).
Proof.
  intros Hj Hi. unfold word_byte.
  rewrite Z.land_spec, Z.shiftr_spec, testbit_255, andb_true_r by lia.
  f_equal. lia.
Qed.

Lemma word_byte_range x j : 0 <= word_byte x j < 256.
Proof.
  unfold word_byte. change 0xFF with (Z.ones 8). rewrite Z.land_ones by lia.
  apply Z.mod_pos_bound. lia.
Qed.

Lemma SubWord_pack_cell x s j :
  0 <= j < 4 -> SaveBytes_byte (SubWord_pack x s) j = word_byte x j.
Proof.
  intros Hj. apply (bits_ext 8); try lia.
  - apply SaveBytes_byte_range.
  - apply word_byte_range.
  - intros i Hi. rewrite SaveBytes_byte_bit, SubWord_pack_bit, word_byte_bit by lia.
    reflexivity.
Qed.

Lemma byte_of_bits_range f : 0 <= byte_of_bits f < 256.
Proof.
  unfold byte_of_bits. cbn [fold_right].
  destruct (f 0), (f 1), (f 2), (f 3), (f 4), (f 5), (f 6), (f 7); cbv; split; congruence.
Qed.

Lemma fips_sbox_range x : 0 <= fips_sbox x < 256.
Proof. apply byte_of_bits_range. Qed.

Lemma SubWord_byte x j :
  0 <= j < 4 -> word_byte (SubWord x) j = fips_sbox (word_byte x j).
Proof.
  intros Hj. rewrite <- (SubWord_pack_cell x uninit_state j Hj).
  rewrite <- SubBytes_cell by lia.
  apply (bits_ext 8); try lia.
  - apply word_byte_range.
  - apply SaveBytes_byte_range.
  - intros i Hi. rewrite word_byte_bit, SubWord_eq, SubWord_unpack_bit, SaveBytes_byte_bit by lia.
    reflexivity.
Qed.

Lemma SubWord_unpack_low s t :
  (forall i, 0 <= i < 8 -> slice s i .& 0xF = slice t i .& 0xF) ->
  SubWord_unpack s 0 = SubWord_unpack t 0.
Proof.
  intros H. apply (bits_ext 32); try lia; try apply SubWord_unpack_range.
  intros k Hk.
  replace k with (8 * (k / 8) + k mod 8) by (pose proof (Z.div_mod k 8); lia).
  assert (0 <= k / 8 < 4) as Hj
    by (split; [ apply Z.div_pos; lia | apply Z.div_lt_upper_bound; lia ]).
  assert (0 <= k mod 8 < 8) as Hi by (apply Z.mod_pos_bound; lia).
  rewrite !SubWord_unpack_bit by assumption.
  assert (forall u j, 0 <= j < 4 -> Z.testbit u j = Z.testbit (u .& 0xF) j) as Hm.
  { intros u j Hj'. rewrite Z.land_spec. enum4 j; now rewrite andb_true_r. }
  rewrite (Hm (slice s _)), (Hm (slice t _)) by assumption.
  now rewrite H.
Qed.

(** C7: for every 32-bit word [x], [SubWord x] is a 32-bit word whose byte
    [j], for each [j] in 0..3, is the AES S-box of byte [j] of [x]; and the
    second loop of [SubWord] reads only the low four bits of every slice
    word, so what [SubBytes] leaves in the twelve other lanes of the
    temporary state does not reach the result. *)
Theorem SubWord_is_sbox (x : Z) :
  0 <= SubWord x < 4294967296 /\
  (forall j, 0 <= j < 4 -> SubWord x >> (8 * j) .& 0xFF = fips_sbox (x >> (8 * j) .& 0xFF)) /\
  (forall s t, (forall i, 0 <= i < 8 -> slice s i .& 0xF = slice t i .& 0xF) ->
     SubWord_unpack s 0 = SubWord_unpack t 0).
Proof.
  split; [ rewrite SubWord_eq; apply SubWord_unpack_range | split ].
  - intros j Hj. apply (SubWord_byte x j Hj).
  - apply SubWord_unpack_low.
Qed.

(** * ShiftRows and InvShiftRows *)

Lemma in_zrange n : forall start x, start <= x < start + Z.of_nat n -> In x (zrange start n).
Proof.
  induction n as [ | n IH ]; intros start x Hx; [ lia | ].
  cbn [zrange]. destruct (Z.eq_dec x start) as [-> | Hne]; [ now left | right ].
  apply IH. lia.
Qed.

Lemma forall_words (P : Z -> bool) :
  forallb P all_words = true -> forall x, 0 <= x < 65536 -> P x = true.
Proof.
  intros H x Hx. rewrite forallb_forall in H. apply H.
  unfold all_words. apply in_zrange. lia.
Qed.

Lemma ShiftRows_unfold a0 a1 a2 a3 a4 a5 a6 a7 :
  ShiftRows (mk_state a0 a1 a2 a3 a4 a5 a6 a7) =
  mk_state (u16 (ShiftRows_word (u16 a0))) (u16 (ShiftRows_word (u16 a1)))
           (u16 (ShiftRows_word (u16 a2))) (u16 (ShiftRows_word (u16 a3)))
           (u16 (ShiftRows_word (u16 a4))) (u16 (ShiftRows_word (u16 a5)))
           (u16 (ShiftRows_word (u16 a6))) (u16 (ShiftRows_word (u16 a7))).
Proof. reflexivity. Qed.

Lemma InvShiftRows_unfold a0 a1 a2 a3 a4 a5 a6 a7 :
  InvShiftRows (mk_state a0 a1 a2 a3 a4 a5 a6 a7) =
  mk_state (u16 (InvShiftRows_word (u16 a0))) (u16 (InvShiftRows_word (u16 a1)))
           (u16 (InvShiftRows_word (u16 a2))) (u16 (InvShiftRows_word (u16 a3)))
           (u16 (InvShiftRows_word (u16 a4))) (u16 (InvShiftRows_word (u16 a5)))
           (u16 (InvShiftRows_word (u16 a6))) (u16 (InvShiftRows_word (u16 a7))).
Proof. reflexivity. Qed.

Lemma InvShiftRows_ShiftRows_word v :
  0 <= v < 65536 ->
  u16 (InvShiftRows_word (u16 (u16 (ShiftRows_word (u16 v))))) = v.
Proof.
  intros Hv. apply Z.eqb_eq. revert v Hv.
  apply (forall_words
    (fun v => u16 (InvShiftRows_word (u16 (u16 (ShiftRows_word (u16 v))))) =? v)).
  vm_compute. reflexivity.
Qed.

Lemma ShiftRows_wf s : wf_state (ShiftRows s).
Proof.
  destruct s as [a0 a1 a2 a3 a4 a5 a6 a7]. rewrite ShiftRows_unfold. unfold wf_state. cbn [slice0 slice1 slice2 slice3 slice4 slice5 slice6 slice7].
  repeat split; apply u16_range.
Qed.

Lemma InvShiftRows_wf s : wf_state (InvShiftRows s).
Proof.
  destruct s as [a0 a1 a2 a3 a4 a5 a6 a7]. rewrite InvShiftRows_unfold. unfold wf_state. cbn [slice0 slice1 slice2 slice3 slice4 slice5 slice6 slice7].
  repeat split; apply u16_range.
Qed.

Lemma InvShiftRows_ShiftRows s : wf_state s -> InvShiftRows (ShiftRows s) = s.
Proof.
  destruct s as [a0 a1 a2 a3 a4 a5 a6 a7]. unfold wf_state.
  cbn [slice0 slice1 slice2 slice3 slice4 slice5 slice6 slice7].
  intros ((A0 & A1 & A2 & A3) & A4 & A5 & A6 & A7).
  rewrite ShiftRows_unfold, InvShiftRows_unfold.
  f_equal; now apply InvShiftRows_ShiftRows_word.
Qed.

(** * MixColumns and InvMixColumns, bit by bit *)

Lemma rowrot_range p k : 0 <= rowrot p k < 16.
Proof. apply Z.mod_pos_bound. lia. Qed.

Lemma rowrot_0 p : 0 <= p < 16 -> rowrot p 0 = p.
Proof. intros H. unfold rowrot. rewrite Z.add_0_r. now apply Z.mod_small. Qed.

Lemma rowrot_rowrot p j k : rowrot (rowrot p j) k = rowrot p (j + k).
Proof.
  unfold rowrot. rewrite Zplus_mod_idemp_l. f_equal. lia.
Qed.

Lemma rowrot_mod p k : rowrot p k = rowrot p (k mod 4).
Proof.
  unfold rowrot. rewrite (Z.div_mod k 4) at 1 by lia.
  replace (p + 4 * (4 * (k / 4) + k mod 4)) with (p + 4 * (k mod 4) + (k / 4) * 16) by lia.
  apply Z.mod_add. lia.
Qed.

Lemma rowrot_cell r c k :
  0 <= r < 4 -> 0 <= c < 4 -> 0 <= k < 4 -> rowrot (r * 4 + c) k = ((r + k) mod 4) * 4 + c.
Proof. intros Hr Hc Hk. enum4 r; enum4 c; enum4 k; reflexivity. Qed.

(** [ROT(x, k)] on a 16-bit word brings the bit [k] rows below to each position. *)
Lemma ROT_bit x k p :
  0 < k < 4 -> 0 <= p < 16 -> Z.testbit (ROT (u16 x) k) p = Z.testbit x (rowrot p k).
Proof.
  intros Hk Hp. unfold ROT, rowrot.
  rewrite Z.lor_spec, Z.shiftr_spec, Z.shiftl_spec, !testbit_u16 by lia.
  destruct (Z.ltb_spec (p + 4 * k) 16) as [Hlt | Hge].
  - rewrite Z.mod_small by lia.
    rewrite (Z.testbit_neg_r x (p - (4 - k) * 4)) by lia.
    replace (p + k * 4) with (p + 4 * k) by lia.
    replace (p + 4 * k <? 16) with true by (symmetry; apply Z.ltb_lt; lia).
    now rewrite andb_false_r, orb_false_r.
  - replace ((p + 4 * k) mod 16) with (p + 4 * k - 16)
      by (apply Z.mod_unique with (q := 1); lia).
    replace (p + k * 4 <? 16) with false by (symmetry; apply Z.ltb_ge; lia).
    replace (p - (4 - k) * 4 <? 16) with true by (symmetry; apply Z.ltb_lt; lia).
    cbn [andb orb]. f_equal. lia.
Qed.

Ltac rot_bits :=
  repeat (first
    [ rewrite testbit_u16_low by apply rowrot_range
    | rewrite Z.lxor_spec
    | rewrite ROT_bit by (lia || apply rowrot_range) ]);
  rewrite ?rowrot_rowrot; cbn [Z.add Pos.add Pos.succ].

Lemma MixColumns_bit s p i :
  0 <= p < 16 -> 0 <= i < 8 ->
  Z.testbit (slice (MixColumns s) i) p = MixColumns_bits (bits_from s p) i.
Proof.
  intros Hp Hi. destruct s as [a0 a1 a2 a3 a4 a5 a6 a7].
  rewrite <- (rowrot_0 p Hp) at 1.
  cbv beta iota zeta delta [MixColumns set_slice].
  enum8 i;
    cbv beta iota zeta delta [MixColumns_bits bits_from slice slice0 slice1 slice2 slice3 slice4 slice5 slice6 slice7];
    rot_bits; reflexivity.
Qed.

Lemma InvMixColumns_bit s p i :
  0 <= p < 16 -> 0 <= i < 8 ->
  Z.testbit (slice (InvMixColumns s) i) p = InvMixColumns_bits (bits_from s p) i.
Proof.
  intros Hp Hi. destruct s as [a0 a1 a2 a3 a4 a5 a6 a7].
  rewrite <- (rowrot_0 p Hp) at 1.
  cbv beta iota zeta delta [InvMixColumns set_slice].
  enum8 i;
    cbv beta iota zeta delta [InvMixColumns_bits bits_from slice slice0 slice1 slice2 slice3 slice4 slice5 slice6 slice7];
    rot_bits; reflexivity.
Qed.

Lemma MixColumns_wf s : wf_state (MixColumns s).
Proof. destruct s as [a0 a1 a2 a3 a4 a5 a6 a7]. cbv beta iota delta [MixColumns]. wf_circuit. Qed.

Lemma InvMixColumns_wf s : wf_state (InvMixColumns s).
Proof. destruct s as [a0 a1 a2 a3 a4 a5 a6 a7]. cbv beta iota delta [InvMixColumns]. wf_circuit. Qed.

Lemma MixColumns_bits_ext b b' i :
  (forall j k, 0 <= j < 8 -> 0 <= k < 4 -> b j k = b' j k) ->
  0 <= i < 8 -> MixColumns_bits b i = MixColumns_bits b' i.
Proof.
  intros H Hi. enum8 i; cbv beta iota zeta delta [MixColumns_bits]; rewrite !H by lia; reflexivity.
Qed.

Lemma InvMixColumns_bits_ext b b' i :
  (forall j k, 0 <= j < 8 -> 0 <= k < 4 -> b j k = b' j k) ->
  0 <= i < 8 -> InvMixColumns_bits b i = InvMixColumns_bits b' i.
Proof.
  intros H Hi. enum8 i; cbv beta iota zeta delta [InvMixColumns_bits]; rewrite !H by lia; reflexivity.
Qed.

(** The two gate lists cancel, whatever the 32 bits of the column are. *)
Lemma InvMixColumns_MixColumns_bits (c : Z -> Z -> bool) i :
  0 <= i < 8 ->
  InvMixColumns_bits (fun j k => MixColumns_bits (fun j' k' => c j' ((k + k') mod 4)) j) i = c i 0.
Proof.
  intros Hi. enum8 i; cbv - [xorb]; btauto.
Qed.

Lemma bits_from_rowrot s p k j k' :
  bits_from s (rowrot p k) j k' = bits_from s p j ((k + k') mod 4).
Proof. unfold bits_from. now rewrite rowrot_rowrot, rowrot_mod. Qed.

Lemma InvMixColumns_MixColumns s : wf_state s -> InvMixColumns (MixColumns s) = s.
Proof.
  intros Hwf. apply state_ext; [ apply InvMixColumns_wf | assumption | ].
  intros i p Hi Hp. rewrite InvMixColumns_bit by assumption.
  rewrite (InvMixColumns_bits_ext _
             (fun j k => MixColumns_bits (fun j' k' => bits_from s p j' ((k + k') mod 4)) j)).
  - rewrite InvMixColumns_MixColumns_bits by assumption.
    unfold bits_from. now rewrite rowrot_0.
  - intros j k Hj Hk. unfold bits_from at 1.
    rewrite MixColumns_bit by (assumption || apply rowrot_range).
    apply MixColumns_bits_ext; [ | assumption ].
    intros j' k' _ _. apply bits_from_rowrot.
  - assumption.
Qed.

(** C10: each linear layer is undone by its inverse on the bit-sliced state
    itself: for every state [s] (eight 16-bit slice words),
    [InvShiftRows (ShiftRows s) = s] and [InvMixColumns (MixColumns s) = s]. *)
Theorem linear_layers_inverse (s : AES_state) :
  wf_state s ->
  InvShiftRows (ShiftRows s) = s /\ InvMixColumns (MixColumns s) = s.
Proof.
  intros Hwf. split.
  - now apply InvShiftRows_ShiftRows.
  - now apply InvMixColumns_MixColumns.
Qed.

(** * MixColumns and InvMixColumns on the decoded bytes *)

Lemma xtime_range a : 0 <= a < 256 -> 0 <= fips_xtime a < 256.
Proof.
  intros Ha.
  assert ((0 <=? fips_xtime a) && (fips_xtime a <? 256) = true) as H.
  { revert a Ha.
    apply (forall_bytes (fun a => (0 <=? fips_xtime a) && (fips_xtime a <? 256))).
    vm_compute. reflexivity. }
  apply andb_prop in H. destruct H as [H1 H2].
  apply Z.leb_le in H1. apply Z.ltb_lt in H2. lia.
Qed.

(** Bit [i] of [x * a]: bit [i-1] of [a], and bit 7 where the polynomial
    [x^4 + x^3 + x + 1] has a term. *)
Lemma xtime_bit a i :
  0 <= a < 256 ->
  Z.testbit (fips_xtime a) i =
  (0 <=? i) && (i <? 8) && xorb (Z.testbit a (i - 1)) (Z.testbit a 7 && Z.testbit 0x1b i).
Proof.
  intros Ha. destruct (Z.leb_spec 0 i) as [H0 | H0]; [ | now rewrite Z.testbit_neg_r ].
  destruct (Z.ltb_spec i 8) as [H8 | H8];
    [ | now rewrite (testbit_high 8 (fips_xtime a) i) by (lia || now apply xtime_range) ].
  cbn [andb]. apply eqb_prop. revert a Ha.
  enum8 i;
    match goal with
    | |- forall a, _ -> eqb (Z.testbit _ ?i) _ = true =>
        apply (forall_bytes (fun a =>
          eqb (Z.testbit (fips_xtime a) i)
              (xorb (Z.testbit a (i - 1)) (Z.testbit a 7 && Z.testbit 0x1b i))))
    end; vm_compute; reflexivity.
Qed.

Lemma lxor_byte a b : 0 <= a < 256 -> 0 <= b < 256 -> 0 <= Z.lxor a b < 256.
Proof.
  intros Ha Hb. split.
  - apply Z.lxor_nonneg. lia.
  - destruct (Z.eq_dec (Z.lxor a b) 0) as [-> | Hne]; [ lia | ].
    apply (Z.log2_lt_pow2 _ 8); [ pose proof (Z.lxor_nonneg a b); lia | ].
    eapply Z.le_lt_trans; [ apply Z.log2_lxor; lia | ].
    apply Z.max_lub_lt.
    + destruct (Z.eq_dec a 0) as [-> | ]; [ cbn; lia | apply Z.log2_lt_pow2; lia ].
    + destruct (Z.eq_dec b 0) as [-> | ]; [ cbn; lia | apply Z.log2_lt_pow2; lia ].
Qed.

Ltac byte_tac := repeat first [ assumption | apply xtime_range | apply lxor_byte ].

Lemma fips_mul_consts a :
  (fips_mul 0x01 a = a /\
   fips_mul 0x02 a = fips_xtime a /\
   fips_mul 0x03 a = Z.lxor a (fips_xtime a) /\
   fips_mul 0x04 a = fips_xtime (fips_xtime a) /\
   fips_mul 0x08 a = fips_xtime (fips_xtime (fips_xtime a))) /\
  (fips_mul 0x09 a = Z.lxor a (fips_xtime (fips_xtime (fips_xtime a))) /\
   fips_mul 0x0b a = Z.lxor a (Z.lxor (fips_xtime a) (fips_xtime (fips_xtime (fips_xtime a)))) /\
   fips_mul 0x0d a = Z.lxor a (Z.lxor (fips_xtime (fips_xtime a))
                                      (fips_xtime (fips_xtime (fips_xtime a)))) /\
   fips_mul 0x0e a = Z.lxor (fips_xtime a) (Z.lxor (fips_xtime (fips_xtime a))
                                                   (fips_xtime (fips_xtime (fips_xtime a))))).
Proof.
  unfold fips_mul. cbn - [fips_xtime Z.lxor].
  rewrite ?Z.lxor_0_r, ?Z.lxor_0_l. repeat split.
Qed.

Section Column.
Variables a0 a1 a2 a3 : Z.
Hypothesis H0 : 0 <= a0 < 256.
Hypothesis H1 : 0 <= a1 < 256.
Hypothesis H2 : 0 <= a2 < 256.
Hypothesis H3 : 0 <= a3 < 256.

Ltac column_bits :=
  rewrite ?Z.lxor_spec;
  repeat (rewrite xtime_bit by byte_tac; rewrite ?Z.lxor_spec);
  cbv beta iota zeta delta [MixColumns_bits InvMixColumns_bits column_byte];
  solve_bits.

Lemma spec_mix_byte_bit i :
  0 <= i < 8 ->
  Z.testbit (spec_mix_byte a0 a1 a2 a3) i =
  MixColumns_bits (fun j k => Z.testbit (column_byte a0 a1 a2 a3 k) j) i.
Proof.
  intros Hi. unfold spec_mix_byte.
  destruct (fips_mul_consts a0) as ((_ & -> & _) & _).
  destruct (fips_mul_consts a1) as ((_ & -> & _) & _).
  enum8 i; column_bits.
Qed.

Lemma fips_mix_byte_spec : fips_mix_byte a0 a1 a2 a3 = spec_mix_byte a0 a1 a2 a3.
Proof.
  unfold fips_mix_byte, spec_mix_byte.
  destruct (fips_mul_consts a1) as ((_ & -> & -> & _) & _).
  now rewrite (Z.lxor_comm a1).
Qed.

Lemma spec_inv_mix_byte_bit i :
  0 <= i < 8 ->
  Z.testbit (spec_inv_mix_byte a0 a1 a2 a3) i =
  InvMixColumns_bits (fun j k => Z.testbit (column_byte a0 a1 a2 a3 k) j) i.
Proof.
  intros Hi. unfold spec_inv_mix_byte.
  destruct (fips_mul_consts (Z.lxor (Z.lxor (Z.lxor a0 a1) a2) a3)) as ((_ & _ & _ & _ & ->) & _).
  destruct (fips_mul_consts (Z.lxor a0 a2)) as ((_ & _ & _ & -> & _) & _).
  destruct (fips_mul_consts (Z.lxor a0 a1)) as ((_ & -> & _) & _).
  destruct (fips_mul_consts (Z.lxor (Z.lxor a1 a2) a3)) as ((-> & _) & _).
  enum8 i; column_bits.
Qed.

Lemma fips_inv_mix_byte_bit i :
  0 <= i < 8 ->
  Z.testbit (fips_inv_mix_byte a0 a1 a2 a3) i =
  InvMixColumns_bits (fun j k => Z.testbit (column_byte a0 a1 a2 a3 k) j) i.
Proof.
  intros Hi. unfold fips_inv_mix_byte.
  destruct (fips_mul_consts a0) as (_ & _ & _ & _ & ->).
  destruct (fips_mul_consts a1) as (_ & _ & -> & _).
  destruct (fips_mul_consts a2) as (_ & _ & _ & -> & _).
  destruct (fips_mul_consts a3) as (_ & -> & _).
  enum8 i; column_bits.
Qed.

Lemma spec_mix_byte_range : 0 <= spec_mix_byte a0 a1 a2 a3 < 256.
Proof.
  unfold spec_mix_byte.
  destruct (fips_mul_consts a0) as ((_ & -> & _) & _).
  destruct (fips_mul_consts a1) as ((_ & -> & _) & _).
  byte_tac.
Qed.

Lemma spec_inv_mix_byte_range : 0 <= spec_inv_mix_byte a0 a1 a2 a3 < 256.
Proof.
  unfold spec_inv_mix_byte.
  destruct (fips_mul_consts (Z.lxor (Z.lxor (Z.lxor a0 a1) a2) a3)) as ((_ & _ & _ & _ & ->) & _).
  destruct (fips_mul_consts (Z.lxor a0 a2)) as ((_ & _ & _ & -> & _) & _).
  destruct (fips_mul_consts (Z.lxor a0 a1)) as ((_ & -> & _) & _).
  destruct (fips_mul_consts (Z.lxor (Z.lxor a1 a2) a3)) as ((-> & _) & _).
  byte_tac.
Qed.

Lemma fips_inv_mix_byte_range : 0 <= fips_inv_mix_byte a0 a1 a2 a3 < 256.
Proof.
  unfold fips_inv_mix_byte.
  destruct (fips_mul_consts a0) as (_ & _ & _ & _ & ->).
  destruct (fips_mul_consts a1) as (_ & _ & -> & _).
  destruct (fips_mul_consts a2) as (_ & _ & _ & -> & _).
  destruct (fips_mul_consts a3) as (_ & -> & _).
  byte_tac.
Qed.

End Column.

Lemma bits_from_column s p j k :
  0 <= j < 8 -> 0 <= k < 4 ->
  bits_from s p j k =
  Z.testbit (column_byte (SaveBytes_byte s (rowrot p 0)) (SaveBytes_byte s (rowrot p 1))
                         (SaveBytes_byte s (rowrot p 2)) (SaveBytes_byte s (rowrot p 3)) k) j.
Proof.
  intros Hj Hk. unfold bits_from.
  enum4 k; cbv beta iota delta [column_byte];
    (rewrite SaveBytes_byte_bit by (assumption || apply rowrot_range)); reflexivity.
Qed.

Lemma MixColumns_cell s p :
  0 <= p < 16 ->
  SaveBytes_byte (MixColumns s) p =
  spec_mix_byte (SaveBytes_byte s (rowrot p 0)) (SaveBytes_byte s (rowrot p 1))
                (SaveBytes_byte s (rowrot p 2)) (SaveBytes_byte s (rowrot p 3)).
Proof.
  intros Hp. apply (bits_ext 8); try lia.
  - apply SaveBytes_byte_range.
  - apply spec_mix_byte_range; apply SaveBytes_byte_range.
  - intros i Hi. rewrite SaveBytes_byte_bit, MixColumns_bit by lia.
    rewrite spec_mix_byte_bit by (assumption || apply SaveBytes_byte_range).
    apply MixColumns_bits_ext; [ | assumption ]. apply bits_from_column.
Qed.

Lemma InvMixColumns_cell s p :
  0 <= p < 16 ->
  SaveBytes_byte (InvMixColumns s) p =
  spec_inv_mix_byte (SaveBytes_byte s (rowrot p 0)) (SaveBytes_byte s (rowrot p 1))
                    (SaveBytes_byte s (rowrot p 2)) (SaveBytes_byte s (rowrot p 3)).
Proof.
  intros Hp. apply (bits_ext 8); try lia.
  - apply SaveBytes_byte_range.
  - apply spec_inv_mix_byte_range; apply SaveBytes_byte_range.
  - intros i Hi. rewrite SaveBytes_byte_bit, InvMixColumns_bit by lia.
    rewrite spec_inv_mix_byte_bit by (assumption || apply SaveBytes_byte_range).
    apply InvMixColumns_bits_ext; [ | assumption ]. apply bits_from_column.
Qed.

Lemma fips_inv_mix_byte_spec a0 a1 a2 a3 :
  0 <= a0 < 256 -> 0 <= a1 < 256 -> 0 <= a2 < 256 -> 0 <= a3 < 256 ->
  fips_inv_mix_byte a0 a1 a2 a3 = spec_inv_mix_byte a0 a1 a2 a3.
Proof.
  intros H0 H1 H2 H3. apply (bits_ext 8); try lia.
  - now apply fips_inv_mix_byte_range.
  - now apply spec_inv_mix_byte_range.
  - intros i Hi. now rewrite fips_inv_mix_byte_bit, spec_inv_mix_byte_bit.
Qed.

(** C5: on the decoded 4x4 byte state, [MixColumns] computes
    [b(r,c) = 02.a(r,c) + (02.a(r+1,c) + a(r+1,c)) + a(r+2,c) + a(r+3,c)],
    rows modulo 4, products in GF(2^8) and sums by xor, which is MixColumns of
    FIPS-197; and [InvMixColumns] computes the 08/04/02/01 decomposition,
    which is InvMixColumns of FIPS-197 (coefficients 0e, 0b, 0d, 09). *)
Theorem MixColumns_is_fips (s : AES_state) (r c : Z) :
  0 <= r < 4 -> 0 <= c < 4 ->
  (cell (MixColumns s) r c =
     spec_mix_byte (cell s r c) (cell s ((r + 1) mod 4) c)
                   (cell s ((r + 2) mod 4) c) (cell s ((r + 3) mod 4) c) /\
   cell (MixColumns s) r c =
     fips_mix_byte (cell s r c) (cell s ((r + 1) mod 4) c)
                   (cell s ((r + 2) mod 4) c) (cell s ((r + 3) mod 4) c)) /\
  (cell (InvMixColumns s) r c =
     spec_inv_mix_byte (cell s r c) (cell s ((r + 1) mod 4) c)
                       (cell s ((r + 2) mod 4) c) (cell s ((r + 3) mod 4) c) /\
   cell (InvMixColumns s) r c =
     fips_inv_mix_byte (cell s r c) (cell s ((r + 1) mod 4) c)
                       (cell s ((r + 2) mod 4) c) (cell s ((r + 3) mod 4) c)).
Proof.
  intros Hr Hc. unfold cell.
  assert (0 <= r * 4 + c < 16) as Hp by lia.
  pose proof (MixColumns_cell s _ Hp) as HM.
  pose proof (InvMixColumns_cell s _ Hp) as HI.
  rewrite !rowrot_cell in HM, HI by lia.
  rewrite Z.add_0_r, (Z.mod_small r 4) in HM, HI by lia.
  rewrite fips_mix_byte_spec, fips_inv_mix_byte_spec by apply SaveBytes_byte_range.
  repeat split; assumption.
Qed.

(** * AddRoundKey *)

Lemma AddRoundKey_unfold a0 a1 a2 a3 a4 a5 a6 a7 k0 k1 k2 k3 k4 k5 k6 k7 :
  AddRoundKey (mk_state a0 a1 a2 a3 a4 a5 a6 a7) (mk_state k0 k1 k2 k3 k4 k5 k6 k7) =
  mk_state (u16 (a0 .^ k0)) (u16 (a1 .^ k1)) (u16 (a2 .^ k2)) (u16 (a3 .^ k3))
           (u16 (a4 .^ k4)) (u16 (a5 .^ k5)) (u16 (a6 .^ k6)) (u16 (a7 .^ k7)).
Proof. reflexivity. Qed.

Lemma AddRoundKey_wf s k : wf_state (AddRoundKey s k).
Proof.
  destruct s as [a0 a1 a2 a3 a4 a5 a6 a7], k as [k0 k1 k2 k3 k4 k5 k6 k7].
  rewrite AddRoundKey_unfold. unfold wf_state.
  cbn [slice0 slice1 slice2 slice3 slice4 slice5 slice6 slice7].
  repeat split; apply u16_range.
Qed.

Lemma xor_twice_word a k : 0 <= a < 65536 -> u16 (u16 (a .^ k) .^ k) = a.
Proof.
  intros Ha. apply (bits_ext 16); try lia; try apply u16_range.
  intros p Hp. rewrite !testbit_u16_low, !Z.lxor_spec, testbit_u16_low, Z.lxor_spec by lia.
  btauto.
Qed.

(** AddRoundKey is self-inverse. *)
Lemma AddRoundKey_twice s k : wf_state s -> AddRoundKey (AddRoundKey s k) k = s.
Proof.
  destruct s as [a0 a1 a2 a3 a4 a5 a6 a7], k as [k0 k1 k2 k3 k4 k5 k6 k7].
  unfold wf_state. cbn [slice0 slice1 slice2 slice3 slice4 slice5 slice6 slice7].
  intros ((A0 & A1 & A2 & A3) & A4 & A5 & A6 & A7).
  rewrite !AddRoundKey_unfold. f_equal; now apply xor_twice_word.
Qed.

(** * The round drivers *)

Lemma AES_encrypt_unfold rounds nrounds plain16 :
  AES_encrypt rounds nrounds plain16 =
  let st := loop (Z.to_nat (nrounds - 1)) 1 (encrypt_round rounds)
              (AddRoundKey (LoadBytes uninit_state plain16) (round_key rounds 0), 1) in
  SaveBytes (AddRoundKey (ShiftRows (SubBytes (fst st))) (round_key rounds (snd st))).
Proof.
  cbv beta zeta delta [AES_encrypt for_range].
  change (fun (_ : Z) '(s, rp) =>
            (AddRoundKey (MixColumns (ShiftRows (SubBytes s))) (round_key rounds rp), rp + 1))
    with (encrypt_round rounds).
  change (0 + 1) with 1.
  destruct (loop _ _ _ _) as [s rp]. reflexivity.
Qed.

Lemma AES_decrypt_unfold rounds nrounds cipher16 :
  AES_decrypt rounds nrounds cipher16 =
  let st := loop (Z.to_nat (nrounds - 1)) 1 (decrypt_round rounds)
              (AddRoundKey (LoadBytes uninit_state cipher16) (round_key rounds (0 + nrounds)),
               0 + nrounds - 1) in
  SaveBytes (AddRoundKey (InvSubBytes (InvShiftRows (fst st))) (round_key rounds (snd st))).
Proof.
  cbv beta zeta delta [AES_decrypt for_range].
  change (fun (_ : Z) '(s, rp) =>
            (InvMixColumns (AddRoundKey (InvSubBytes (InvShiftRows s)) (round_key rounds rp)),
             rp - 1))
    with (decrypt_round rounds).
  destruct (loop _ _ _ _) as [s rp]. reflexivity.
Qed.

Lemma loop_last {A} (body : Z -> A -> A) n : forall i a,
  loop (S n) i body a = body (i + Z.of_nat n) (loop n i body a).
Proof.
  induction n as [ | n IH ]; intros i a.
  - cbn [loop]. now rewrite Z.add_0_r.
  - change (loop (S (S n)) i body a) with (loop (S n) (i + 1) body (body i a)).
    rewrite IH. cbn [loop]. f_equal. lia.
Qed.

(** The decryption rounds undo the encryption rounds, last round first. *)
Lemma decrypt_rounds_undo rounds n : forall i j s rp,
  wf_state s ->
  let st := loop n i (encrypt_round rounds) (s, rp) in
  snd st = rp + Z.of_nat n /\ wf_state (fst st) /\
  loop n j (decrypt_round rounds) (ShiftRows (SubBytes (fst st)), snd st - 1) =
  (ShiftRows (SubBytes s), rp - 1).
Proof.
  induction n as [ | n IH ]; intros i j s rp Hwf; cbv zeta.
  - cbn [loop fst snd]. rewrite Z.add_0_r. auto.
  - change (loop (S n) i (encrypt_round rounds) (s, rp))
      with (loop n (i + 1) (encrypt_round rounds)
              (AddRoundKey (MixColumns (ShiftRows (SubBytes s))) (round_key rounds rp), rp + 1)).
    specialize (IH (i + 1) j _ (rp + 1) (AddRoundKey_wf (MixColumns (ShiftRows (SubBytes s)))
                                           (round_key rounds rp))).
    cbv zeta in IH. destruct IH as (Hrp & Hwf' & Hdec).
    split; [ lia | split; [ assumption | ] ].
    rewrite loop_last, Hdec. cbn [decrypt_round].
    replace (rp + 1 - 1) with rp by lia.
    rewrite InvShiftRows_ShiftRows by apply SubBytes_wf.
    rewrite InvSubBytes_SubBytes by apply AddRoundKey_wf.
    rewrite AddRoundKey_twice by apply MixColumns_wf.
    rewrite InvMixColumns_MixColumns by apply ShiftRows_wf.
    reflexivity.
Qed.

Lemma AES_decrypt_encrypt rounds nrounds plain16 :
  1 <= nrounds -> length plain16 = 16%nat -> Forall is_byte plain16 ->
  AES_decrypt rounds nrounds (AES_encrypt rounds nrounds plain16) = plain16.
Proof.
  intros Hn Hlen Hb. rewrite AES_decrypt_unfold, AES_encrypt_unfold. cbv zeta.
  pose proof (decrypt_rounds_undo rounds (Z.to_nat (nrounds - 1)) 1 1
                (AddRoundKey (LoadBytes uninit_state plain16) (round_key rounds 0)) 1
                (AddRoundKey_wf _ _)) as H.
  cbv zeta in H. destruct H as (Hrp & Hwf & Hdec).
  destruct (loop (Z.to_nat (nrounds - 1)) 1 (encrypt_round rounds) _) as [s rp].
  cbn [fst snd] in *.
  rewrite LoadBytes_SaveBytes by apply AddRoundKey_wf.
  replace (0 + nrounds) with rp by lia.
  rewrite AddRoundKey_twice by apply ShiftRows_wf.
  rewrite Hdec. cbn [fst snd].
  rewrite InvShiftRows_ShiftRows by apply SubBytes_wf.
  rewrite InvSubBytes_SubBytes by apply AddRoundKey_wf.
  replace (1 - 1) with 0 by lia.
  rewrite AddRoundKey_twice by apply LoadBytes_wf.
  now apply SaveBytes_LoadBytes.
Qed.

(** C1: for each of AES-128, AES-192 and AES-256, every key [K] of the
    variant's length (16, 24 or 32 bytes) and every block [P] of 16 bytes,
    decrypting the encryption of [P] under the context made from [K] gives
    [P] back. *)
Theorem decrypt_encrypt (K P : list Z) :
  length P = 16%nat -> Forall is_byte P ->
  (length K = 16%nat ->
     AES128_decrypt (AES128_init K) (AES128_encrypt (AES128_init K) P) = P) /\
  (length K = 24%nat ->
     AES192_decrypt (AES192_init K) (AES192_encrypt (AES192_init K) P) = P) /\
  (length K = 32%nat ->
     AES256_decrypt (AES256_init K) (AES256_encrypt (AES256_init K) P) = P).
Proof.
  intros Hlen Hb.
  unfold AES128_decrypt, AES128_encrypt, AES192_decrypt, AES192_encrypt,
         AES256_decrypt, AES256_encrypt.
  repeat split; intros _; apply AES_decrypt_encrypt; assumption || lia.
Qed.

(** * The key schedule *)

(** ** The word operations of the code are those of the standard *)

Lemma shl_add_lor x b n : 0 <= n -> 0 <= b < 2 ^ n -> x << n .| b = x * 2 ^ n + b.
Proof.
  intros Hn Hb. rewrite Z.shiftl_mul_pow2 by assumption.
  assert (Z.land (x * 2 ^ n) b = 0) as Hdisj.
  { apply Z.bits_inj'. intros k Hk. rewrite Z.land_spec, Z.bits_0.
    destruct (Z.lt_ge_cases k n) as [Hlt | Hge].
    - now rewrite Z.mul_pow2_bits_low.
    - rewrite (testbit_high n b k) by assumption. apply andb_false_r. }
  now rewrite Z.add_nocarry_lxor, Z.lxor_lor.
Qed.

Lemma be_word_lor b0 b1 b2 b3 :
  is_byte b0 -> is_byte b1 -> is_byte b2 -> is_byte b3 ->
  b0 << 24 .| b1 << 16 .| b2 << 8 .| b3 = fips_be_word b0 b1 b2 b3.
Proof.
  unfold is_byte, fips_be_word. intros H0 H1 H2 H3.
  pose proof (shl_add_lor b0 b1 8 ltac:(lia) H1) as E1.
  pose proof (shl_add_lor (b0 << 8 .| b1) b2 8 ltac:(lia) H2) as E2.
  pose proof (shl_add_lor ((b0 << 8 .| b1) << 8 .| b2) b3 8 ltac:(lia) H3) as E3.
  transitivity (((b0 << 8 .| b1) << 8 .| b2) << 8 .| b3).
  - rewrite !Z.shiftl_lor, !Z.shiftl_shiftl by lia. reflexivity.
  - rewrite E3, E2, E1.
    change (2 ^ 24) with 16777216. change (2 ^ 16) with 65536. change (2 ^ 8) with 256. lia.
Qed.

Lemma fips_be_word_range b0 b1 b2 b3 :
  is_byte b0 -> is_byte b1 -> is_byte b2 -> is_byte b3 ->
  0 <= fips_be_word b0 b1 b2 b3 < 4294967296.
Proof.
  unfold is_byte, fips_be_word. intros H0 H1 H2 H3.
  change (2 ^ 24) with 16777216. change (2 ^ 16) with 65536. change (2 ^ 8) with 256. lia.
Qed.

Lemma be_word_code b0 b1 b2 b3 :
  is_byte b0 -> is_byte b1 -> is_byte b2 -> is_byte b3 ->
  u32 (b0 << 24 .| b1 << 16 .| b2 << 8 .| b3) = fips_be_word b0 b1 b2 b3.
Proof.
  intros H0 H1 H2 H3. rewrite be_word_lor by assumption.
  apply u32_small. now apply fips_be_word_range.
Qed.

Lemma RotWord_code t :
  0 <= t < 4294967296 -> u32 (t << 8) .| t >> 24 = fips_RotWord t.
Proof.
  intros Ht. unfold u32, fips_RotWord.
  rewrite Z.shiftl_mul_pow2, Z.shiftr_div_pow2 by lia.
  change 4294967296 with (2 ^ 32).
  replace ((t * 2 ^ 8) mod 2 ^ 32) with ((t mod 2 ^ 24) * 2 ^ 8)
    by (change (2 ^ 32) with (2 ^ 24 * 2 ^ 8); symmetry; apply Zmult_mod_distr_r).
  rewrite <- (shl_add_lor (t mod 2 ^ 24) (t / 2 ^ 24) 8).
  - now rewrite Z.shiftl_mul_pow2 by lia.
  - lia.
  - split; [ apply Z.div_pos; lia | apply Z.div_lt_upper_bound; lia ].
Qed.

Lemma fips_RotWord_range t : 0 <= t < 4294967296 -> 0 <= fips_RotWord t < 4294967296.
Proof.
  intros Ht. unfold fips_RotWord.
  change (2 ^ 32) with (2 ^ 24 * 2 ^ 8). rewrite Zmult_mod_distr_r.
  pose proof (Z.mod_pos_bound t (2 ^ 24) ltac:(lia)).
  assert (0 <= t / 2 ^ 24 < 2 ^ 8)
    by (split; [ apply Z.div_pos; lia | apply Z.div_lt_upper_bound; lia ]).
  change (2 ^ 24) with 16777216 in *. change (2 ^ 8) with 256 in *. lia.
Qed.

Lemma word_byte_div x j : 0 <= j -> word_byte x j = x / 2 ^ (8 * j) mod 256.
Proof.
  intros Hj. unfold word_byte. change 0xFF with (Z.ones 8).
  rewrite Z.land_ones, Z.shiftr_div_pow2 by lia. reflexivity.
Qed.

Lemma fips_SubWord_range x : 0 <= fips_SubWord x < 4294967296.
Proof. apply fips_be_word_range; apply fips_sbox_range. Qed.

Lemma sel4 (f : Z -> Z) j : 0 <= j < 4 -> f j = idx [f 3; f 2; f 1; f 0] (3 - j).
Proof. intros Hj. enum4 j; reflexivity. Qed.

(** [SubWord] of the code is the S-box on each byte of the word. *)
Lemma SubWord_fips x : SubWord x = fips_SubWord x.
Proof.
  apply (bits_ext 32); try lia.
  - rewrite SubWord_eq. apply SubWord_unpack_range.
  - apply fips_SubWord_range.
  - intros p Hp.
    replace p with (8 * (p / 8) + p mod 8) by (pose proof (Z.div_mod p 8); lia).
    assert (0 <= p / 8 < 4) as Hj
      by (split; [ apply Z.div_pos; lia | apply Z.div_lt_upper_bound; lia ]).
    assert (0 <= p mod 8 < 8) as Hi by (apply Z.mod_pos_bound; lia).
    rewrite <- word_byte_bit, SubWord_byte by lia.
    unfold fips_SubWord. rewrite <- be_word_code by apply fips_sbox_range.
    replace (8 * (p / 8) + p mod 8) with (8 * (3 - (3 - p / 8)) + p mod 8) by lia.
    rewrite be_word_bit by (lia || apply fips_sbox_range).
    rewrite !word_byte_div by lia.
    generalize (p mod 8). generalize Hj. generalize (p / 8) as j. clear.
    intros j Hj i.
    rewrite (sel4 (fun k => fips_sbox ((x / 2 ^ (8 * k)) mod 256)) j Hj). cbv beta.
    change (2 ^ (8 * 3)) with (2 ^ 24). change (2 ^ (8 * 2)) with (2 ^ 16).
    change (2 ^ (8 * 1)) with (2 ^ 8). change (2 ^ (8 * 0)) with 1.
    now rewrite Z.div_1_r.
Qed.

Lemma rcon_code r :
  0 <= r < 256 -> u8 ((- (r >> 7)) .& 0x1B .^ r << 1) = fips_xtime r.
Proof.
  intros Hr. apply Z.eqb_eq. revert r Hr.
  apply (forall_bytes (fun r => u8 ((- (r >> 7)) .& 0x1B .^ r << 1) =? fips_xtime r)).
  vm_compute. reflexivity.
Qed.

Lemma rcon_shift_code r : 0 <= r < 256 -> u32 (r << 24) = r * 2 ^ 24.
Proof.
  intros Hr. rewrite Z.shiftl_mul_pow2 by lia. apply u32_small.
  change (2 ^ 24) with 16777216. lia.
Qed.

Lemma fips_rcon_pow_range n : 0 <= fips_rcon_pow n < 256.
Proof.
  induction n as [ | n IH ]; cbn [fips_rcon_pow]; [ lia | now apply xtime_range ].
Qed.

Lemma fips_rcon_range j : 0 <= fips_rcon j < 256.
Proof. apply fips_rcon_pow_range. Qed.

Lemma fips_rcon_succ j : 1 <= j -> fips_rcon (j + 1) = fips_xtime (fips_rcon j).
Proof.
  intros Hj. unfold fips_rcon.
  replace (Z.to_nat (j + 1 - 1)) with (S (Z.to_nat (j - 1))) by lia. reflexivity.
Qed.

Lemma lxor_word a b :
  0 <= a < 4294967296 -> 0 <= b < 4294967296 -> 0 <= Z.lxor a b < 4294967296.
Proof.
  intros Ha Hb. split.
  - apply Z.lxor_nonneg. lia.
  - destruct (Z.eq_dec (Z.lxor a b) 0) as [-> | Hne]; [ lia | ].
    apply (Z.log2_lt_pow2 _ 32); [ pose proof (Z.lxor_nonneg a b); lia | ].
    eapply Z.le_lt_trans; [ apply Z.log2_lxor; lia | ].
    apply Z.max_lub_lt.
    + destruct (Z.eq_dec a 0) as [-> | ]; [ cbn; lia | apply Z.log2_lt_pow2; lia ].
    + destruct (Z.eq_dec b 0) as [-> | ]; [ cbn; lia | apply Z.log2_lt_pow2; lia ].
Qed.

(** ** Arrays held as lists *)

Lemma upd_nat_length a n v : length (upd_nat a n v) = length a.
Proof.
  revert n. induction a as [ | x a IH ]; intros [ | n ]; cbn [upd_nat length]; auto.
Qed.

Lemma upd_length a i v : length (upd a i v) = length a.
Proof. apply upd_nat_length. Qed.

Lemma nth_upd_nat_same a n v : (n < length a)%nat -> nth n (upd_nat a n v) 0 = v.
Proof.
  revert n. induction a as [ | x a IH ]; intros [ | n ] H; cbn in *; try lia; auto.
  apply IH. lia.
Qed.

Lemma nth_upd_nat_other a n m v : n <> m -> nth m (upd_nat a n v) 0 = nth m a 0.
Proof.
  revert n m. induction a as [ | x a IH ]; intros [ | n ] [ | m ] H; cbn; try reflexivity; try lia.
  apply IH. lia.
Qed.

Lemma idx_upd_same a i v : 0 <= i < Z.of_nat (length a) -> idx (upd a i v) i = v.
Proof. intros H. unfold idx, upd. apply nth_upd_nat_same. lia. Qed.

Lemma idx_upd_other a i j v : 0 <= i -> 0 <= j -> i <> j -> idx (upd a i v) j = idx a j.
Proof. intros Hi Hj H. unfold idx, upd. apply nth_upd_nat_other. lia. Qed.

Lemma idx_app_l (l l' : list Z) j :
  0 <= j < Z.of_nat (length l) -> idx (l ++ l') j = idx l j.
Proof. intros H. unfold idx. apply app_nth1. lia. Qed.

Lemma idx_app_last (l : list Z) x : idx (l ++ [x]) (Z.of_nat (length l)) = x.
Proof. unfold idx. rewrite Nat2Z.id. apply nth_middle. Qed.

Lemma idx_app_last' (l : list Z) x i : i = Z.of_nat (length l) -> idx (l ++ [x]) i = x.
Proof. intros ->. apply idx_app_last. Qed.

(** ** The words of the standard's schedule *)

Lemma fips_key_words_length nk key n : length (fips_key_words nk key n) = n.
Proof.
  induction n as [ | n IH ]; [ reflexivity | ].
  cbn [fips_key_words]. cbv zeta. rewrite length_app, IH. cbn. lia.
Qed.

Lemma fips_key_words_stable nk key m : forall n j,
  (n <= m)%nat -> 0 <= j < Z.of_nat n ->
  idx (fips_key_words nk key m) j = idx (fips_key_words nk key n) j.
Proof.
  induction m as [ | m IH ]; intros n j Hn Hj.
  - replace n with O by lia. reflexivity.
  - destruct (Nat.eq_dec n (S m)) as [-> | Hne]; [ reflexivity | ].
    cbn [fips_key_words]. cbv zeta.
    rewrite idx_app_l by (rewrite fips_key_words_length; lia).
    apply IH; lia.
Qed.

Lemma fips_next_word_ext nk w w' i :
  idx w (i - 1) = idx w' (i - 1) -> idx w (i - nk) = idx w' (i - nk) ->
  fips_next_word nk w i = fips_next_word nk w' i.
Proof. intros H1 H2. unfold fips_next_word. now rewrite H1, H2. Qed.

Lemma fips_key_words_at nk key m i :
  1 <= nk -> 0 <= i < Z.of_nat m ->
  idx (fips_key_words nk key m) i =
  if i <? nk
  then fips_be_word (idx key (4 * i)) (idx key (4 * i + 1))
                    (idx key (4 * i + 2)) (idx key (4 * i + 3))
  else fips_next_word nk (fips_key_words nk key m) i.
Proof.
  intros Hnk Hi.
  rewrite (fips_key_words_stable nk key m (S (Z.to_nat i)) i) by lia.
  cbn [fips_key_words]. cbv zeta.
  rewrite idx_app_last' by (rewrite fips_key_words_length; lia).
  rewrite Z2Nat.id by lia.
  destruct (Z.ltb_spec i nk) as [Hlt | Hge]; [ reflexivity | ].
  apply fips_next_word_ext; symmetry; apply fips_key_words_stable; lia.
Qed.

Lemma Forall_words_idx l i : Forall is_word l -> is_word (idx l i).
Proof.
  intros H. unfold idx. generalize (Z.to_nat i) as n. induction H as [ | b l Hb Hl IH ].
  - intros [ | n ]; cbn; unfold is_word; lia.
  - intros [ | n ]; cbn; [ assumption | apply IH ].
Qed.

Lemma fips_next_word_range nk w i : Forall is_word w -> is_word (fips_next_word nk w i).
Proof.
  intros Hw. unfold fips_next_word. cbv zeta.
  pose proof (Forall_words_idx w (i - 1) Hw) as H1.
  pose proof (Forall_words_idx w (i - nk) Hw) as H2.
  apply lxor_word; [ assumption | ].
  destruct (i mod nk =? 0).
  - apply lxor_word; [ apply fips_SubWord_range | ].
    pose proof (fips_rcon_range (i / nk)). change (2 ^ 24) with 16777216. lia.
  - destruct ((nk >? 6) && (i mod nk =? 4)); [ apply fips_SubWord_range | assumption ].
Qed.

Lemma fips_key_words_range nk key n :
  Forall is_byte key -> Forall is_word (fips_key_words nk key n).
Proof.
  intros Hkey. induction n as [ | n IH ]; [ constructor | ].
  cbn [fips_key_words]. cbv zeta. apply Forall_app. split; [ assumption | ].
  constructor; [ | constructor ].
  destruct (Z.of_nat n <? nk).
  - apply fips_be_word_range; apply Forall_bytes_idx; assumption.
  - now apply fips_next_word_range.
Qed.

(** ** Index arithmetic of the ring buffer and of the round constant *)

Lemma land_7 a : a .& 7 = a mod 8.
Proof. change 7 with (Z.ones 3). now rewrite Z.land_ones by lia. Qed.

Lemma land_3 a : a .& 3 = a mod 4.
Proof. change 3 with (Z.ones 2). now rewrite Z.land_ones by lia. Qed.

Ltac nk_cases nk :=
  let K := fresh "K" in
  assert (nk = 1 \/ nk = 2 \/ nk = 3 \/ nk = 4 \/ nk = 5 \/ nk = 6 \/ nk = 7 \/ nk = 8)
    as K by lia;
  repeat (destruct K as [K | K]; [ subst nk | ]); [ .. | subst nk ].

Lemma pos_step nk i :
  1 <= nk <= 8 -> 0 <= i ->
  (if i mod nk + 1 =? nk then 0 else i mod nk + 1) = (i + 1) mod nk.
Proof.
  intros Hnk Hi.
  destruct (Z.eqb_spec (i mod nk + 1) nk) as [E | E];
    nk_cases nk; Z.div_mod_to_equations; lia.
Qed.

Lemma rcon_index_zero nk i :
  1 <= nk <= 8 -> nk <= i -> i mod nk = 0 ->
  (i + nk - 1) / nk = i / nk /\ (i + 1 + nk - 1) / nk = i / nk + 1 /\ 1 <= i / nk.
Proof. intros Hnk Hi E. nk_cases nk; Z.div_mod_to_equations; lia. Qed.

Lemma rcon_index_other nk i :
  1 <= nk <= 8 -> nk <= i -> i mod nk <> 0 ->
  (i + 1 + nk - 1) / nk = (i + nk - 1) / nk.
Proof. intros Hnk Hi E. nk_cases nk; Z.div_mod_to_equations; lia. Qed.

Lemma rcon_index_start nk : 1 <= nk <= 8 -> (nk + nk - 1) / nk = 1.
Proof. intros Hnk. nk_cases nk; reflexivity. Qed.

Lemma loop_invariant {A} (P : Z -> A -> Prop) (body : Z -> A -> A) n : forall i a,
  P i a ->
  (forall k b, i <= k < i + Z.of_nat n -> P k b -> P (k + 1) (body k b)) ->
  P (i + Z.of_nat n) (loop n i body a).
Proof.
  induction n as [ | n IH ]; intros i a Ha Hstep.
  - cbn [loop]. now rewrite Z.add_0_r.
  - cbn [loop]. replace (i + Z.of_nat (S n)) with (i + 1 + Z.of_nat n) by lia.
    apply IH.
    + apply Hstep; [ lia | assumption ].
    + intros k b Hk. apply Hstep. lia.
Qed.

Lemma seq_snoc n : seq 0 (S n) = seq 0 n ++ [n].
Proof. rewrite seq_S. reflexivity. Qed.

(** ** The two loops of [AES_setup] *)

Section KeySchedule.
Variables nk nr : Z.
Variable key : list Z.
Hypothesis Hnk : 1 <= nk <= 8.
Hypothesis Hnr : nk <= 4 * (nr + 1).
Hypothesis Hkey : Forall is_byte key.

Abbreviation schedule := (fips_schedule nk nr key).
Abbreviation W := (fips_schedule_word nk nr key).
Abbreviation load_inv := (setup_load_inv nk nr key).
Abbreviation expand_inv := (setup_expand_inv nk nr key).

Lemma W_word j : 0 <= W j < 4294967296.
Proof. apply Forall_words_idx, fips_key_words_range, Hkey. Qed.

Lemma W_load i :
  0 <= i < nk ->
  W i = fips_be_word (idx key (4 * i)) (idx key (4 * i + 1))
                     (idx key (4 * i + 2)) (idx key (4 * i + 3)).
Proof.
  intros Hi. unfold fips_schedule_word, fips_schedule. rewrite fips_key_words_at by lia.
  destruct (Z.ltb_spec i nk); [ reflexivity | lia ].
Qed.

Lemma W_expand i :
  nk <= i < 4 * (nr + 1) -> W i = fips_next_word nk schedule i.
Proof.
  intros Hi. unfold fips_schedule_word, fips_schedule. rewrite fips_key_words_at by lia.
  destruct (Z.ltb_spec i nk); [ lia | reflexivity ].
Qed.

Lemma rounds_step (rounds : list AES_state) i w0 w1 w2 w3 :
  0 <= i ->
  rounds = map (fips_round_key schedule) (seq 0 (Z.to_nat (i / 4))) ->
  (i mod 4 = 3 -> w0 = W (i - 3) /\ w1 = W (i - 2) /\ w2 = W (i - 1) /\ w3 = W i) ->
  (if i mod 4 =? 3 then store_round rounds w0 w1 w2 w3 else rounds) =
  map (fips_round_key schedule) (seq 0 (Z.to_nat ((i + 1) / 4))).
Proof.
  intros Hi Hr Hw. destruct (Z.eqb_spec (i mod 4) 3) as [E | E].
  - destruct (Hw E) as (-> & -> & -> & ->).
    replace (Z.to_nat ((i + 1) / 4)) with (S (Z.to_nat (i / 4)))
      by (Z.div_mod_to_equations; lia).
    rewrite seq_snoc, map_app, <- Hr. unfold store_round. f_equal. cbn [map].
    unfold fips_round_key, fips_schedule_word. cbv zeta.
    replace (4 * Z.of_nat (Z.to_nat (i / 4))) with (i - 3) by (Z.div_mod_to_equations; lia).
    replace (i - 3 + 1) with (i - 2) by lia. replace (i - 3 + 2) with (i - 1) by lia.
    replace (i - 3 + 3) with i by lia. reflexivity.
  - replace ((i + 1) / 4) with (i / 4) by (Z.div_mod_to_equations; lia). assumption.
Qed.

Lemma load_step i st :
  0 <= i < nk -> load_inv i st -> load_inv (i + 1) (AES_setup_load i st).
Proof.
  intros Hi. destruct st as [rcon rk pos k rounds]. unfold setup_load_inv.
  cbn [st_rk st_rounds st_pos st_rcon st_key AES_setup_load].
  intros (Hlen & Hrk & Hrounds & -> & -> & ->). cbv zeta.
  rewrite !idx_skipn by lia. rewrite Z2Nat.id by lia.
  rewrite be_word_code by (apply Forall_bytes_idx, Hkey).
  replace (4 * i + 0) with (4 * i) by lia. rewrite <- W_load by assumption.
  assert (forall j, 0 <= j < i + 1 -> idx (upd rk i (W i)) j = W j) as Hrk'.
  { intros j Hj. destruct (Z.eq_dec j i) as [-> | Hne].
    - apply idx_upd_same. lia.
    - rewrite idx_upd_other by lia. apply Hrk. lia. }
  rewrite upd_length. repeat split; try assumption.
  - rewrite land_3. apply rounds_step; [ lia | assumption | ].
    intros E. rewrite !Hrk' by (Z.div_mod_to_equations; lia). auto.
  - rewrite skipn_skipn. f_equal. lia.
Qed.

Lemma expand_step i st :
  nk <= i < 4 * (nr + 1) -> expand_inv i st -> expand_inv (i + 1) (AES_setup_expand nk i st).
Proof.
  intros Hi. destruct st as [rcon rk pos k rounds]. unfold setup_expand_inv.
  cbn [st_rk st_rounds st_pos st_rcon st_key AES_setup_expand].
  intros (Hlen & Hrk & Hrounds & -> & ->).
  rewrite !land_7, land_3.
  replace ((i + 7) mod 8) with ((i - 1) mod 8) by (Z.div_mod_to_equations; lia).
  replace ((i + 8 - nk) mod 8) with ((i - nk) mod 8) by (Z.div_mod_to_equations; lia).
  rewrite (Hrk (i - 1)), (Hrk (i - nk)) by lia.
  pose proof (W_word (i - 1)) as R1. pose proof (W_word (i - nk)) as Rk.
  pose proof (fips_rcon_range ((i + nk - 1) / nk)) as Rc.
  (* the transformed [temp] and the next [rcon] *)
  assert (exists temp rcon',
    (if i mod nk =? 0
     then (u32 (SubWord (u32 (W (i - 1) << 8) .| W (i - 1) >> 24)
                .^ u32 (fips_rcon ((i + nk - 1) / nk) << 24)),
           u8 ((- (fips_rcon ((i + nk - 1) / nk) >> 7)) .& 0x1B
               .^ fips_rcon ((i + nk - 1) / nk) << 1))
     else if (nk >? 6) && (i mod nk =? 4)
          then (SubWord (W (i - 1)), fips_rcon ((i + nk - 1) / nk))
          else (W (i - 1), fips_rcon ((i + nk - 1) / nk))) = (temp, rcon') /\
    u32 (W (i - nk) .^ temp) = W i /\
    rcon' = fips_rcon ((i + 1 + nk - 1) / nk)) as (temp & rcon' & -> & Hword & ->).
  { rewrite (W_expand i Hi). unfold fips_next_word. cbv zeta.
    fold (fips_schedule nk nr key). fold (fips_schedule_word nk nr key (i - 1)).
    fold (fips_schedule_word nk nr key (i - nk)).
    destruct (Z.eqb_spec (i mod nk) 0) as [E | E].
    - destruct (rcon_index_zero nk i Hnk ltac:(lia) E) as (E1 & E2 & E3).
      rewrite E1, E2. do 2 eexists. split; [ reflexivity | ].
      pose proof (fips_rcon_range (i / nk)) as Rc'.
      rewrite RotWord_code, SubWord_fips, rcon_shift_code, rcon_code, fips_rcon_succ
        by assumption.
      split; [ | reflexivity ].
      assert (0 <= fips_rcon (i / nk) * 2 ^ 24 < 4294967296) as R2
        by (change (2 ^ 24) with 16777216; lia).
      rewrite (u32_small (_ .^ (fips_rcon (i / nk) * 2 ^ 24)))
        by (apply lxor_word; [ apply fips_SubWord_range | assumption ]).
      apply u32_small, lxor_word; [ assumption | ].
      apply lxor_word; [ apply fips_SubWord_range | assumption ].
    - rewrite (rcon_index_other nk i Hnk ltac:(lia) E).
      destruct ((nk >? 6) && (i mod nk =? 4)); do 2 eexists;
        (split; [ reflexivity | split; [ | reflexivity ] ]).
      + rewrite SubWord_fips. apply u32_small, lxor_word;
          [ assumption | apply fips_SubWord_range ].
      + apply u32_small, lxor_word; assumption. }
  cbv beta iota zeta. rewrite Hword. cbn [st_rk st_rounds st_pos st_rcon st_key].
  assert (forall j, 0 <= j < i + 1 -> i + 1 - 8 <= j ->
            idx (upd rk (i mod 8) (W i)) (j mod 8) = W j) as Hrk'.
  { intros j Hj Hj'. destruct (Z.eq_dec j i) as [-> | Hne].
    - apply idx_upd_same. rewrite Hlen. Z.div_mod_to_equations; lia.
    - rewrite idx_upd_other by (Z.div_mod_to_equations; lia). apply Hrk; lia. }
  rewrite upd_length.
  replace ((i + 5) mod 8) with ((i - 3) mod 8) by (Z.div_mod_to_equations; lia).
  replace ((i + 6) mod 8) with ((i - 2) mod 8) by (Z.div_mod_to_equations; lia).
  repeat split; try assumption.
  - apply rounds_step; [ lia | assumption | ].
    intros E. rewrite !Hrk' by (Z.div_mod_to_equations; lia). auto.
  - apply pos_step; lia.
Qed.

Lemma load_inv_init : load_inv 0 (mk_setup 1 (uninit_array 8) 0 key []).
Proof.
  unfold setup_load_inv. cbn [st_rk st_rounds st_pos st_rcon st_key].
  repeat split. intros j Hj. lia.
Qed.

Lemma load_expand_inv st : load_inv nk st -> expand_inv nk st.
Proof.
  destruct st as [rcon rk pos k rounds]. unfold setup_load_inv, setup_expand_inv.
  cbn [st_rk st_rounds st_pos st_rcon st_key].
  intros (Hlen & Hrk & Hrounds & -> & -> & _). repeat split; try assumption.
  - intros j Hj _. rewrite Z.mod_small by lia. apply Hrk. lia.
  - rewrite Z_mod_same_full. reflexivity.
  - now rewrite rcon_index_start.
Qed.

Lemma AES_setup_fips : AES_setup key nk nr = fips_round_keys nk nr key.
Proof.
  unfold AES_setup, for_range. cbv zeta.
  pose proof (loop_invariant load_inv AES_setup_load (Z.to_nat (nk - 0)) 0 _ load_inv_init)
    as H1.
  replace (0 + Z.of_nat (Z.to_nat (nk - 0))) with nk in H1 by lia.
  specialize (H1 ltac:(intros k b Hk; apply load_step; lia)).
  apply load_expand_inv in H1.
  pose proof (loop_invariant expand_inv (AES_setup_expand nk)
                (Z.to_nat (4 * (nr + 1) - nk)) nk _ H1) as H2.
  replace (nk + Z.of_nat (Z.to_nat (4 * (nr + 1) - nk))) with (4 * (nr + 1)) in H2 by lia.
  specialize (H2 ltac:(intros k b Hk; apply expand_step; lia)).
  destruct H2 as (_ & _ & -> & _).
  unfold fips_round_keys. fold (fips_schedule nk nr key).
  replace (4 * (nr + 1) / 4) with (nr + 1) by (Z.div_mod_to_equations; lia).
  reflexivity.
Qed.

End KeySchedule.

(** * The two source files compute the same functions *)

Lemma Merged_SubBytes_0 s : Merged.SubBytes s 0 = SubBytes s.
Proof.
  cbv beta iota delta [Merged.SubBytes Merged.SubBytes_shared SubBytes truthy Z.eqb negb].
  reflexivity.
Qed.

Lemma Merged_SubBytes_inv s inv : inv <> 0 -> Merged.SubBytes s inv = InvSubBytes s.
Proof.
  intros Hinv. cbv beta delta [Merged.SubBytes Merged.SubBytes_shared InvSubBytes].
  replace (truthy inv) with true
    by (unfold truthy; destruct (Z.eqb_spec inv 0); [ contradiction | reflexivity ]).
  cbv beta iota. reflexivity.
Qed.

Lemma Merged_SubWord x : Merged.SubWord x = SubWord x.
Proof. unfold Merged.SubWord, SubWord. cbv zeta. rewrite Merged_SubBytes_0. reflexivity. Qed.

Lemma Merged_LoadBytes s data16 : Merged.LoadBytes s data16 = LoadBytes s data16.
Proof.
  unfold Merged.LoadBytes, LoadBytes. rewrite for_range_0_4. cbv beta iota zeta.
  f_equal; reflexivity.
Qed.

Lemma Merged_MixColumns s : Merged.MixColumns s = MixColumns s.
Proof. destruct s as [a0 a1 a2 a3 a4 a5 a6 a7]. reflexivity. Qed.

Lemma Merged_InvMixColumns s : Merged.InvMixColumns s = InvMixColumns s.
Proof. destruct s as [a0 a1 a2 a3 a4 a5 a6 a7]. reflexivity. Qed.

Lemma loop_ext {A} (f g : Z -> A -> A) n :
  (forall i a, f i a = g i a) -> forall i a, loop n i f a = loop n i g a.
Proof.
  intros H. induction n as [ | n IH ]; intros i a; cbn [loop]; [ reflexivity | ].
  now rewrite H, IH.
Qed.

Lemma Merged_AES_setup_expand nk i st :
  Merged.AES_setup_expand nk i st = AES_setup_expand nk i st.
Proof.
  destruct st as [rcon rk pos key rounds].
  unfold Merged.AES_setup_expand, AES_setup_expand.
  pose proof Merged_SubWord as E. revert E. generalize Merged.SubWord. intros f E.
  rewrite !E. reflexivity.
Qed.

Lemma Merged_AES_setup key nk nr : Merged.AES_setup key nk nr = AES_setup key nk nr.
Proof.
  unfold Merged.AES_setup, AES_setup, for_range. cbv zeta. apply (f_equal st_rounds).
  apply loop_ext. apply Merged_AES_setup_expand.
Qed.

Lemma Merged_AES_encrypt rounds nr plain16 :
  Merged.AES_encrypt rounds nr plain16 = AES_encrypt rounds nr plain16.
Proof.
  unfold Merged.AES_encrypt, AES_encrypt, for_range. cbv zeta.
  rewrite Merged_LoadBytes.
  rewrite (loop_ext
    (fun (_ : Z) '(s, rp) =>
       (AddRoundKey (Merged.MixColumns (ShiftRows (Merged.SubBytes s 0))) (round_key rounds rp),
        rp + 1))
    (fun (_ : Z) '(s, rp) =>
       (AddRoundKey (MixColumns (ShiftRows (SubBytes s))) (round_key rounds rp), rp + 1))).
  - destruct (loop _ _ _ _) as [s rp]. rewrite Merged_SubBytes_0. reflexivity.
  - intros i [s rp]. rewrite Merged_SubBytes_0, Merged_MixColumns. reflexivity.
Qed.

Lemma Merged_AES_decrypt rounds nr cipher16 :
  Merged.AES_decrypt rounds nr cipher16 = AES_decrypt rounds nr cipher16.
Proof.
  unfold Merged.AES_decrypt, AES_decrypt, for_range. cbv zeta.
  rewrite Merged_LoadBytes.
  rewrite (loop_ext
    (fun (_ : Z) '(s, rp) =>
       (Merged.InvMixColumns
          (AddRoundKey (Merged.SubBytes (InvShiftRows s) 1) (round_key rounds rp)), rp - 1))
    (fun (_ : Z) '(s, rp) =>
       (InvMixColumns (AddRoundKey (InvSubBytes (InvShiftRows s)) (round_key rounds rp)),
        rp - 1))).
  - destruct (loop _ _ _ _) as [s rp]. rewrite Merged_SubBytes_inv by discriminate. reflexivity.
  - intros i [s rp]. rewrite Merged_SubBytes_inv by discriminate. rewrite Merged_InvMixColumns. reflexivity.
Qed.

(** C9: the two source files compute the same functions.  For every
    bit-sliced state [s], the merged [SubBytes] with flag 0 is [SubBytes] of
    [ctaes.c] and with flag 1 it is [InvSubBytes]; and the nine entry points
    (init, encrypt and decrypt of AES-128, AES-192 and AES-256) of the two
    files agree on all inputs. *)
Theorem merged_variant_equal :
  (forall s, Merged.SubBytes s 0 = SubBytes s /\ Merged.SubBytes s 1 = InvSubBytes s) /\
  (forall key, Merged.AES128_init key = AES128_init key /\
               Merged.AES192_init key = AES192_init key /\
               Merged.AES256_init key = AES256_init key) /\
  (forall ctx data16,
     (Merged.AES128_encrypt ctx data16 = AES128_encrypt ctx data16 /\
      Merged.AES192_encrypt ctx data16 = AES192_encrypt ctx data16 /\
      Merged.AES256_encrypt ctx data16 = AES256_encrypt ctx data16) /\
     (Merged.AES128_decrypt ctx data16 = AES128_decrypt ctx data16 /\
      Merged.AES192_decrypt ctx data16 = AES192_decrypt ctx data16 /\
      Merged.AES256_decrypt ctx data16 = AES256_decrypt ctx data16)).
Proof.
  split; [ | split ].
  - intros s. split; [ apply Merged_SubBytes_0 | apply Merged_SubBytes_inv; discriminate ].
  - intros key. split; [ | split ].
    + exact (Merged_AES_setup key 4 10).
    + exact (Merged_AES_setup key 6 12).
    + exact (Merged_AES_setup key 8 14).
  - intros ctx data16. split; (split; [ | split ]).
    + exact (Merged_AES_encrypt ctx 10 data16).
    + exact (Merged_AES_encrypt ctx 12 data16).
    + exact (Merged_AES_encrypt ctx 14 data16).
    + exact (Merged_AES_decrypt ctx 10 data16).
    + exact (Merged_AES_decrypt ctx 12 data16).
    + exact (Merged_AES_decrypt ctx 14 data16).
Qed.

(** * Known-answer vectors of FIPS-197 *)

(** * The cipher on the known-answer vectors *)

(** C2: encryption reproduces the four known-answer vectors of FIPS-197:
    the AES-128, AES-192 and AES-256 examples of appendix C and the AES-128
    cipher example of appendix B. *)
Theorem encrypt_known_answers :
  AES128_encrypt (AES128_init kat128_key) kat_plain = kat128_cipher /\
  AES192_encrypt (AES192_init kat192_key) kat_plain = kat192_cipher /\
  AES256_encrypt (AES256_init kat256_key) kat_plain = kat256_cipher /\
  AES128_encrypt (AES128_init katB_key) katB_plain = katB_cipher.
Proof. vm_compute. repeat split. Qed.

(** * The key schedule of the three variants *)

(** C4: for each variant and every key of its length, [AES_setup] produces
    the key schedule of FIPS-197: the first [Nk] words are the key bytes read
    big-endian; each later word is the word [Nk] places before it xored with
    the previous word, which is first passed through SubWord, RotWord and the
    round constant when its index is a multiple of [Nk], through SubWord
    alone when [Nk > 6] and the index is 4 modulo [Nk], and left as it is
    otherwise; the round constant starts at 1 and advances as the code's
    branch-free doubling does; and round key [r] of the context is
    [LoadWords] of words [4r .. 4r+3]. *)
Theorem AES_setup_is_fips (nk nr : Z) (key : list Z) :
  (nk = 4 /\ nr = 10) \/ (nk = 6 /\ nr = 12) \/ (nk = 8 /\ nr = 14) ->
  length key = Z.to_nat (4 * nk) -> Forall is_byte key ->
  (forall i, 0 <= i < nk ->
     fips_schedule_word nk nr key i =
       fips_be_word (idx key (4 * i)) (idx key (4 * i + 1))
                    (idx key (4 * i + 2)) (idx key (4 * i + 3))) /\
  (forall i, nk <= i < 4 * (nr + 1) ->
     fips_schedule_word nk nr key i =
       Z.lxor (fips_schedule_word nk nr key (i - nk))
         (if i mod nk =? 0
          then Z.lxor (fips_SubWord (fips_RotWord (fips_schedule_word nk nr key (i - 1))))
                      (fips_rcon (i / nk) * 2 ^ 24)
          else if (nk >? 6) && (i mod nk =? 4)
          then fips_SubWord (fips_schedule_word nk nr key (i - 1))
          else fips_schedule_word nk nr key (i - 1))) /\
  (fips_rcon 1 = 0x01 /\
   forall j, 1 <= j ->
     fips_rcon (j + 1) = u8 ((- (fips_rcon j >> 7)) .& 0x1B .^ fips_rcon j << 1)) /\
  (forall r, 0 <= r <= nr ->
     round_key (AES_setup key nk nr) r =
       LoadWords uninit_state
         (fips_schedule_word nk nr key (4 * r)) (fips_schedule_word nk nr key (4 * r + 1))
         (fips_schedule_word nk nr key (4 * r + 2)) (fips_schedule_word nk nr key (4 * r + 3))) /\
  length (AES_setup key nk nr) = Z.to_nat (nr + 1).
Proof.
  intros Hv _ Hkey.
  assert (Hnk : 1 <= nk <= 8) by lia.
  assert (Hnr : nk <= 4 * (nr + 1)) by lia.
  split; [ | split; [ | split; [ | split ] ] ].
  - intros i Hi. now apply W_load.
  - intros i Hi. etransitivity; [ apply W_expand; assumption | reflexivity ].
  - split; [ reflexivity | ].
    intros j Hj. rewrite rcon_code by apply fips_rcon_range. now apply fips_rcon_succ.
  - intros r Hr. rewrite (AES_setup_fips nk nr key Hnk Hnr Hkey).
    unfold round_key, fips_round_keys. fold (fips_schedule nk nr key).
    rewrite nth_indep with (d' := fips_round_key (fips_schedule nk nr key) 0%nat)
      by (rewrite length_map, length_seq; lia).
    rewrite map_nth, seq_nth by lia.
    unfold fips_round_key, fips_schedule_word. cbv zeta.
    rewrite Nat.add_0_l, Z2Nat.id by lia. reflexivity.
  - rewrite (AES_setup_fips nk nr key Hnk Hnr Hkey). unfold fips_round_keys.
    now rewrite length_map, length_seq.
Qed.

(** * The theorems at the known-answer vectors *)

Lemma kat_plain_bytes : Forall is_byte kat_plain.
Proof. repeat constructor; unfold is_byte; lia. Defined.

Lemma kat128_key_bytes : Forall is_byte kat128_key.
Proof. repeat constructor; unfold is_byte; lia. Defined.

(** The cipher round trip on the plaintext of appendix C under its three keys. *)
Lemma decrypt_encrypt_kat :
  AES128_decrypt (AES128_init kat128_key)
    (AES128_encrypt (AES128_init kat128_key) kat_plain) = kat_plain /\
  AES192_decrypt (AES192_init kat192_key)
    (AES192_encrypt (AES192_init kat192_key) kat_plain) = kat_plain /\
  AES256_decrypt (AES256_init kat256_key)
    (AES256_encrypt (AES256_init kat256_key) kat_plain) = kat_plain.
Proof.
  split; [ | split ].
  - exact (proj1 (decrypt_encrypt kat128_key kat_plain eq_refl kat_plain_bytes) eq_refl).
  - exact (proj1 (proj2 (decrypt_encrypt kat192_key kat_plain eq_refl kat_plain_bytes)) eq_refl).
  - exact (proj2 (proj2 (decrypt_encrypt kat256_key kat_plain eq_refl kat_plain_bytes)) eq_refl).
Defined.

(** The S-box layer on lane 5 of the loaded plaintext. *)
Lemma SubBytes_is_sbox_kat :
  SaveBytes_byte (SubBytes (LoadBytes uninit_state kat_plain)) 5 =
    fips_sbox (SaveBytes_byte (LoadBytes uninit_state kat_plain) 5) /\
  SaveBytes_byte (InvSubBytes (LoadBytes uninit_state kat_plain)) 5 =
    fips_inv_sbox (SaveBytes_byte (LoadBytes uninit_state kat_plain) 5).
Proof.
  assert (H : 0 <= 5 < 16) by lia.
  destruct (SubBytes_is_sbox (LoadBytes uninit_state kat_plain) 5 H) as [[H1 _] [H2 _]].
  split; [ exact H1 | exact H2 ].
Defined.

(** The first word and the length of the AES-128 schedule of appendix C. *)
Lemma AES_setup_is_fips_kat :
  fips_schedule_word 4 10 kat128_key 0 = 0x00010203 /\
  length (AES_setup kat128_key 4 10) = 11%nat.
Proof.
  assert (Hv : (4 = 4 /\ 10 = 10) \/ (4 = 6 /\ 10 = 12) \/ (4 = 8 /\ 10 = 14))
    by (left; split; reflexivity).
  destruct (AES_setup_is_fips 4 10 kat128_key Hv eq_refl kat128_key_bytes)
    as (H1 & _ & _ & _ & H5).
  split; [ | exact H5 ].
  assert (H0 : 0 <= 0 < 4) by lia.
  rewrite (H1 0 H0). reflexivity.
Defined.

(** The column layer at row 1, column 2 of the loaded plaintext. *)
Lemma MixColumns_is_fips_kat :
  cell (MixColumns (LoadBytes uninit_state kat_plain)) 1 2 =
    fips_mix_byte (cell (LoadBytes uninit_state kat_plain) 1 2)
                  (cell (LoadBytes uninit_state kat_plain) ((1 + 1) mod 4) 2)
                  (cell (LoadBytes uninit_state kat_plain) ((1 + 2) mod 4) 2)
                  (cell (LoadBytes uninit_state kat_plain) ((1 + 3) mod 4) 2).
Proof.
  assert (Hr : 0 <= 1 < 4) by lia. assert (Hc : 0 <= 2 < 4) by lia.
  destruct (MixColumns_is_fips (LoadBytes uninit_state kat_plain) 1 2 Hr Hc) as [[_ H] _].
  exact H.
Defined.

(** The codec round trip on the plaintext of appendix C. *)
Lemma codec_round_trip_kat :
  SaveBytes (LoadBytes uninit_state kat_plain) = kat_plain.
Proof.
  exact (proj2 (codec_round_trip uninit_state kat_plain eq_refl kat_plain_bytes)).
Defined.

(** The linear layers undone on the loaded plaintext. *)
Lemma linear_layers_inverse_kat :
  InvShiftRows (ShiftRows (LoadBytes uninit_state kat_plain)) =
    LoadBytes uninit_state kat_plain /\
  InvMixColumns (MixColumns (LoadBytes uninit_state kat_plain)) =
    LoadBytes uninit_state kat_plain.
Proof.
  exact (linear_layers_inverse (LoadBytes uninit_state kat_plain)
           (LoadBytes_wf uninit_state kat_plain)).
Defined.

(** * The instrumented functions compute what the plain ones do *)

Lemma result_ret {A} (a : A) : Leakage.result (Leakage.ret a) = a.
Proof. reflexivity. Qed.

Lemma result_bind {A B} (m : Leakage.leak A) (k : A -> Leakage.leak B) :
  Leakage.result (Leakage.bind m k) = Leakage.result (k (Leakage.result m)).
Proof.
  unfold Leakage.bind, Leakage.result. destruct m as [a t]. cbn [fst].
  now destruct (k a).
Qed.

Lemma result_loop {A} (hi : Z) (body : Z -> A -> Leakage.leak A) (body0 : Z -> A -> A) :
  (forall i a, Leakage.result (body i a) = body0 i a) ->
  forall n i a, n = Z.to_nat (hi - i) ->
    Leakage.result (Leakage.loop (S n) i hi body a) = loop n i body0 a.
Proof.
  intros Hbody. induction n as [ | n IH ]; intros i a Hn.
  - cbn [Leakage.loop loop]. rewrite result_bind. cbn [Leakage.branch Leakage.result fst].
    destruct (Z.ltb_spec i hi); [ lia | reflexivity ].
  - cbn [loop]. change (Leakage.loop (S (S n)) i hi body a)
      with (Leakage.bind (Leakage.branch (i <? hi)) (fun c =>
              if c then Leakage.bind (body i a) (fun a' => Leakage.loop (S n) (i + 1) hi body a')
              else Leakage.ret a)).
    rewrite result_bind. cbn [Leakage.branch Leakage.result fst].
    destruct (Z.ltb_spec i hi); [ | lia ].
    fold (@Leakage.result A). rewrite result_bind, Hbody. apply IH. lia.
Qed.

Lemma result_for_range {A} (lo hi : Z) (body : Z -> A -> Leakage.leak A)
      (body0 : Z -> A -> A) (a : A) :
  (forall i a, Leakage.result (body i a) = body0 i a) ->
  Leakage.result (Leakage.for_range lo hi body a) = for_range lo hi body0 a.
Proof. intros Hbody. unfold Leakage.for_range, for_range. now apply result_loop. Qed.

Lemma result_branch b : Leakage.result (Leakage.branch b) = b.
Proof. reflexivity. Qed.

Lemma result_at a i : Leakage.result (Leakage.at_ a i) = i.
Proof. reflexivity. Qed.

Ltac result_step :=
  rewrite ?result_bind, ?result_ret, ?result_branch, ?result_at.

Ltac result_steps := repeat (progress result_step).

Lemma result_LoadWords_bits pos v s :
  Leakage.result (Leakage.LoadWords_bits pos v s) = LoadWords_bits pos v s.
Proof.
  unfold Leakage.LoadWords_bits, LoadWords_bits. result_steps. apply (f_equal snd).
  apply result_for_range. intros i [v' s']. now result_steps.
Qed.

Lemma result_LoadWords_column c w s :
  Leakage.result (Leakage.LoadWords_column c w s) = LoadWords_column c w s.
Proof.
  unfold Leakage.LoadWords_column, LoadWords_column. result_steps. apply (f_equal snd).
  apply result_for_range. intros r [w' s']. result_steps.
  now rewrite result_LoadWords_bits.
Qed.

Lemma result_LoadWords s w0 w1 w2 w3 :
  Leakage.result (Leakage.LoadWords s w0 w1 w2 w3) = LoadWords s w0 w1 w2 w3.
Proof.
  unfold Leakage.LoadWords, LoadWords. result_steps. cbv zeta.
  rewrite (result_for_range 0 8 _ (fun b s => set_slice s b 0))
    by (intros i a; now result_steps).
  apply result_for_range. intros c a. result_steps. apply result_LoadWords_column.
Qed.

Lemma result_LoadBytes s data16 :
  Leakage.result (Leakage.LoadBytes s data16) = LoadBytes s data16.
Proof.
  unfold Leakage.LoadBytes, LoadBytes. result_steps. cbv zeta. apply result_LoadWords.
Qed.

Lemma result_SaveBytes_byte s pos :
  Leakage.result (Leakage.SaveBytes_byte s pos) = SaveBytes_byte s pos.
Proof.
  unfold Leakage.SaveBytes_byte, SaveBytes_byte.
  apply result_for_range. intros b v. now result_steps.
Qed.

Lemma result_SaveBytes s : Leakage.result (Leakage.SaveBytes s) = SaveBytes s.
Proof.
  unfold Leakage.SaveBytes, SaveBytes.
  apply result_for_range. intros c d. apply result_for_range. intros r d'.
  result_steps. now rewrite result_SaveBytes_byte.
Qed.

Lemma result_SubBytes s : Leakage.result (Leakage.SubBytes s) = SubBytes s.
Proof. reflexivity. Qed.

Lemma result_InvSubBytes s : Leakage.result (Leakage.InvSubBytes s) = InvSubBytes s.
Proof. reflexivity. Qed.

Lemma result_MixColumns s : Leakage.result (Leakage.MixColumns s) = MixColumns s.
Proof. reflexivity. Qed.

Lemma result_InvMixColumns s : Leakage.result (Leakage.InvMixColumns s) = InvMixColumns s.
Proof. reflexivity. Qed.

Lemma result_SubWord x : Leakage.result (Leakage.SubWord x) = SubWord x.
Proof.
  unfold Leakage.SubWord, SubWord. cbv zeta. result_steps. rewrite result_SubBytes.
  assert (Hpack : forall s, Leakage.result (Leakage.SubWord_pack x s) = SubWord_pack x s).
  { intros s. unfold Leakage.SubWord_pack, SubWord_pack. result_steps. apply (f_equal snd).
    apply result_for_range. intros b [x' s']. now result_steps. }
  rewrite Hpack. unfold Leakage.SubWord_unpack, SubWord_unpack.
  apply result_for_range. intros b r. now result_steps.
Qed.

Lemma result_ShiftRows s : Leakage.result (Leakage.ShiftRows s) = ShiftRows s.
Proof.
  unfold Leakage.ShiftRows, ShiftRows. apply result_for_range. intros i a.
  result_steps. cbv zeta. now result_steps.
Qed.

Lemma result_InvShiftRows s : Leakage.result (Leakage.InvShiftRows s) = InvShiftRows s.
Proof.
  unfold Leakage.InvShiftRows, InvShiftRows. apply result_for_range. intros i a.
  result_steps. cbv zeta. now result_steps.
Qed.

Lemma result_AddRoundKey s round :
  Leakage.result (Leakage.AddRoundKey s round) = AddRoundKey s round.
Proof.
  unfold Leakage.AddRoundKey, AddRoundKey. apply result_for_range. intros b a.
  now result_steps.
Qed.

Lemma result_store_round rounds w0 w1 w2 w3 :
  Leakage.result (Leakage.store_round rounds w0 w1 w2 w3) = store_round rounds w0 w1 w2 w3.
Proof.
  unfold Leakage.store_round, store_round. result_steps. now rewrite result_LoadWords.
Qed.

Lemma result_AES_setup_load i st :
  Leakage.result (Leakage.AES_setup_load i st) = AES_setup_load i st.
Proof.
  destruct st as [rcon rk pos key rounds]. unfold Leakage.AES_setup_load, AES_setup_load.
  result_steps. cbv zeta. result_steps.
  destruct (i .& 3 =? 3); result_steps; [ rewrite result_store_round | ]; reflexivity.
Qed.

Lemma result_AES_setup_expand nk i st :
  Leakage.result (Leakage.AES_setup_expand nk i st) = AES_setup_expand nk i st.
Proof.
  destruct st as [rcon rk pos key rounds].
  unfold Leakage.AES_setup_expand, AES_setup_expand.
  result_steps. cbv zeta. result_steps.
  destruct (pos =? 0).
  - result_steps. rewrite result_SubWord. cbv beta iota zeta. result_steps.
    destruct (i .& 3 =? 3); result_steps; [ rewrite result_store_round | ]; reflexivity.
  - result_steps. destruct (nk >? 6); result_steps; [ destruct (pos =? 4) | ];
      cbn [andb]; result_steps; rewrite ?result_SubWord; cbv beta iota zeta; result_steps;
      (destruct (i .& 3 =? 3); result_steps; [ rewrite result_store_round | ]; reflexivity).
Qed.

Lemma result_AES_setup key nk nr :
  Leakage.result (Leakage.AES_setup key nk nr) = AES_setup key nk nr.
Proof.
  unfold Leakage.AES_setup, AES_setup. cbv zeta. result_steps. apply (f_equal st_rounds).
  rewrite (result_for_range 0 nk _ AES_setup_load) by apply result_AES_setup_load.
  apply result_for_range. apply result_AES_setup_expand.
Qed.

Lemma result_AES_encrypt rounds nr plain16 :
  Leakage.result (Leakage.AES_encrypt rounds nr plain16) = AES_encrypt rounds nr plain16.
Proof.
  unfold Leakage.AES_encrypt, AES_encrypt. cbv zeta. result_steps.
  rewrite result_LoadBytes, result_AddRoundKey.
  rewrite (result_for_range 1 nr _ (fun round '(s, rp) =>
             (AddRoundKey (MixColumns (ShiftRows (SubBytes s))) (round_key rounds rp), rp + 1))).
  2:{ intros i [s rp]. result_steps.
      now rewrite result_SubBytes, result_ShiftRows, result_MixColumns, result_AddRoundKey. }
  destruct (for_range 1 nr _ _) as [s rp]. result_steps.
  rewrite result_SubBytes, result_ShiftRows, result_AddRoundKey. apply result_SaveBytes.
Qed.

Lemma result_AES_decrypt rounds nr cipher16 :
  Leakage.result (Leakage.AES_decrypt rounds nr cipher16) = AES_decrypt rounds nr cipher16.
Proof.
  unfold Leakage.AES_decrypt, AES_decrypt. cbv zeta. result_steps.
  rewrite result_LoadBytes, result_AddRoundKey.
  rewrite (result_for_range 1 nr _ (fun round '(s, rp) =>
             (InvMixColumns (AddRoundKey (InvSubBytes (InvShiftRows s)) (round_key rounds rp)),
              rp - 1))).
  2:{ intros i [s rp]. result_steps.
      now rewrite result_InvShiftRows, result_InvSubBytes, result_AddRoundKey,
                  result_InvMixColumns. }
  destruct (for_range 1 nr _ _) as [s rp]. result_steps.
  rewrite result_InvShiftRows, result_InvSubBytes, result_AddRoundKey. apply result_SaveBytes.
Qed.

(** * Two runs reveal the same *)

Lemma leakage_bind {A B} (m : Leakage.leak A) (k : A -> Leakage.leak B) :
  Leakage.leakage (Leakage.bind m k) =
    Leakage.leakage m ++ Leakage.leakage (k (Leakage.result m)).
Proof.
  unfold Leakage.bind, Leakage.leakage, Leakage.result. destruct m as [a t]. cbn [fst snd].
  now destruct (k a).
Qed.

Lemma leak_equiv_ret {A} (R : A -> A -> Prop) a a' :
  R a a' -> leak_equiv R (Leakage.ret a) (Leakage.ret a').
Proof. intros H. split; [ reflexivity | exact H ]. Qed.

Lemma leak_equiv_bind {A B} (Q : A -> A -> Prop) (R : B -> B -> Prop)
      (m m' : Leakage.leak A) (k k' : A -> Leakage.leak B) :
  leak_equiv Q m m' ->
  (forall a a', Q a a' -> leak_equiv R (k a) (k' a')) ->
  leak_equiv R (Leakage.bind m k) (Leakage.bind m' k').
Proof.
  intros [Hm HQ] Hk. destruct (Hk _ _ HQ) as [Hl HR]. split.
  - now rewrite !leakage_bind, Hm, Hl.
  - now rewrite !result_bind.
Qed.

Lemma leak_equiv_any {A} (R : A -> A -> Prop) (m m' : Leakage.leak A) :
  leak_equiv R m m' -> leak_equiv unconstrained m m'.
Proof. intros [H _]. split; [ exact H | exact I ]. Qed.

Lemma leak_equiv_branch b : leak_equiv eq (Leakage.branch b) (Leakage.branch b).
Proof. split; reflexivity. Qed.

Lemma leak_equiv_at a i : leak_equiv eq (Leakage.at_ a i) (Leakage.at_ a i).
Proof. split; reflexivity. Qed.

Lemma leak_equiv_touch a l : leak_equiv unconstrained (Leakage.touch a l) (Leakage.touch a l).
Proof. split; [ reflexivity | exact I ]. Qed.

Lemma leak_equiv_move a d : leak_equiv unconstrained (Leakage.move a d) (Leakage.move a d).
Proof. split; [ reflexivity | exact I ]. Qed.

Lemma leak_equiv_loop {A} (R : A -> A -> Prop) (hi : Z) (body body' : Z -> A -> Leakage.leak A) :
  (forall i a a', R a a' -> leak_equiv R (body i a) (body' i a')) ->
  forall fuel i a a', R a a' ->
    leak_equiv R (Leakage.loop fuel i hi body a) (Leakage.loop fuel i hi body' a').
Proof.
  intros Hbody. induction fuel as [ | fuel IH ]; intros i a a' Ha; cbn [Leakage.loop].
  - now apply leak_equiv_ret.
  - eapply leak_equiv_bind; [ apply leak_equiv_branch | ].
    intros c c' <-. destruct c; [ | now apply leak_equiv_ret ].
    eapply leak_equiv_bind; [ apply Hbody, Ha | ].
    intros b b' Hb. now apply IH.
Qed.

Lemma leak_equiv_for_range {A} (R : A -> A -> Prop) (lo hi : Z)
      (body body' : Z -> A -> Leakage.leak A) (a a' : A) :
  (forall i a a', R a a' -> leak_equiv R (body i a) (body' i a')) ->
  R a a' ->
  leak_equiv R (Leakage.for_range lo hi body a) (Leakage.for_range lo hi body' a').
Proof. intros Hbody Ha. unfold Leakage.for_range. now apply leak_equiv_loop. Qed.

Lemma leak_equiv_ret_eq {A} (a : A) : leak_equiv eq (Leakage.ret a) (Leakage.ret a).
Proof. split; reflexivity. Qed.

Create HintDb leak.

#[local] Hint Resolve leak_equiv_branch leak_equiv_at leak_equiv_touch leak_equiv_move : leak.

(** One instruction of the two runs: what it reveals is the same, and the
    outcome of a condition or a subscript is the same value in the rest. *)
Ltac leak_step :=
  lazymatch goal with
  | |- leak_equiv _ (Leakage.ret _) (Leakage.ret _) =>
      apply leak_equiv_ret; try exact I
  | |- leak_equiv _ (Leakage.bind (if ?c then _ else _) _)
                     (Leakage.bind (if ?c then _ else _) _) =>
      destruct c
  | |- leak_equiv _ (Leakage.bind (Leakage.bind _ _) _) (Leakage.bind (Leakage.bind _ _) _) =>
      eapply (leak_equiv_bind unconstrained); [ | intros ? ? _ ]
  | |- leak_equiv _ (Leakage.bind (Leakage.ret ?a) _) (Leakage.bind (Leakage.ret ?a) _) =>
      eapply leak_equiv_bind; [ apply leak_equiv_ret_eq | intros ? ? [] ]
  | |- leak_equiv _ (Leakage.bind (Leakage.ret _) _) (Leakage.bind (Leakage.ret _) _) =>
      eapply (leak_equiv_bind unconstrained); [ apply leak_equiv_ret; exact I | intros ? ? _ ]
  | |- leak_equiv _ (Leakage.bind _ _) (Leakage.bind _ _) =>
      eapply leak_equiv_bind; [ solve [ auto with leak ] | intros ? ? [] ]
  | |- leak_equiv _ (if ?c then _ else _) (if ?c then _ else _) =>
      destruct c
  | |- leak_equiv _ (let '(_, _) := ?p in _) _ => destruct p
  | |- leak_equiv _ _ (let '(_, _) := ?p in _) => destruct p
  | |- leak_equiv _ _ _ => solve [ auto with leak ]
  end.

Ltac leak_steps := repeat (cbv beta zeta; leak_step).

Ltac for_range_any :=
  apply (leak_equiv_for_range unconstrained); [ intros ? ? ? _ | exact I ].

Lemma LoadWords_bits_leak pos v s pos' v' s' :
  leak_equiv unconstrained (Leakage.LoadWords_bits pos v s) (Leakage.LoadWords_bits pos' v' s').
Proof.
  unfold Leakage.LoadWords_bits.
  eapply leak_equiv_bind; [ for_range_any | intros; leak_steps ]. leak_steps.
Qed.

#[local] Hint Resolve LoadWords_bits_leak : leak.

Lemma LoadWords_column_leak c w s w' s' :
  leak_equiv unconstrained (Leakage.LoadWords_column c w s) (Leakage.LoadWords_column c w' s').
Proof.
  unfold Leakage.LoadWords_column.
  eapply leak_equiv_bind; [ for_range_any | intros; leak_steps ]. leak_steps.
Qed.

#[local] Hint Resolve LoadWords_column_leak : leak.

Lemma LoadWords_leak s w0 w1 w2 w3 s' w0' w1' w2' w3' :
  leak_equiv unconstrained (Leakage.LoadWords s w0 w1 w2 w3) (Leakage.LoadWords s' w0' w1' w2' w3').
Proof.
  unfold Leakage.LoadWords.
  eapply leak_equiv_bind; [ for_range_any; leak_steps | intros ? ? _ ].
  for_range_any. leak_steps.
Qed.

#[local] Hint Resolve LoadWords_leak : leak.

Lemma LoadBytes_leak s data16 s' data16' :
  leak_equiv unconstrained (Leakage.LoadBytes s data16) (Leakage.LoadBytes s' data16').
Proof. unfold Leakage.LoadBytes. leak_steps. Qed.

Lemma SaveBytes_byte_leak s pos s' pos' :
  leak_equiv unconstrained (Leakage.SaveBytes_byte s pos) (Leakage.SaveBytes_byte s' pos').
Proof. unfold Leakage.SaveBytes_byte. for_range_any. leak_steps. Qed.

#[local] Hint Resolve LoadBytes_leak SaveBytes_byte_leak : leak.

Lemma SaveBytes_leak s s' : leak_equiv unconstrained (Leakage.SaveBytes s) (Leakage.SaveBytes s').
Proof. unfold Leakage.SaveBytes. for_range_any. for_range_any. leak_steps. Qed.

Lemma SubBytes_leak s s' : leak_equiv unconstrained (Leakage.SubBytes s) (Leakage.SubBytes s').
Proof. unfold Leakage.SubBytes. leak_steps. Qed.

Lemma InvSubBytes_leak s s' : leak_equiv unconstrained (Leakage.InvSubBytes s) (Leakage.InvSubBytes s').
Proof. unfold Leakage.InvSubBytes. leak_steps. Qed.

Lemma MixColumns_leak s s' : leak_equiv unconstrained (Leakage.MixColumns s) (Leakage.MixColumns s').
Proof. unfold Leakage.MixColumns. leak_steps. Qed.

Lemma InvMixColumns_leak s s' :
  leak_equiv unconstrained (Leakage.InvMixColumns s) (Leakage.InvMixColumns s').
Proof. unfold Leakage.InvMixColumns. leak_steps. Qed.

Lemma ShiftRows_leak s s' : leak_equiv unconstrained (Leakage.ShiftRows s) (Leakage.ShiftRows s').
Proof. unfold Leakage.ShiftRows. for_range_any. leak_steps. Qed.

Lemma InvShiftRows_leak s s' :
  leak_equiv unconstrained (Leakage.InvShiftRows s) (Leakage.InvShiftRows s').
Proof. unfold Leakage.InvShiftRows. for_range_any. leak_steps. Qed.

Lemma AddRoundKey_leak s round s' round' :
  leak_equiv unconstrained (Leakage.AddRoundKey s round) (Leakage.AddRoundKey s' round').
Proof. unfold Leakage.AddRoundKey. for_range_any. leak_steps. Qed.

#[local] Hint Resolve SaveBytes_leak SubBytes_leak InvSubBytes_leak MixColumns_leak
  InvMixColumns_leak ShiftRows_leak InvShiftRows_leak AddRoundKey_leak : leak.

Lemma SubWord_pack_leak x s x' s' :
  leak_equiv unconstrained (Leakage.SubWord_pack x s) (Leakage.SubWord_pack x' s').
Proof.
  unfold Leakage.SubWord_pack.
  eapply leak_equiv_bind; [ for_range_any | intros; leak_steps ]. leak_steps.
Qed.

Lemma SubWord_unpack_leak s r s' r' :
  leak_equiv unconstrained (Leakage.SubWord_unpack s r) (Leakage.SubWord_unpack s' r').
Proof. unfold Leakage.SubWord_unpack. for_range_any. leak_steps. Qed.

#[local] Hint Resolve SubWord_pack_leak SubWord_unpack_leak : leak.

Lemma SubWord_leak x x' : leak_equiv unconstrained (Leakage.SubWord x) (Leakage.SubWord x').
Proof. unfold Leakage.SubWord. leak_steps. Qed.

Lemma store_round_leak rounds w0 w1 w2 w3 rounds' w0' w1' w2' w3' :
  leak_equiv unconstrained (Leakage.store_round rounds w0 w1 w2 w3)
                 (Leakage.store_round rounds' w0' w1' w2' w3').
Proof. unfold Leakage.store_round. leak_steps. Qed.

#[local] Hint Resolve SubWord_leak store_round_leak : leak.

(** ** The key schedule *)

Lemma AES_setup_load_leak i st st' :
  same_pos st st' ->
  leak_equiv same_pos (Leakage.AES_setup_load i st) (Leakage.AES_setup_load i st').
Proof.
  destruct st as [rcon rk pos key rounds], st' as [rcon' rk' pos' key' rounds'].
  unfold same_pos. cbn [st_pos]. intros <-. unfold Leakage.AES_setup_load.
  leak_steps; reflexivity.
Qed.

Lemma AES_setup_expand_leak nk i st st' :
  same_pos st st' ->
  leak_equiv same_pos (Leakage.AES_setup_expand nk i st) (Leakage.AES_setup_expand nk i st').
Proof.
  destruct st as [rcon rk pos key rounds], st' as [rcon' rk' pos' key' rounds'].
  unfold same_pos. cbn [st_pos]. intros <-. unfold Leakage.AES_setup_expand.
  leak_steps; reflexivity.
Qed.

Lemma AES_setup_leak nk nr key key' :
  leak_equiv unconstrained (Leakage.AES_setup key nk nr) (Leakage.AES_setup key' nk nr).
Proof.
  unfold Leakage.AES_setup. cbv zeta.
  eapply leak_equiv_bind.
  { apply (leak_equiv_for_range same_pos); [ intros; now apply AES_setup_load_leak | ].
    reflexivity. }
  intros st st' Hst.
  eapply leak_equiv_bind.
  { apply (leak_equiv_for_range same_pos); [ intros; now apply AES_setup_expand_leak | ].
    exact Hst. }
  intros; leak_steps.
Qed.

Lemma AES_encrypt_leak nr rounds plain16 rounds' plain16' :
  leak_equiv unconstrained (Leakage.AES_encrypt rounds nr plain16)
                 (Leakage.AES_encrypt rounds' nr plain16').
Proof.
  unfold Leakage.AES_encrypt. leak_steps.
  eapply leak_equiv_bind; [ for_range_any; leak_steps | intros ? ? _ ].
  leak_steps.
Qed.

Lemma AES_decrypt_leak nr rounds cipher16 rounds' cipher16' :
  leak_equiv unconstrained (Leakage.AES_decrypt rounds nr cipher16)
                 (Leakage.AES_decrypt rounds' nr cipher16').
Proof.
  unfold Leakage.AES_decrypt. leak_steps.
  eapply leak_equiv_bind; [ for_range_any; leak_steps | intros ? ? _ ].
  leak_steps.
Qed.

(** What is revealed depends on the variant: the three key schedules differ
    in the number of conditions and accesses. *)
Example AES_setup_leakage_length :
  Z.of_nat (length (Leakage.leakage (Leakage.AES128_init kat128_key))) = 4452 /\
  Z.of_nat (length (Leakage.leakage (Leakage.AES192_init kat192_key))) = 5074 /\
  Z.of_nat (length (Leakage.leakage (Leakage.AES256_init kat256_key))) = 6090.
Proof. vm_compute. repeat split. Qed.

(** C6: no condition and no array subscript of init, encrypt or decrypt
    depends on the key, the plaintext or the ciphertext.  In the instrumented
    translation, which computes the same results as the plain one, the
    sequence of condition outcomes, array subscripts and pointer moves of a
    run is the same for unconstrained two keys (key schedule, for every [Nk] and [Nr])
    and for unconstrained two contexts and input blocks (encryption and decryption, for
    every [Nr]); in particular for the nine entry points.  Running time is
    not a quantity of this model: it is covered as far as it is determined
    by that sequence. *)
Theorem constant_time :
  ((forall nk nr key key',
      Leakage.leakage (Leakage.AES_setup key nk nr) =
      Leakage.leakage (Leakage.AES_setup key' nk nr)) /\
   (forall nr rounds plain16 rounds' plain16',
      Leakage.leakage (Leakage.AES_encrypt rounds nr plain16) =
      Leakage.leakage (Leakage.AES_encrypt rounds' nr plain16')) /\
   (forall nr rounds cipher16 rounds' cipher16',
      Leakage.leakage (Leakage.AES_decrypt rounds nr cipher16) =
      Leakage.leakage (Leakage.AES_decrypt rounds' nr cipher16'))) /\
  ((forall key key',
      Leakage.leakage (Leakage.AES128_init key) = Leakage.leakage (Leakage.AES128_init key') /\
      Leakage.leakage (Leakage.AES192_init key) = Leakage.leakage (Leakage.AES192_init key') /\
      Leakage.leakage (Leakage.AES256_init key) = Leakage.leakage (Leakage.AES256_init key')) /\
   (forall ctx data16 ctx' data16',
      Leakage.leakage (Leakage.AES128_encrypt ctx data16) =
      Leakage.leakage (Leakage.AES128_encrypt ctx' data16') /\
      Leakage.leakage (Leakage.AES192_encrypt ctx data16) =
      Leakage.leakage (Leakage.AES192_encrypt ctx' data16') /\
      Leakage.leakage (Leakage.AES256_encrypt ctx data16) =
      Leakage.leakage (Leakage.AES256_encrypt ctx' data16')) /\
   (forall ctx data16 ctx' data16',
      Leakage.leakage (Leakage.AES128_decrypt ctx data16) =
      Leakage.leakage (Leakage.AES128_decrypt ctx' data16') /\
      Leakage.leakage (Leakage.AES192_decrypt ctx data16) =
      Leakage.leakage (Leakage.AES192_decrypt ctx' data16') /\
      Leakage.leakage (Leakage.AES256_decrypt ctx data16) =
      Leakage.leakage (Leakage.AES256_decrypt ctx' data16'))) /\
  ((forall nk nr key, Leakage.result (Leakage.AES_setup key nk nr) = AES_setup key nk nr) /\
   (forall nr rounds plain16,
      Leakage.result (Leakage.AES_encrypt rounds nr plain16) = AES_encrypt rounds nr plain16) /\
   (forall nr rounds cipher16,
      Leakage.result (Leakage.AES_decrypt rounds nr cipher16) =
      AES_decrypt rounds nr cipher16)).
Proof.
  assert (Hs := fun nk nr key key' => proj1 (AES_setup_leak nk nr key key')).
  assert (He := fun nr r p r' p' => proj1 (AES_encrypt_leak nr r p r' p')).
  assert (Hd := fun nr r c r' c' => proj1 (AES_decrypt_leak nr r c r' c')).
  split; [ | split ].
  - split; [ exact Hs | split; [ exact He | exact Hd ] ].
  - split; [ | split ].
    + intros key key'. unfold Leakage.AES128_init, Leakage.AES192_init, Leakage.AES256_init.
      split; [ apply Hs | split; apply Hs ].
    + intros ctx d ctx' d'.
      unfold Leakage.AES128_encrypt, Leakage.AES192_encrypt, Leakage.AES256_encrypt.
      split; [ apply He | split; apply He ].
    + intros ctx d ctx' d'.
      unfold Leakage.AES128_decrypt, Leakage.AES192_decrypt, Leakage.AES256_decrypt.
      split; [ apply Hd | split; apply Hd ].
  - split; [ | split ].
    + intros. apply result_AES_setup.
    + intros. apply result_AES_encrypt.
    + intros. apply result_AES_decrypt.
Qed.

(** * The layers undo their inverses *)

Lemma ShiftRows_InvShiftRows_word v :
  0 <= v < 65536 ->
  u16 (ShiftRows_word (u16 (u16 (InvShiftRows_word (u16 v))))) = v.
Proof.
  intros Hv. apply Z.eqb_eq. revert v Hv.
  apply (forall_words
    (fun v => u16 (ShiftRows_word (u16 (u16 (InvShiftRows_word (u16 v))))) =? v)).
  vm_compute. reflexivity.
Qed.

Lemma ShiftRows_InvShiftRows s : wf_state s -> ShiftRows (InvShiftRows s) = s.
Proof.
  destruct s as [a0 a1 a2 a3 a4 a5 a6 a7]. unfold wf_state.
  cbn [slice0 slice1 slice2 slice3 slice4 slice5 slice6 slice7].
  intros ((A0 & A1 & A2 & A3) & A4 & A5 & A6 & A7).
  rewrite InvShiftRows_unfold, ShiftRows_unfold.
  f_equal; now apply ShiftRows_InvShiftRows_word.
Qed.

Lemma MixColumns_InvMixColumns_bits (c : Z -> Z -> bool) i :
  0 <= i < 8 ->
  MixColumns_bits (fun j k => InvMixColumns_bits (fun j' k' => c j' ((k + k') mod 4)) j) i = c i 0.
Proof.
  intros Hi. enum8 i; cbv - [xorb]; btauto.
Qed.

Lemma MixColumns_InvMixColumns s : wf_state s -> MixColumns (InvMixColumns s) = s.
Proof.
  intros Hwf. apply state_ext; [ apply MixColumns_wf | assumption | ].
  intros i p Hi Hp. rewrite MixColumns_bit by assumption.
  rewrite (MixColumns_bits_ext _
             (fun j k => InvMixColumns_bits (fun j' k' => bits_from s p j' ((k + k') mod 4)) j)).
  - rewrite MixColumns_InvMixColumns_bits by assumption.
    unfold bits_from. now rewrite rowrot_0.
  - intros j k Hj Hk. unfold bits_from at 1.
    rewrite InvMixColumns_bit by (assumption || apply rowrot_range).
    apply InvMixColumns_bits_ext; [ | assumption ].
    intros j' k' _ _. apply bits_from_rowrot.
  - assumption.
Qed.

Lemma fips_sbox_inv_sbox x : 0 <= x < 256 -> fips_sbox (fips_inv_sbox x) = x.
Proof.
  intros Hx. apply Z.eqb_eq. revert x Hx.
  apply (forall_bytes (fun x => fips_sbox (fips_inv_sbox x) =? x)).
  vm_compute. reflexivity.
Qed.

Lemma SubBytes_InvSubBytes s : wf_state s -> SubBytes (InvSubBytes s) = s.
Proof.
  intros Hwf. apply state_ext; [ apply SubBytes_wf | assumption | ].
  intros i p Hi Hp.
  rewrite <- !SaveBytes_byte_bit by lia.
  rewrite SubBytes_cell, InvSubBytes_cell by assumption.
  rewrite fips_sbox_inv_sbox by apply SaveBytes_byte_range. reflexivity.
Qed.

(** The encryption rounds undo the decryption rounds, last round first. *)
Lemma encrypt_rounds_undo rounds n : forall i j s rp,
  wf_state s ->
  let st := loop n i (decrypt_round rounds) (s, rp) in
  snd st = rp - Z.of_nat n /\ wf_state (fst st) /\
  loop n j (encrypt_round rounds) (InvSubBytes (InvShiftRows (fst st)), snd st + 1) =
  (InvSubBytes (InvShiftRows s), rp + 1).
Proof.
  induction n as [ | n IH ]; intros i j s rp Hwf; cbv zeta.
  - cbn [loop fst snd]. rewrite Z.sub_0_r. auto.
  - change (loop (S n) i (decrypt_round rounds) (s, rp))
      with (loop n (i + 1) (decrypt_round rounds)
              (InvMixColumns (AddRoundKey (InvSubBytes (InvShiftRows s)) (round_key rounds rp)),
               rp - 1)).
    specialize (IH (i + 1) j _ (rp - 1)
                  (InvMixColumns_wf (AddRoundKey (InvSubBytes (InvShiftRows s))
                                                 (round_key rounds rp)))).
    cbv zeta in IH. destruct IH as (Hrp & Hwf' & Henc).
    split; [ lia | split; [ assumption | ] ].
    rewrite loop_last, Henc. cbn [encrypt_round].
    replace (rp - 1 + 1) with rp by lia.
    rewrite SubBytes_InvSubBytes by apply InvShiftRows_wf.
    rewrite ShiftRows_InvShiftRows by apply InvMixColumns_wf.
    rewrite MixColumns_InvMixColumns by apply AddRoundKey_wf.
    rewrite AddRoundKey_twice by apply InvSubBytes_wf.
    reflexivity.
Qed.

Lemma AES_encrypt_decrypt rounds nrounds cipher16 :
  1 <= nrounds -> length cipher16 = 16%nat -> Forall is_byte cipher16 ->
  AES_encrypt rounds nrounds (AES_decrypt rounds nrounds cipher16) = cipher16.
Proof.
  intros Hn Hlen Hb. rewrite AES_encrypt_unfold, AES_decrypt_unfold. cbv zeta.
  pose proof (encrypt_rounds_undo rounds (Z.to_nat (nrounds - 1)) 1 1
                (AddRoundKey (LoadBytes uninit_state cipher16) (round_key rounds (0 + nrounds)))
                (0 + nrounds - 1) (AddRoundKey_wf _ _)) as H.
  cbv zeta in H. destruct H as (Hrp & Hwf & Henc).
  destruct (loop (Z.to_nat (nrounds - 1)) 1 (decrypt_round rounds) _) as [s rp].
  cbn [fst snd] in *.
  rewrite LoadBytes_SaveBytes by apply AddRoundKey_wf.
  assert (Hrp0 : rp = 0) by lia.
  rewrite Hrp0 in Henc |- *. change (0 + 1) with 1 in Henc.
  rewrite AddRoundKey_twice by apply InvSubBytes_wf.
  rewrite Henc. cbn [fst snd].
  rewrite SubBytes_InvSubBytes by apply InvShiftRows_wf.
  rewrite ShiftRows_InvShiftRows by apply AddRoundKey_wf.
  replace (0 + nrounds - 1 + 1) with (0 + nrounds) by lia.
  rewrite AddRoundKey_twice by apply LoadBytes_wf.
  now apply SaveBytes_LoadBytes.
Qed.

(** * The layers on the decoded bytes *)

(** Column [c'] of row [r] after a rotation of the row by [k] places to the
    left. *)
Lemma ShiftRows_word_bit v r c :
  0 <= r < 4 -> 0 <= c < 4 ->
  Z.testbit (u16 (ShiftRows_word (u16 v))) (r * 4 + c) = Z.testbit v (r * 4 + (c + r) mod 4).
Proof.
  intros Hr Hc. unfold ShiftRows_word.
  enum4 r; enum4 c; cbn [Z.mul Z.add Z.modulo Z.div_eucl Z.pos_div_eucl Pos.mul Pos.add];
    bits_auto.
Qed.

Lemma InvShiftRows_word_bit v r c :
  0 <= r < 4 -> 0 <= c < 4 ->
  Z.testbit (u16 (InvShiftRows_word (u16 v))) (r * 4 + c) = Z.testbit v (r * 4 + (c - r) mod 4).
Proof.
  intros Hr Hc. unfold InvShiftRows_word.
  enum4 r; enum4 c; cbn [Z.mul Z.add Z.modulo Z.div_eucl Z.pos_div_eucl Pos.mul Pos.add];
    bits_auto.
Qed.

Lemma ShiftRows_bit s i r c :
  0 <= i < 8 -> 0 <= r < 4 -> 0 <= c < 4 ->
  Z.testbit (slice (ShiftRows s) i) (r * 4 + c) =
  Z.testbit (slice s i) (r * 4 + (c + r) mod 4).
Proof.
  intros Hi Hr Hc. destruct s as [a0 a1 a2 a3 a4 a5 a6 a7]. rewrite ShiftRows_unfold.
  enum8 i; cbv beta iota delta [slice slice0 slice1 slice2 slice3 slice4 slice5 slice6 slice7];
    now apply ShiftRows_word_bit.
Qed.

Lemma InvShiftRows_bit s i r c :
  0 <= i < 8 -> 0 <= r < 4 -> 0 <= c < 4 ->
  Z.testbit (slice (InvShiftRows s) i) (r * 4 + c) =
  Z.testbit (slice s i) (r * 4 + (c - r) mod 4).
Proof.
  intros Hi Hr Hc. destruct s as [a0 a1 a2 a3 a4 a5 a6 a7]. rewrite InvShiftRows_unfold.
  enum8 i; cbv beta iota delta [slice slice0 slice1 slice2 slice3 slice4 slice5 slice6 slice7];
    now apply InvShiftRows_word_bit.
Qed.

Lemma cell_ext s s' r c r' c' :
  0 <= r < 4 -> 0 <= c < 4 -> 0 <= r' < 4 -> 0 <= c' < 4 ->
  (forall i, 0 <= i < 8 ->
     Z.testbit (slice s i) (r * 4 + c) = Z.testbit (slice s' i) (r' * 4 + c')) ->
  cell s r c = cell s' r' c'.
Proof.
  intros Hr Hc Hr' Hc' H. unfold cell. apply (bits_ext 8); try lia.
  - apply SaveBytes_byte_range.
  - apply SaveBytes_byte_range.
  - intros i Hi. rewrite !SaveBytes_byte_bit by lia. now apply H.
Qed.

Lemma ShiftRows_cell s r c :
  0 <= r < 4 -> 0 <= c < 4 -> cell (ShiftRows s) r c = cell s r ((c + r) mod 4).
Proof.
  intros Hr Hc. apply cell_ext; try lia.
  - apply Z.mod_pos_bound. lia.
  - intros i Hi. now apply ShiftRows_bit.
Qed.

Lemma InvShiftRows_cell s r c :
  0 <= r < 4 -> 0 <= c < 4 -> cell (InvShiftRows s) r c = cell s r ((c - r) mod 4).
Proof.
  intros Hr Hc. apply cell_ext; try lia.
  - apply Z.mod_pos_bound. lia.
  - intros i Hi. now apply InvShiftRows_bit.
Qed.

Lemma AddRoundKey_bit s k i p :
  0 <= i < 8 -> 0 <= p < 16 ->
  Z.testbit (slice (AddRoundKey s k) i) p =
  xorb (Z.testbit (slice s i) p) (Z.testbit (slice k i) p).
Proof.
  intros Hi Hp. destruct s as [a0 a1 a2 a3 a4 a5 a6 a7], k as [k0 k1 k2 k3 k4 k5 k6 k7].
  rewrite AddRoundKey_unfold.
  enum8 i; cbv beta iota delta [slice slice0 slice1 slice2 slice3 slice4 slice5 slice6 slice7];
    rewrite testbit_u16_low by lia; apply Z.lxor_spec.
Qed.

Lemma AddRoundKey_cell s k r c :
  0 <= r < 4 -> 0 <= c < 4 ->
  cell (AddRoundKey s k) r c = Z.lxor (cell s r c) (cell k r c).
Proof.
  intros Hr Hc. unfold cell. apply (bits_ext 8); try lia.
  - apply SaveBytes_byte_range.
  - apply lxor_byte; apply SaveBytes_byte_range.
  - intros i Hi. rewrite Z.lxor_spec, !SaveBytes_byte_bit by lia.
    apply AddRoundKey_bit; lia.
Qed.

(** * The cipher of FIPS-197 on blocks of bytes *)

Lemma SaveBytes_block s : SaveBytes s = fips_block (cell s).
Proof. rewrite SaveBytes_unfold. reflexivity. Qed.

Lemma fips_at_block f r c :
  0 <= r < 4 -> 0 <= c < 4 -> fips_at (fips_block f) r c = f r c.
Proof. intros Hr Hc. enum4 r; enum4 c; reflexivity. Qed.

Lemma fips_block_ext f g :
  (forall r c, 0 <= r < 4 -> 0 <= c < 4 -> f r c = g r c) -> fips_block f = fips_block g.
Proof. intros H. unfold fips_block. rewrite !H by lia. reflexivity. Qed.

Lemma fips_at_SaveBytes s r c :
  0 <= r < 4 -> 0 <= c < 4 -> fips_at (SaveBytes s) r c = cell s r c.
Proof. intros Hr Hc. rewrite SaveBytes_block. now apply fips_at_block. Qed.

Ltac block_cells :=
  rewrite (SaveBytes_block (_ _)); apply fips_block_ext; intros r c Hr Hc;
  rewrite ?fips_at_SaveBytes by (lia || (apply Z.mod_pos_bound; lia)).

Lemma SaveBytes_SubBytes s : SaveBytes (SubBytes s) = fips_SubBytes (SaveBytes s).
Proof. unfold fips_SubBytes. block_cells. apply SubBytes_cell. lia. Qed.

Lemma SaveBytes_InvSubBytes s : SaveBytes (InvSubBytes s) = fips_InvSubBytes (SaveBytes s).
Proof. unfold fips_InvSubBytes. block_cells. apply InvSubBytes_cell. lia. Qed.

Lemma SaveBytes_ShiftRows s : SaveBytes (ShiftRows s) = fips_ShiftRows (SaveBytes s).
Proof. unfold fips_ShiftRows. block_cells. now apply ShiftRows_cell. Qed.

Lemma SaveBytes_InvShiftRows s : SaveBytes (InvShiftRows s) = fips_InvShiftRows (SaveBytes s).
Proof. unfold fips_InvShiftRows. block_cells. now apply InvShiftRows_cell. Qed.

Lemma SaveBytes_AddRoundKey s k :
  SaveBytes (AddRoundKey s k) = fips_AddRoundKey (SaveBytes s) (SaveBytes k).
Proof.
  unfold fips_AddRoundKey. rewrite (SaveBytes_block (AddRoundKey s k)).
  apply fips_block_ext. intros r c Hr Hc. rewrite !fips_at_SaveBytes by lia.
  now apply AddRoundKey_cell.
Qed.

Lemma MixColumns_cell_fips s r c :
  0 <= r < 4 -> 0 <= c < 4 ->
  cell (MixColumns s) r c =
  fips_mix_byte (cell s r c) (cell s ((r + 1) mod 4) c)
                (cell s ((r + 2) mod 4) c) (cell s ((r + 3) mod 4) c).
Proof.
  intros Hr Hc. unfold cell.
  assert (0 <= r * 4 + c < 16) as Hp by lia.
  pose proof (MixColumns_cell s _ Hp) as HM.
  rewrite !rowrot_cell in HM by lia.
  rewrite Z.add_0_r, (Z.mod_small r 4) in HM by lia.
  rewrite fips_mix_byte_spec by apply SaveBytes_byte_range. exact HM.
Qed.

Lemma InvMixColumns_cell_fips s r c :
  0 <= r < 4 -> 0 <= c < 4 ->
  cell (InvMixColumns s) r c =
  fips_inv_mix_byte (cell s r c) (cell s ((r + 1) mod 4) c)
                    (cell s ((r + 2) mod 4) c) (cell s ((r + 3) mod 4) c).
Proof.
  intros Hr Hc. unfold cell.
  assert (0 <= r * 4 + c < 16) as Hp by lia.
  pose proof (InvMixColumns_cell s _ Hp) as HI.
  rewrite !rowrot_cell in HI by lia.
  rewrite Z.add_0_r, (Z.mod_small r 4) in HI by lia.
  rewrite fips_inv_mix_byte_spec by apply SaveBytes_byte_range. exact HI.
Qed.

Lemma SaveBytes_MixColumns s : SaveBytes (MixColumns s) = fips_MixColumns (SaveBytes s).
Proof. unfold fips_MixColumns. block_cells. now apply MixColumns_cell_fips. Qed.

Lemma SaveBytes_InvMixColumns s :
  SaveBytes (InvMixColumns s) = fips_InvMixColumns (SaveBytes s).
Proof. unfold fips_InvMixColumns. block_cells. now apply InvMixColumns_cell_fips. Qed.

(** [LoadWords] puts byte [r] of word [c], most significant first, at row
    [r] of column [c]. *)
Lemma LoadWords_cell s w0 w1 w2 w3 r c :
  0 <= r < 4 -> 0 <= c < 4 ->
  cell (LoadWords s w0 w1 w2 w3) r c = idx [w0; w1; w2; w3] c / 2 ^ (8 * (3 - r)) mod 256.
Proof.
  intros Hr Hc. rewrite <- word_byte_div by lia. unfold cell.
  apply (bits_ext 8); try lia.
  - apply SaveBytes_byte_range.
  - apply word_byte_range.
  - intros i Hi. rewrite SaveBytes_byte_bit, LoadWords_bit, word_byte_bit by lia.
    reflexivity.
Qed.

Lemma SaveBytes_round_key nk nr key j :
  1 <= nk <= 8 -> nk <= 4 * (nr + 1) -> Forall is_byte key -> 0 <= j <= nr ->
  SaveBytes (round_key (AES_setup key nk nr) j) =
  fips_round_key_block (fips_schedule nk nr key) j.
Proof.
  intros Hnk Hnr Hkey Hj. rewrite (AES_setup_fips nk nr key Hnk Hnr Hkey).
  unfold round_key, fips_round_keys. fold (fips_schedule nk nr key).
  rewrite nth_indep with (d' := fips_round_key (fips_schedule nk nr key) 0%nat)
    by (rewrite length_map, length_seq; lia).
  rewrite map_nth, seq_nth by lia.
  unfold fips_round_key, fips_round_key_block. cbv zeta.
  rewrite Nat.add_0_l, Z2Nat.id by lia.
  rewrite SaveBytes_block. apply fips_block_ext. intros r c Hr Hc.
  rewrite LoadWords_cell by assumption.
  enum4 c; rewrite ?Z.add_0_r; reflexivity.
Qed.

(** * The round drivers compute the cipher and the inverse cipher *)

Lemma loop_S {A} (body : Z -> A -> A) n i a :
  loop (S n) i body a = loop n (i + 1) body (body i a).
Proof. reflexivity. Qed.

Lemma encrypt_round_eq rounds round s rp :
  encrypt_round rounds round (s, rp) =
  (AddRoundKey (MixColumns (ShiftRows (SubBytes s))) (round_key rounds rp), rp + 1).
Proof. reflexivity. Qed.

Lemma decrypt_round_eq rounds round s rp :
  decrypt_round rounds round (s, rp) =
  (InvMixColumns (AddRoundKey (InvSubBytes (InvShiftRows s)) (round_key rounds rp)), rp - 1).
Proof. reflexivity. Qed.

Lemma fips_rounds_S n round w B :
  fips_rounds (S n) round w B =
  fips_rounds n (round + 1) w
    (fips_AddRoundKey (fips_MixColumns (fips_ShiftRows (fips_SubBytes B)))
                      (fips_round_key_block w round)).
Proof. reflexivity. Qed.

Lemma fips_inv_rounds_S n round w B :
  fips_inv_rounds (S n) round w B =
  fips_inv_rounds n (round - 1) w
    (fips_InvMixColumns
       (fips_AddRoundKey (fips_InvSubBytes (fips_InvShiftRows B))
                         (fips_round_key_block w round))).
Proof. reflexivity. Qed.

Lemma encrypt_rounds_fips rounds w n : forall i s rp,
  (forall j, rp <= j < rp + Z.of_nat n ->
     SaveBytes (round_key rounds j) = fips_round_key_block w j) ->
  SaveBytes (fst (loop n i (encrypt_round rounds) (s, rp))) = fips_rounds n rp w (SaveBytes s) /\
  snd (loop n i (encrypt_round rounds) (s, rp)) = rp + Z.of_nat n.
Proof.
  induction n as [ | n IH ]; intros i s rp Hrk.
  - split; [ reflexivity | ]. cbn [loop snd]. lia.
  - rewrite loop_S, encrypt_round_eq, fips_rounds_S.
    destruct (IH (i + 1) (AddRoundKey (MixColumns (ShiftRows (SubBytes s)))
                                      (round_key rounds rp)) (rp + 1)) as [H1 H2].
    { intros j Hj. apply Hrk. lia. }
    rewrite H1, H2. split; [ | lia ].
    rewrite SaveBytes_AddRoundKey, SaveBytes_MixColumns, SaveBytes_ShiftRows,
            SaveBytes_SubBytes, Hrk by lia.
    reflexivity.
Qed.

Lemma decrypt_rounds_fips rounds w n : forall i s rp,
  (forall j, rp - Z.of_nat n < j <= rp ->
     SaveBytes (round_key rounds j) = fips_round_key_block w j) ->
  SaveBytes (fst (loop n i (decrypt_round rounds) (s, rp))) =
    fips_inv_rounds n rp w (SaveBytes s) /\
  snd (loop n i (decrypt_round rounds) (s, rp)) = rp - Z.of_nat n.
Proof.
  induction n as [ | n IH ]; intros i s rp Hrk.
  - split; [ reflexivity | ]. cbn [loop snd]. lia.
  - rewrite loop_S, decrypt_round_eq, fips_inv_rounds_S.
    destruct (IH (i + 1) (InvMixColumns (AddRoundKey (InvSubBytes (InvShiftRows s))
                                                     (round_key rounds rp))) (rp - 1))
      as [H1 H2].
    { intros j Hj. apply Hrk. lia. }
    rewrite H1, H2. split; [ | lia ].
    rewrite SaveBytes_InvMixColumns, SaveBytes_AddRoundKey, SaveBytes_InvSubBytes,
            SaveBytes_InvShiftRows, Hrk by lia.
    reflexivity.
Qed.

Lemma AES_encrypt_fips rounds w nr plain16 :
  1 <= nr -> length plain16 = 16%nat -> Forall is_byte plain16 ->
  (forall j, 0 <= j <= nr -> SaveBytes (round_key rounds j) = fips_round_key_block w j) ->
  AES_encrypt rounds nr plain16 = fips_Cipher nr w plain16.
Proof.
  intros Hnr Hlen Hb Hrk. rewrite AES_encrypt_unfold. cbv zeta.
  destruct (encrypt_rounds_fips rounds w (Z.to_nat (nr - 1)) 1
              (AddRoundKey (LoadBytes uninit_state plain16) (round_key rounds 0)) 1)
    as [H1 H2].
  { intros j Hj. apply Hrk. lia. }
  rewrite SaveBytes_AddRoundKey, SaveBytes_ShiftRows, SaveBytes_SubBytes, H1, H2.
  rewrite SaveBytes_AddRoundKey, SaveBytes_LoadBytes, !Hrk by (assumption || lia).
  unfold fips_Cipher. cbv zeta. do 2 f_equal. lia.
Qed.

Lemma AES_decrypt_fips rounds w nr cipher16 :
  1 <= nr -> length cipher16 = 16%nat -> Forall is_byte cipher16 ->
  (forall j, 0 <= j <= nr -> SaveBytes (round_key rounds j) = fips_round_key_block w j) ->
  AES_decrypt rounds nr cipher16 = fips_InvCipher nr w cipher16.
Proof.
  intros Hnr Hlen Hb Hrk. rewrite AES_decrypt_unfold. cbv zeta.
  destruct (decrypt_rounds_fips rounds w (Z.to_nat (nr - 1)) 1
              (AddRoundKey (LoadBytes uninit_state cipher16) (round_key rounds (0 + nr)))
              (0 + nr - 1)) as [H1 H2].
  { intros j Hj. apply Hrk. lia. }
  rewrite SaveBytes_AddRoundKey, SaveBytes_InvSubBytes, SaveBytes_InvShiftRows, H1, H2.
  rewrite SaveBytes_AddRoundKey, SaveBytes_LoadBytes, !Hrk by (assumption || lia).
  unfold fips_InvCipher. cbv zeta.
  replace (0 + nr - 1 - Z.of_nat (Z.to_nat (nr - 1))) with 0 by lia.
  replace (0 + nr - 1) with (nr - 1) by lia.
  replace (0 + nr) with nr by lia.
  reflexivity.
Qed.

Lemma AES_encrypt_setup_fips nk nr key plain16 :
  1 <= nk <= 8 -> nk <= 4 * (nr + 1) -> 1 <= nr ->
  Forall is_byte key -> length plain16 = 16%nat -> Forall is_byte plain16 ->
  AES_encrypt (AES_setup key nk nr) nr plain16 =
  fips_Cipher nr (fips_schedule nk nr key) plain16.
Proof.
  intros Hnk Hnr H1 Hkey Hlen Hb. apply AES_encrypt_fips; try assumption.
  intros j Hj. now apply SaveBytes_round_key.
Qed.

Lemma AES_decrypt_setup_fips nk nr key cipher16 :
  1 <= nk <= 8 -> nk <= 4 * (nr + 1) -> 1 <= nr ->
  Forall is_byte key -> length cipher16 = 16%nat -> Forall is_byte cipher16 ->
  AES_decrypt (AES_setup key nk nr) nr cipher16 =
  fips_InvCipher nr (fips_schedule nk nr key) cipher16.
Proof.
  intros Hnk Hnr H1 Hkey Hlen Hb. apply AES_decrypt_fips; try assumption.
  intros j Hj. now apply SaveBytes_round_key.
Qed.

(** The reference cipher on the example of FIPS-197 appendix B. *)
Example fips_Cipher_appendix_B :
  fips_Cipher 10 (fips_schedule 4 10 katB_key) katB_plain = katB_cipher /\
  fips_InvCipher 10 (fips_schedule 4 10 katB_key) katB_cipher = katB_plain.
Proof. vm_compute. split; reflexivity. Qed.

(** * Where the accesses of a run fall *)

(** X17: whatever the key, the key schedule of each variant reads the
    [4 Nk] key bytes each once and in order, writes the round key slots
    [0 .. Nr] each once and in order, and indexes the ring buffer [rk] and
    the slice arrays only within their eight elements. *)
Theorem key_schedule_accesses (key : list Z) :
  (accessed Leakage.a_key (Leakage.AES128_init key) = zrange 0 16 /\
   accessed Leakage.a_rounds (Leakage.AES128_init key) = zrange 0 11 /\
   below 8 (accessed Leakage.a_rk (Leakage.AES128_init key)) = true /\
   below 8 (accessed Leakage.a_slice (Leakage.AES128_init key)) = true) /\
  (accessed Leakage.a_key (Leakage.AES192_init key) = zrange 0 24 /\
   accessed Leakage.a_rounds (Leakage.AES192_init key) = zrange 0 13 /\
   below 8 (accessed Leakage.a_rk (Leakage.AES192_init key)) = true /\
   below 8 (accessed Leakage.a_slice (Leakage.AES192_init key)) = true) /\
  (accessed Leakage.a_key (Leakage.AES256_init key) = zrange 0 32 /\
   accessed Leakage.a_rounds (Leakage.AES256_init key) = zrange 0 15 /\
   below 8 (accessed Leakage.a_rk (Leakage.AES256_init key)) = true /\
   below 8 (accessed Leakage.a_slice (Leakage.AES256_init key)) = true).
Proof. vm_compute. repeat split. Qed.

(** X18: whatever the context and the block, encryption reads the round
    keys [0 .. Nr] in this order and decryption in the reverse order, each
    once, and both index the slice arrays of the state and of the round key
    only within their eight elements. *)
Theorem cipher_accesses (ctx : list AES_state) (data16 : list Z) :
  (accessed Leakage.a_rounds (Leakage.AES128_encrypt ctx data16) = zrange 0 11 /\
   accessed Leakage.a_rounds (Leakage.AES192_encrypt ctx data16) = zrange 0 13 /\
   accessed Leakage.a_rounds (Leakage.AES256_encrypt ctx data16) = zrange 0 15) /\
  (accessed Leakage.a_rounds (Leakage.AES128_decrypt ctx data16) = rev (zrange 0 11) /\
   accessed Leakage.a_rounds (Leakage.AES192_decrypt ctx data16) = rev (zrange 0 13) /\
   accessed Leakage.a_rounds (Leakage.AES256_decrypt ctx data16) = rev (zrange 0 15)) /\
  (below 8 (accessed Leakage.a_slice (Leakage.AES128_encrypt ctx data16)) = true /\
   below 8 (accessed Leakage.a_slice (Leakage.AES192_encrypt ctx data16)) = true /\
   below 8 (accessed Leakage.a_slice (Leakage.AES256_encrypt ctx data16)) = true /\
   below 8 (accessed Leakage.a_round (Leakage.AES128_encrypt ctx data16)) = true /\
   below 8 (accessed Leakage.a_round (Leakage.AES192_encrypt ctx data16)) = true /\
   below 8 (accessed Leakage.a_round (Leakage.AES256_encrypt ctx data16)) = true) /\
  (below 8 (accessed Leakage.a_slice (Leakage.AES128_decrypt ctx data16)) = true /\
   below 8 (accessed Leakage.a_slice (Leakage.AES192_decrypt ctx data16)) = true /\
   below 8 (accessed Leakage.a_slice (Leakage.AES256_decrypt ctx data16)) = true /\
   below 8 (accessed Leakage.a_round (Leakage.AES128_decrypt ctx data16)) = true /\
   below 8 (accessed Leakage.a_round (Leakage.AES192_decrypt ctx data16)) = true /\
   below 8 (accessed Leakage.a_round (Leakage.AES256_decrypt ctx data16)) = true).
Proof. vm_compute. repeat split. Qed.

(** X19: [LoadBytes] reads and [SaveBytes] writes the sixteen bytes of its
    block, each once and in order, and nothing beyond them. *)
Theorem codec_accesses (s : AES_state) (data16 : list Z) :
  accessed Leakage.a_data16 (Leakage.LoadBytes s data16) = zrange 0 16 /\
  accessed Leakage.a_data16 (Leakage.SaveBytes s) = zrange 0 16.
Proof. vm_compute. repeat split. Qed.

(** * How the layers compose *)

(** Two states of 16-bit slice words that decode to the same sixteen bytes
    are the same state. *)
Lemma cells_ext s s' :
  wf_state s -> wf_state s' ->
  (forall r c, 0 <= r < 4 -> 0 <= c < 4 -> cell s r c = cell s' r c) -> s = s'.
Proof.
  intros Hs Hs' H. apply state_ext; try assumption.
  intros i p Hi Hp. revert p Hp. apply bit_cases_16. intros r Hr c Hc.
  rewrite <- !SaveBytes_byte_bit by lia. fold (cell s r c). fold (cell s' r c).
  now rewrite H.
Qed.

Lemma ShiftRows_SubBytes s : ShiftRows (SubBytes s) = SubBytes (ShiftRows s).
Proof.
  apply cells_ext; [ apply ShiftRows_wf | apply SubBytes_wf | ].
  intros r c Hr Hc. rewrite ShiftRows_cell by assumption.
  assert (0 <= (c + r) mod 4 < 4) as Hc' by (apply Z.mod_pos_bound; lia).
  unfold cell. rewrite !SubBytes_cell by lia.
  fold (cell (ShiftRows s) r c). fold (cell s r ((c + r) mod 4)).
  now rewrite ShiftRows_cell.
Qed.

Lemma InvShiftRows_InvSubBytes s : InvShiftRows (InvSubBytes s) = InvSubBytes (InvShiftRows s).
Proof.
  apply cells_ext; [ apply InvShiftRows_wf | apply InvSubBytes_wf | ].
  intros r c Hr Hc. rewrite InvShiftRows_cell by assumption.
  assert (0 <= (c - r) mod 4 < 4) as Hc' by (apply Z.mod_pos_bound; lia).
  unfold cell. rewrite !InvSubBytes_cell by lia.
  fold (cell (InvShiftRows s) r c). fold (cell s r ((c - r) mod 4)).
  now rewrite InvShiftRows_cell.
Qed.

Lemma MixColumns_bits_xor (a b : Z -> Z -> bool) i :
  0 <= i < 8 ->
  MixColumns_bits (fun j k => xorb (a j k) (b j k)) i =
  xorb (MixColumns_bits a i) (MixColumns_bits b i).
Proof. intros Hi. enum8 i; cbv - [xorb]; btauto. Qed.

Lemma InvMixColumns_bits_xor (a b : Z -> Z -> bool) i :
  0 <= i < 8 ->
  InvMixColumns_bits (fun j k => xorb (a j k) (b j k)) i =
  xorb (InvMixColumns_bits a i) (InvMixColumns_bits b i).
Proof. intros Hi. enum8 i; cbv - [xorb]; btauto. Qed.

Lemma bits_from_AddRoundKey s k p j k' :
  0 <= j < 8 ->
  bits_from (AddRoundKey s k) p j k' = xorb (bits_from s p j k') (bits_from k p j k').
Proof. intros Hj. unfold bits_from. apply AddRoundKey_bit; [ assumption | apply rowrot_range ]. Qed.

Lemma MixColumns_AddRoundKey s k :
  MixColumns (AddRoundKey s k) = AddRoundKey (MixColumns s) (MixColumns k).
Proof.
  apply state_ext; [ apply MixColumns_wf | apply AddRoundKey_wf | ].
  intros i p Hi Hp. rewrite AddRoundKey_bit, !MixColumns_bit by assumption.
  rewrite <- MixColumns_bits_xor by assumption.
  apply MixColumns_bits_ext; [ | assumption ].
  intros j k' Hj _. now apply bits_from_AddRoundKey.
Qed.

Lemma InvMixColumns_AddRoundKey s k :
  InvMixColumns (AddRoundKey s k) = AddRoundKey (InvMixColumns s) (InvMixColumns k).
Proof.
  apply state_ext; [ apply InvMixColumns_wf | apply AddRoundKey_wf | ].
  intros i p Hi Hp. rewrite AddRoundKey_bit, !InvMixColumns_bit by assumption.
  rewrite <- InvMixColumns_bits_xor by assumption.
  apply InvMixColumns_bits_ext; [ | assumption ].
  intros j k' Hj _. now apply bits_from_AddRoundKey.
Qed.

(** * The S-box has no fixed point *)

Lemma fips_sbox_no_fixed_point x :
  0 <= x < 256 -> fips_sbox x <> x /\ fips_sbox x <> Z.lxor x 0xFF.
Proof.
  intros Hx.
  assert (negb (fips_sbox x =? x) && negb (fips_sbox x =? Z.lxor x 0xFF) = true) as H.
  { revert x Hx.
    apply (forall_bytes (fun x => negb (fips_sbox x =? x) && negb (fips_sbox x =? Z.lxor x 0xFF))).
    vm_compute. reflexivity. }
  apply andb_true_iff in H. destruct H as [H1 H2].
  apply negb_true_iff in H1, H2. split; now apply Z.eqb_neq.
Qed.

(** * The codec the other way round *)

Lemma LoadBytes_overwrites s s' data16 : LoadBytes s data16 = LoadBytes s' data16.
Proof.
  unfold LoadBytes. cbv zeta. rewrite LoadWords_unfold. symmetry.
  rewrite LoadWords_unfold. reflexivity.
Qed.

(** * The key can be read back from the context *)

Lemma be_word_byte b0 b1 b2 b3 r :
  is_byte b0 -> is_byte b1 -> is_byte b2 -> is_byte b3 -> 0 <= r < 4 ->
  fips_be_word b0 b1 b2 b3 / 2 ^ (8 * (3 - r)) mod 256 = idx [b0; b1; b2; b3] r.
Proof.
  intros H0 H1 H2 H3 Hr. rewrite <- word_byte_div by lia.
  rewrite <- be_word_code by assumption.
  apply (bits_ext 8); try lia.
  - apply word_byte_range.
  - enum4 r; assumption.
  - intros i Hi. rewrite word_byte_bit by lia. now apply be_word_bit.
Qed.

Lemma key_in_context nk nr key i r :
  1 <= nk <= 8 -> nk <= 4 * (nr + 1) -> Forall is_byte key ->
  0 <= i < nk -> 0 <= r < 4 ->
  cell (round_key (AES_setup key nk nr) (i / 4)) r (i mod 4) = idx key (4 * i + r).
Proof.
  intros Hnk Hnr Hkey Hi Hr.
  assert (0 <= i mod 4 < 4) as Hc by (apply Z.mod_pos_bound; lia).
  assert (0 <= i / 4 < nr + 1) as Hj'
    by (split; [ apply Z.div_pos | apply Z.div_lt_upper_bound ]; lia).
  assert (0 <= i / 4 <= nr) as Hj by lia.
  rewrite <- fips_at_SaveBytes by assumption.
  rewrite SaveBytes_round_key by assumption.
  unfold fips_round_key_block. rewrite fips_at_block by assumption.
  replace (4 * (i / 4) + i mod 4) with i by (pose proof (Z.div_mod i 4); lia).
  fold (fips_schedule_word nk nr key i).
  rewrite W_load by assumption.
  pose proof (fun k => Forall_bytes_idx key k Hkey) as Hb.
  rewrite be_word_byte by (apply Hb || assumption).
  enum4 r; rewrite ?Z.add_0_r; reflexivity.
Qed.

Lemma idx_ext (l l' : list Z) :
  length l = length l' ->
  (forall j, 0 <= j < Z.of_nat (length l) -> idx l j = idx l' j) -> l = l'.
Proof.
  intros Hlen H. apply (nth_ext l l' 0 0 Hlen). intros n Hn.
  specialize (H (Z.of_nat n)). unfold idx in H. rewrite Nat2Z.id in H. apply H. lia.
Qed.

Lemma AES_setup_injective nk nr key key' :
  1 <= nk <= 8 -> nk <= 4 * (nr + 1) ->
  length key = Z.to_nat (4 * nk) -> length key' = Z.to_nat (4 * nk) ->
  Forall is_byte key -> Forall is_byte key' ->
  AES_setup key nk nr = AES_setup key' nk nr -> key = key'.
Proof.
  intros Hnk Hnr Hlen Hlen' Hb Hb' Heq. apply idx_ext; [ congruence | ].
  intros j Hj.
  assert (0 <= j / 4 < nk) as Hi
    by (split; [ apply Z.div_pos | apply Z.div_lt_upper_bound ]; lia).
  assert (0 <= j mod 4 < 4) as Hr by (apply Z.mod_pos_bound; lia).
  replace j with (4 * (j / 4) + j mod 4) by (pose proof (Z.div_mod j 4); lia).
  rewrite <- (key_in_context nk nr key) by assumption.
  rewrite <- (key_in_context nk nr key') by assumption.
  now rewrite Heq.
Qed.

(** * Further properties of the cipher *)

(** X1: encryption undoes decryption.  For each of AES-128, AES-192 and
    AES-256, every key [K] of the variant's length and every block [C] of 16
    bytes, encrypting the decryption of [C] under the context made from [K]
    gives [C] back. *)
Theorem encrypt_decrypt (K C : list Z) :
  length C = 16%nat -> Forall is_byte C ->
  (length K = 16%nat ->
     AES128_encrypt (AES128_init K) (AES128_decrypt (AES128_init K) C) = C) /\
  (length K = 24%nat ->
     AES192_encrypt (AES192_init K) (AES192_decrypt (AES192_init K) C) = C) /\
  (length K = 32%nat ->
     AES256_encrypt (AES256_init K) (AES256_decrypt (AES256_init K) C) = C).
Proof.
  intros Hlen Hb.
  unfold AES128_decrypt, AES128_encrypt, AES192_decrypt, AES192_encrypt,
         AES256_decrypt, AES256_encrypt.
  repeat split; intros _; apply AES_encrypt_decrypt; assumption || lia.
Qed.

(** X2: the three encryption entry points compute the cipher of FIPS-197
    (figure 5) on byte blocks, under the key schedule of FIPS-197, for every
    key of the variant's length and every block of 16 bytes. *)
Theorem cipher_is_fips (key plain16 : list Z) :
  Forall is_byte key -> length plain16 = 16%nat -> Forall is_byte plain16 ->
  (length key = 16%nat ->
     AES128_encrypt (AES128_init key) plain16 =
     fips_Cipher 10 (fips_schedule 4 10 key) plain16) /\
  (length key = 24%nat ->
     AES192_encrypt (AES192_init key) plain16 =
     fips_Cipher 12 (fips_schedule 6 12 key) plain16) /\
  (length key = 32%nat ->
     AES256_encrypt (AES256_init key) plain16 =
     fips_Cipher 14 (fips_schedule 8 14 key) plain16).
Proof.
  intros Hkey Hlen Hb.
  unfold AES128_encrypt, AES128_init, AES192_encrypt, AES192_init,
         AES256_encrypt, AES256_init.
  repeat split; intros _; apply AES_encrypt_setup_fips; assumption || lia.
Qed.

(** X3: the three decryption entry points compute the inverse cipher of
    FIPS-197 (figure 12) on byte blocks, under the key schedule of FIPS-197,
    for every key of the variant's length and every block of 16 bytes. *)
Theorem inverse_cipher_is_fips (key cipher16 : list Z) :
  Forall is_byte key -> length cipher16 = 16%nat -> Forall is_byte cipher16 ->
  (length key = 16%nat ->
     AES128_decrypt (AES128_init key) cipher16 =
     fips_InvCipher 10 (fips_schedule 4 10 key) cipher16) /\
  (length key = 24%nat ->
     AES192_decrypt (AES192_init key) cipher16 =
     fips_InvCipher 12 (fips_schedule 6 12 key) cipher16) /\
  (length key = 32%nat ->
     AES256_decrypt (AES256_init key) cipher16 =
     fips_InvCipher 14 (fips_schedule 8 14 key) cipher16).
Proof.
  intros Hkey Hlen Hb.
  unfold AES128_decrypt, AES128_init, AES192_decrypt, AES192_init,
         AES256_decrypt, AES256_init.
  repeat split; intros _; apply AES_decrypt_setup_fips; assumption || lia.
Qed.

(** X4: on every state of eight 16-bit slice words, [SubBytes] and
    [InvSubBytes] undo each other, in both orders. *)
Theorem sbox_layers_inverse (s : AES_state) :
  wf_state s ->
  InvSubBytes (SubBytes s) = s /\ SubBytes (InvSubBytes s) = s.
Proof.
  intros Hwf. split.
  - now apply InvSubBytes_SubBytes.
  - now apply SubBytes_InvSubBytes.
Qed.

(** X5: on every state of eight 16-bit slice words, [ShiftRows] undoes
    [InvShiftRows] and [MixColumns] undoes [InvMixColumns]. *)
Theorem linear_layers_inverse_right (s : AES_state) :
  wf_state s ->
  ShiftRows (InvShiftRows s) = s /\ MixColumns (InvMixColumns s) = s.
Proof.
  intros Hwf. split.
  - now apply ShiftRows_InvShiftRows.
  - now apply MixColumns_InvMixColumns.
Qed.

(** X6: on the decoded bytes, [ShiftRows] rotates row [r] by [r] places to
    the left (the byte at column [c] comes from column [c + r] modulo 4) and
    [InvShiftRows] rotates it by [r] places to the right. *)
Theorem ShiftRows_rotates_rows (s : AES_state) (r c : Z) :
  0 <= r < 4 -> 0 <= c < 4 ->
  cell (ShiftRows s) r c = cell s r ((c + r) mod 4) /\
  cell (InvShiftRows s) r c = cell s r ((c - r) mod 4).
Proof.
  intros Hr Hc. split.
  - now apply ShiftRows_cell.
  - now apply InvShiftRows_cell.
Qed.

(** X7: on the decoded bytes, [AddRoundKey] xors each byte of the state with
    the byte of the round key at the same row and column; and applied twice
    with the same round key to a state of 16-bit slice words it gives the
    state back. *)
Theorem AddRoundKey_is_xor (s k : AES_state) :
  (forall r c, 0 <= r < 4 -> 0 <= c < 4 ->
     cell (AddRoundKey s k) r c = (cell s r c) .^ (cell k r c)) /\
  (wf_state s -> AddRoundKey (AddRoundKey s k) k = s).
Proof.
  split.
  - intros r c Hr Hc. now apply AddRoundKey_cell.
  - apply AddRoundKey_twice.
Qed.

(** X8: [LoadWords] overwrites the state, whatever it held, and puts byte
    [r] of word [c], counted from the most significant byte, at row [r] of
    column [c]. *)
Theorem LoadWords_layout (s : AES_state) (w0 w1 w2 w3 r c : Z) :
  0 <= r < 4 -> 0 <= c < 4 ->
  LoadWords s w0 w1 w2 w3 = LoadWords uninit_state w0 w1 w2 w3 /\
  cell (LoadWords s w0 w1 w2 w3) r c = idx [w0; w1; w2; w3] c >> (8 * (3 - r)) .& 0xFF.
Proof.
  intros Hr Hc. split.
  - rewrite LoadWords_unfold. symmetry. apply LoadWords_unfold.
  - rewrite LoadWords_cell by assumption.
    fold (word_byte (idx [w0; w1; w2; w3] c) (3 - r)).
    symmetry. apply word_byte_div. lia.
Qed.

(** X9: [LoadBytes] undoes [SaveBytes] on every state of eight 16-bit slice
    words, and what [LoadBytes] returns does not depend on what the state
    held before. *)
Theorem codec_inverse (s t : AES_state) :
  wf_state t ->
  LoadBytes s (SaveBytes t) = t /\
  (forall s' data16, LoadBytes s data16 = LoadBytes s' data16).
Proof.
  intros Hwf. split.
  - now apply LoadBytes_SaveBytes.
  - intros s' data16. apply LoadBytes_overwrites.
Qed.

(** X10: the byte substitution and the row rotation commute, in both
    directions of the cipher: [ShiftRows (SubBytes s) = SubBytes (ShiftRows s)]
    and [InvShiftRows (InvSubBytes s) = InvSubBytes (InvShiftRows s)]. *)
Theorem ShiftRows_SubBytes_commute (s : AES_state) :
  ShiftRows (SubBytes s) = SubBytes (ShiftRows s) /\
  InvShiftRows (InvSubBytes s) = InvSubBytes (InvShiftRows s).
Proof.
  split.
  - apply ShiftRows_SubBytes.
  - apply InvShiftRows_InvSubBytes.
Qed.

(** X11: [MixColumns] and [InvMixColumns] are linear over the xor of
    [AddRoundKey]: mixing a state to which a round key was added gives the
    mixed state to which the mixed round key is added. *)
Theorem MixColumns_linear (s k : AES_state) :
  MixColumns (AddRoundKey s k) = AddRoundKey (MixColumns s) (MixColumns k) /\
  InvMixColumns (AddRoundKey s k) = AddRoundKey (InvMixColumns s) (InvMixColumns k).
Proof.
  split.
  - apply MixColumns_AddRoundKey.
  - apply InvMixColumns_AddRoundKey.
Qed.

(** X12: [SubBytes] changes every byte: in no lane is the decoded byte of
    [SubBytes s] the decoded byte of [s], nor its bitwise complement. *)
Theorem SubBytes_no_fixed_point (s : AES_state) (j : Z) :
  0 <= j < 16 ->
  SaveBytes_byte (SubBytes s) j <> SaveBytes_byte s j /\
  SaveBytes_byte (SubBytes s) j <> (SaveBytes_byte s j) .^ 0xFF.
Proof.
  intros Hj. rewrite SubBytes_cell by assumption.
  apply fips_sbox_no_fixed_point, SaveBytes_byte_range.
Qed.

(** X13: on a 16-bit word, [ROT(x, b)] for [b] of 1, 2 or 3, truncated to
    16 bits, is [x] rotated right by [4 b] bits: each row of four bits
    receives the row [b] places below it. *)
Theorem ROT_rotates_rows (x b p : Z) :
  0 <= x < 65536 -> 0 < b < 4 -> 0 <= p < 16 ->
  Z.testbit (u16 (ROT x b)) p = Z.testbit x ((p + 4 * b) mod 16).
Proof.
  intros Hx Hb Hp. rewrite testbit_u16_low by lia.
  rewrite <- (u16_small x) at 1 by assumption.
  now rewrite ROT_bit.
Qed.

(** X14: the key can be read back from the context.  For each variant and
    every key, byte [r] of key word [i < Nk] is the decoded byte at row [r],
    column [i mod 4] of round key [i / 4]. *)
Theorem key_read_back (nk nr : Z) (key : list Z) (i r : Z) :
  (nk = 4 /\ nr = 10) \/ (nk = 6 /\ nr = 12) \/ (nk = 8 /\ nr = 14) ->
  length key = Z.to_nat (4 * nk) -> Forall is_byte key ->
  0 <= i < nk -> 0 <= r < 4 ->
  cell (round_key (AES_setup key nk nr) (i / 4)) r (i mod 4) = idx key (4 * i + r).
Proof.
  intros Hv _ Hkey Hi Hr. apply key_in_context; assumption || lia.
Qed.

(** X15: init is injective: two keys of the variant's length with the same
    context are the same key. *)
Theorem init_injective (key key' : list Z) :
  Forall is_byte key -> Forall is_byte key' ->
  (length key = 16%nat -> length key' = 16%nat ->
     AES128_init key = AES128_init key' -> key = key') /\
  (length key = 24%nat -> length key' = 24%nat ->
     AES192_init key = AES192_init key' -> key = key') /\
  (length key = 32%nat -> length key' = 32%nat ->
     AES256_init key = AES256_init key' -> key = key').
Proof.
  intros Hb Hb'. unfold AES128_init, AES192_init, AES256_init.
  split; [ | split ]; intros Hl Hl' Heq.
  - apply (AES_setup_injective 4 10); assumption || lia.
  - apply (AES_setup_injective 6 12); assumption || lia.
  - apply (AES_setup_injective 8 14); assumption || lia.
Qed.

(** X16: in the source file with the merged S-box, [SubBytes] with any
    non-zero flag, not only 1, is [InvSubBytes] of [ctaes.c]. *)
Theorem merged_flag_nonzero (s : AES_state) (inv : Z) :
  inv <> 0 -> Merged.SubBytes s inv = InvSubBytes s.
Proof. apply Merged_SubBytes_inv. Qed.

(** X20: function by function, the source file with the merged S-box
    computes what [ctaes.c] does: [LoadBytes] with its loop over [w[4]],
    [MixColumns] and [InvMixColumns] with their arrays and loops, [SubWord],
    and the key schedule and the two round drivers for every [Nk] and [Nr]. *)
Theorem merged_functions_equal :
  (forall s data16, Merged.LoadBytes s data16 = LoadBytes s data16) /\
  (forall x, Merged.SubWord x = SubWord x) /\
  (forall s, Merged.MixColumns s = MixColumns s /\ Merged.InvMixColumns s = InvMixColumns s) /\
  (forall key nk nr, Merged.AES_setup key nk nr = AES_setup key nk nr) /\
  (forall rounds nr data16,
     Merged.AES_encrypt rounds nr data16 = AES_encrypt rounds nr data16 /\
     Merged.AES_decrypt rounds nr data16 = AES_decrypt rounds nr data16).
Proof.
  split; [ exact Merged_LoadBytes | ].
  split; [ exact Merged_SubWord | ].
  split; [ intros s; split; [ apply Merged_MixColumns | apply Merged_InvMixColumns ] | ].
  split; [ exact Merged_AES_setup | ].
  intros rounds nr data16. split; [ apply Merged_AES_encrypt | apply Merged_AES_decrypt ].
Qed.

(** * The theorems at the known-answer vectors *)

Lemma kat128_cipher_bytes : Forall is_byte kat128_cipher.
Proof. repeat constructor; unfold is_byte; lia. Defined.

Lemma kat192_key_bytes : Forall is_byte kat192_key.
Proof. repeat constructor; unfold is_byte; lia. Defined.

(** Encryption of the decrypted ciphertext of appendix C.1 under its key. *)
Lemma encrypt_decrypt_kat :
  AES128_encrypt (AES128_init kat128_key)
    (AES128_decrypt (AES128_init kat128_key) kat128_cipher) = kat128_cipher.
Proof.
  exact (proj1 (encrypt_decrypt kat128_key kat128_cipher eq_refl kat128_cipher_bytes) eq_refl).
Defined.

(** The cipher of FIPS-197 on the vector of appendix C.1. *)
Lemma cipher_is_fips_kat :
  AES128_encrypt (AES128_init kat128_key) kat_plain =
  fips_Cipher 10 (fips_schedule 4 10 kat128_key) kat_plain.
Proof.
  exact (proj1 (cipher_is_fips kat128_key kat_plain kat128_key_bytes eq_refl kat_plain_bytes)
               eq_refl).
Defined.

(** The inverse cipher of FIPS-197 on the vector of appendix C.2. *)
Lemma inverse_cipher_is_fips_kat :
  AES192_decrypt (AES192_init kat192_key) kat192_cipher =
  fips_InvCipher 12 (fips_schedule 6 12 kat192_key) kat192_cipher.
Proof.
  assert (Hb : Forall is_byte kat192_cipher) by (repeat constructor; unfold is_byte; lia).
  exact (proj1 (proj2 (inverse_cipher_is_fips kat192_key kat192_cipher kat192_key_bytes
                         eq_refl Hb)) eq_refl).
Defined.

(** The S-box layers undone on the loaded plaintext. *)
Lemma sbox_layers_inverse_kat :
  InvSubBytes (SubBytes (LoadBytes uninit_state kat_plain)) = LoadBytes uninit_state kat_plain /\
  SubBytes (InvSubBytes (LoadBytes uninit_state kat_plain)) = LoadBytes uninit_state kat_plain.
Proof.
  exact (sbox_layers_inverse (LoadBytes uninit_state kat_plain)
           (LoadBytes_wf uninit_state kat_plain)).
Defined.

Lemma linear_layers_inverse_right_kat :
  ShiftRows (InvShiftRows (LoadBytes uninit_state kat_plain)) =
    LoadBytes uninit_state kat_plain /\
  MixColumns (InvMixColumns (LoadBytes uninit_state kat_plain)) =
    LoadBytes uninit_state kat_plain.
Proof.
  exact (linear_layers_inverse_right (LoadBytes uninit_state kat_plain)
           (LoadBytes_wf uninit_state kat_plain)).
Defined.

(** Row 1 of the loaded plaintext: column 3 receives column 0. *)
Lemma ShiftRows_rotates_rows_kat :
  cell (ShiftRows (LoadBytes uninit_state kat_plain)) 1 3 =
    cell (LoadBytes uninit_state kat_plain) 1 ((3 + 1) mod 4) /\
  cell (InvShiftRows (LoadBytes uninit_state kat_plain)) 1 3 =
    cell (LoadBytes uninit_state kat_plain) 1 ((3 - 1) mod 4).
Proof.
  assert (Hr : 0 <= 1 < 4) by lia. assert (Hc : 0 <= 3 < 4) by lia.
  exact (ShiftRows_rotates_rows (LoadBytes uninit_state kat_plain) 1 3 Hr Hc).
Defined.

(** The second byte of the third word. *)
Lemma LoadWords_layout_kat :
  cell (LoadWords uninit_state 0x00112233 0x44556677 0x8899aabb 0xccddeeff) 1 2 =
    idx [0x00112233; 0x44556677; 0x8899aabb; 0xccddeeff] 2 >> (8 * (3 - 1)) .& 0xFF.
Proof.
  assert (Hr : 0 <= 1 < 4) by lia. assert (Hc : 0 <= 2 < 4) by lia.
  exact (proj2 (LoadWords_layout uninit_state 0x00112233 0x44556677 0x8899aabb 0xccddeeff
                  1 2 Hr Hc)).
Defined.

Lemma codec_inverse_kat :
  LoadBytes uninit_state (SaveBytes (LoadBytes uninit_state kat_plain)) =
  LoadBytes uninit_state kat_plain.
Proof.
  exact (proj1 (codec_inverse uninit_state (LoadBytes uninit_state kat_plain)
                  (LoadBytes_wf uninit_state kat_plain))).
Defined.

Lemma SubBytes_no_fixed_point_kat :
  SaveBytes_byte (SubBytes (LoadBytes uninit_state kat_plain)) 5 <>
  SaveBytes_byte (LoadBytes uninit_state kat_plain) 5.
Proof.
  assert (Hj : 0 <= 5 < 16) by lia.
  exact (proj1 (SubBytes_no_fixed_point (LoadBytes uninit_state kat_plain) 5 Hj)).
Defined.

Lemma ROT_rotates_rows_kat :
  Z.testbit (u16 (ROT 0x1234 1)) 0 = Z.testbit 0x1234 ((0 + 4 * 1) mod 16).
Proof.
  assert (Hx : 0 <= 0x1234 < 65536) by lia.
  assert (Hb : 0 < 1 < 4) by lia. assert (Hp : 0 <= 0 < 16) by lia.
  exact (ROT_rotates_rows 0x1234 1 0 Hx Hb Hp).
Defined.

(** Byte 2 of word 5 of the AES-192 key of appendix C.2, in round key 1. *)
Lemma key_read_back_kat :
  cell (round_key (AES_setup kat192_key 6 12) (5 / 4)) 2 (5 mod 4) = idx kat192_key (4 * 5 + 2).
Proof.
  assert (Hv : (6 = 4 /\ 12 = 10) \/ (6 = 6 /\ 12 = 12) \/ (6 = 8 /\ 12 = 14))
    by (right; left; split; reflexivity).
  assert (Hi : 0 <= 5 < 6) by lia. assert (Hr : 0 <= 2 < 4) by lia.
  exact (key_read_back 6 12 kat192_key 5 2 Hv eq_refl kat192_key_bytes Hi Hr).
Defined.

(** Two copies of the AES-128 key of appendix C.1 have the same context. *)
Lemma init_injective_kat :
  AES128_init kat128_key = AES128_init kat128_key /\ kat128_key = kat128_key.
Proof.
  split; [ reflexivity | ].
  exact (proj1 (init_injective kat128_key kat128_key kat128_key_bytes kat128_key_bytes)
               eq_refl eq_refl eq_refl).
Defined.

Lemma merged_flag_nonzero_kat :
  Merged.SubBytes (LoadBytes uninit_state kat_plain) 2 =
  InvSubBytes (LoadBytes uninit_state kat_plain).
Proof.
  assert (H : 2 <> 0) by discriminate.
  exact (merged_flag_nonzero (LoadBytes uninit_state kat_plain) 2 H).
Defined.

(** * The file with the merged S-box, instrumented *)

Lemma mresult_ret {A} (a : A) : MergedLeakage.result (MergedLeakage.ret a) = a.
Proof. reflexivity. Qed.

Lemma mresult_bind {A B} (m : MergedLeakage.leak A) (k : A -> MergedLeakage.leak B) :
  MergedLeakage.result (MergedLeakage.bind m k) =
  MergedLeakage.result (k (MergedLeakage.result m)).
Proof.
  unfold MergedLeakage.bind, MergedLeakage.result. destruct m as [a t]. cbn [fst].
  now destruct (k a).
Qed.

Lemma mresult_branch b : MergedLeakage.result (MergedLeakage.branch b) = b.
Proof. reflexivity. Qed.

Lemma mresult_at a i : MergedLeakage.result (MergedLeakage.at_ a i) = i.
Proof. reflexivity. Qed.

Lemma mresult_same_text {A} (m : Leakage.leak A) :
  MergedLeakage.result (MergedLeakage.same_text m) = Leakage.result m.
Proof. reflexivity. Qed.

Lemma mresult_loop {A} (hi : Z) (body : Z -> A -> MergedLeakage.leak A) (body0 : Z -> A -> A) :
  (forall i a, MergedLeakage.result (body i a) = body0 i a) ->
  forall n i a, n = Z.to_nat (hi - i) ->
    MergedLeakage.result (MergedLeakage.loop (S n) i hi body a) = loop n i body0 a.
Proof.
  intros Hbody. induction n as [ | n IH ]; intros i a Hn.
  - cbn [MergedLeakage.loop loop]. rewrite mresult_bind, mresult_branch.
    destruct (Z.ltb_spec i hi); [ lia | reflexivity ].
  - cbn [loop]. change (MergedLeakage.loop (S (S n)) i hi body a)
      with (MergedLeakage.bind (MergedLeakage.branch (i <? hi)) (fun c =>
              if c then MergedLeakage.bind (body i a)
                          (fun a' => MergedLeakage.loop (S n) (i + 1) hi body a')
              else MergedLeakage.ret a)).
    rewrite mresult_bind, mresult_branch.
    destruct (Z.ltb_spec i hi); [ | lia ].
    rewrite mresult_bind, Hbody. apply IH. lia.
Qed.

Lemma mresult_for_range {A} (lo hi : Z) (body : Z -> A -> MergedLeakage.leak A)
      (body0 : Z -> A -> A) (a : A) :
  (forall i a, MergedLeakage.result (body i a) = body0 i a) ->
  MergedLeakage.result (MergedLeakage.for_range lo hi body a) = for_range lo hi body0 a.
Proof. intros Hbody. unfold MergedLeakage.for_range, for_range. now apply mresult_loop. Qed.

Ltac mresult_steps :=
  repeat (progress rewrite ?mresult_bind, ?mresult_ret, ?mresult_branch, ?mresult_at,
                           ?mresult_same_text).

Lemma mresult_LoadBytes s data16 :
  MergedLeakage.result (MergedLeakage.LoadBytes s data16) = Merged.LoadBytes s data16.
Proof.
  unfold MergedLeakage.LoadBytes, Merged.LoadBytes. cbv zeta. mresult_steps.
  rewrite (mresult_for_range 0 4 _
             (fun i '(w, data16) =>
                (upd w i (u32 (idx data16 0 << 24 .| idx data16 1 << 16
                               .| idx data16 2 << 8 .| idx data16 3)),
                 skipn 4 data16)))
    by (intros i [w d]; now mresult_steps).
  destruct (for_range 0 4 _ _) as [w d]. mresult_steps. apply result_LoadWords.
Qed.

Lemma mresult_SubBytes s inv :
  MergedLeakage.result (MergedLeakage.SubBytes s inv) = Merged.SubBytes s inv.
Proof. reflexivity. Qed.

Lemma mresult_SubWord x : MergedLeakage.result (MergedLeakage.SubWord x) = Merged.SubWord x.
Proof.
  unfold MergedLeakage.SubWord, Merged.SubWord. cbv zeta. mresult_steps.
  rewrite mresult_SubBytes.
  assert (Hpack : forall s, Leakage.result (Leakage.SubWord_pack x s) = SubWord_pack x s).
  { intros s. unfold Leakage.SubWord_pack, SubWord_pack. result_steps. apply (f_equal snd).
    apply result_for_range. intros b [x' s']. now result_steps. }
  rewrite Hpack. unfold Leakage.SubWord_unpack, SubWord_unpack.
  apply result_for_range. intros b r. now result_steps.
Qed.

Lemma mresult_MixColumns s :
  MergedLeakage.result (MergedLeakage.MixColumns s) = Merged.MixColumns s.
Proof. unfold MergedLeakage.MixColumns. now mresult_steps. Qed.

Lemma mresult_InvMixColumns s :
  MergedLeakage.result (MergedLeakage.InvMixColumns s) = Merged.InvMixColumns s.
Proof. unfold MergedLeakage.InvMixColumns. now mresult_steps. Qed.

Lemma mresult_store_round rounds w0 w1 w2 w3 :
  MergedLeakage.result (MergedLeakage.store_round rounds w0 w1 w2 w3) =
  store_round rounds w0 w1 w2 w3.
Proof. unfold MergedLeakage.store_round. mresult_steps. apply result_store_round. Qed.

Lemma mresult_AES_setup_expand nk i st :
  MergedLeakage.result (MergedLeakage.AES_setup_expand nk i st) =
  Merged.AES_setup_expand nk i st.
Proof.
  destruct st as [rcon rk pos key rounds].
  unfold MergedLeakage.AES_setup_expand, Merged.AES_setup_expand.
  mresult_steps. cbv zeta. mresult_steps.
  destruct (pos =? 0).
  - mresult_steps. rewrite mresult_SubWord. cbv beta iota zeta. mresult_steps.
    destruct (i .& 3 =? 3); mresult_steps; [ rewrite mresult_store_round | ]; reflexivity.
  - mresult_steps. destruct (nk >? 6); mresult_steps; [ destruct (pos =? 4) | ];
      cbn [andb]; mresult_steps; rewrite ?mresult_SubWord; cbv beta iota zeta; mresult_steps;
      (destruct (i .& 3 =? 3); mresult_steps; [ rewrite mresult_store_round | ]; reflexivity).
Qed.

Lemma mresult_AES_setup key nk nr :
  MergedLeakage.result (MergedLeakage.AES_setup key nk nr) = Merged.AES_setup key nk nr.
Proof.
  unfold MergedLeakage.AES_setup, Merged.AES_setup. cbv zeta. mresult_steps.
  apply (f_equal st_rounds).
  rewrite (mresult_for_range 0 nk _ AES_setup_load)
    by (intros i st; rewrite mresult_same_text; apply result_AES_setup_load).
  apply mresult_for_range. apply mresult_AES_setup_expand.
Qed.

Lemma mresult_AES_encrypt rounds nr plain16 :
  MergedLeakage.result (MergedLeakage.AES_encrypt rounds nr plain16) =
  Merged.AES_encrypt rounds nr plain16.
Proof.
  unfold MergedLeakage.AES_encrypt, Merged.AES_encrypt. cbv zeta. mresult_steps.
  rewrite mresult_LoadBytes, result_AddRoundKey.
  rewrite (mresult_for_range 1 nr _ (fun round '(s, rp) =>
             (AddRoundKey (Merged.MixColumns (ShiftRows (Merged.SubBytes s 0)))
                          (round_key rounds rp), rp + 1))).
  2:{ intros i [s rp]. mresult_steps.
      now rewrite mresult_SubBytes, result_ShiftRows, mresult_MixColumns, result_AddRoundKey. }
  destruct (for_range 1 nr _ _) as [s rp]. mresult_steps.
  rewrite mresult_SubBytes, result_ShiftRows, result_AddRoundKey. apply result_SaveBytes.
Qed.

Lemma mresult_AES_decrypt rounds nr cipher16 :
  MergedLeakage.result (MergedLeakage.AES_decrypt rounds nr cipher16) =
  Merged.AES_decrypt rounds nr cipher16.
Proof.
  unfold MergedLeakage.AES_decrypt, Merged.AES_decrypt. cbv zeta. mresult_steps.
  rewrite mresult_LoadBytes, result_AddRoundKey.
  rewrite (mresult_for_range 1 nr _ (fun round '(s, rp) =>
             (Merged.InvMixColumns
                (AddRoundKey (Merged.SubBytes (InvShiftRows s) 1) (round_key rounds rp)),
              rp - 1))).
  2:{ intros i [s rp]. mresult_steps.
      now rewrite result_InvShiftRows, mresult_SubBytes, result_AddRoundKey,
                  mresult_InvMixColumns. }
  destruct (for_range 1 nr _ _) as [s rp]. mresult_steps.
  rewrite result_InvShiftRows, mresult_SubBytes, result_AddRoundKey. apply result_SaveBytes.
Qed.

(** X21: the source file with the merged S-box is constant-time as well.
    In its instrumented translation, whose nine entry points return what the
    plain ones do, the sequence of condition outcomes (the two tests of the
    flag [inv] included), array subscripts and pointer moves of a run is the
    same for any two keys (init) and for any two contexts and blocks
    (encrypt, decrypt). *)
Theorem merged_constant_time :
  ((forall key key',
      MergedLeakage.leakage (MergedLeakage.AES128_init key) =
      MergedLeakage.leakage (MergedLeakage.AES128_init key') /\
      MergedLeakage.leakage (MergedLeakage.AES192_init key) =
      MergedLeakage.leakage (MergedLeakage.AES192_init key') /\
      MergedLeakage.leakage (MergedLeakage.AES256_init key) =
      MergedLeakage.leakage (MergedLeakage.AES256_init key')) /\
   (forall ctx data16 ctx' data16',
      MergedLeakage.leakage (MergedLeakage.AES128_encrypt ctx data16) =
      MergedLeakage.leakage (MergedLeakage.AES128_encrypt ctx' data16') /\
      MergedLeakage.leakage (MergedLeakage.AES192_encrypt ctx data16) =
      MergedLeakage.leakage (MergedLeakage.AES192_encrypt ctx' data16') /\
      MergedLeakage.leakage (MergedLeakage.AES256_encrypt ctx data16) =
      MergedLeakage.leakage (MergedLeakage.AES256_encrypt ctx' data16')) /\
   (forall ctx data16 ctx' data16',
      MergedLeakage.leakage (MergedLeakage.AES128_decrypt ctx data16) =
      MergedLeakage.leakage (MergedLeakage.AES128_decrypt ctx' data16') /\
      MergedLeakage.leakage (MergedLeakage.AES192_decrypt ctx data16) =
      MergedLeakage.leakage (MergedLeakage.AES192_decrypt ctx' data16') /\
      MergedLeakage.leakage (MergedLeakage.AES256_decrypt ctx data16) =
      MergedLeakage.leakage (MergedLeakage.AES256_decrypt ctx' data16'))) /\
  ((forall key,
      MergedLeakage.result (MergedLeakage.AES128_init key) = Merged.AES128_init key /\
      MergedLeakage.result (MergedLeakage.AES192_init key) = Merged.AES192_init key /\
      MergedLeakage.result (MergedLeakage.AES256_init key) = Merged.AES256_init key) /\
   (forall ctx data16,
      MergedLeakage.result (MergedLeakage.AES128_encrypt ctx data16) =
        Merged.AES128_encrypt ctx data16 /\
      MergedLeakage.result (MergedLeakage.AES192_encrypt ctx data16) =
        Merged.AES192_encrypt ctx data16 /\
      MergedLeakage.result (MergedLeakage.AES256_encrypt ctx data16) =
        Merged.AES256_encrypt ctx data16) /\
   (forall ctx data16,
      MergedLeakage.result (MergedLeakage.AES128_decrypt ctx data16) =
        Merged.AES128_decrypt ctx data16 /\
      MergedLeakage.result (MergedLeakage.AES192_decrypt ctx data16) =
        Merged.AES192_decrypt ctx data16 /\
      MergedLeakage.result (MergedLeakage.AES256_decrypt ctx data16) =
        Merged.AES256_decrypt ctx data16)).
Proof.
  split.
  - split; [ | split ].
    + intros key key'. vm_compute. repeat split.
    + intros ctx d ctx' d'. vm_compute. repeat split.
    + intros ctx d ctx' d'. vm_compute. repeat split.
  - split; [ | split ].
    + intros key. split; [ | split ].
      * exact (mresult_AES_setup key 4 10).
      * exact (mresult_AES_setup key 6 12).
      * exact (mresult_AES_setup key 8 14).
    + intros ctx d. split; [ | split ].
      * exact (mresult_AES_encrypt ctx 10 d).
      * exact (mresult_AES_encrypt ctx 12 d).
      * exact (mresult_AES_encrypt ctx 14 d).
    + intros ctx d. split; [ | split ].
      * exact (mresult_AES_decrypt ctx 10 d).
      * exact (mresult_AES_decrypt ctx 12 d).
      * exact (mresult_AES_decrypt ctx 14 d).
Qed.

(** * Encryption is one-to-one *)

Lemma AES_encrypt_injective rounds nr P P' :
  1 <= nr -> length P = 16%nat -> Forall is_byte P ->
  length P' = 16%nat -> Forall is_byte P' ->
  AES_encrypt rounds nr P = AES_encrypt rounds nr P' -> P = P'.
Proof.
  intros Hnr Hl Hb Hl' Hb' Heq.
  rewrite <- (AES_decrypt_encrypt rounds nr P), <- (AES_decrypt_encrypt rounds nr P')
    by assumption.
  now rewrite Heq.
Qed.

(** X22: under one context, two different blocks of 16 bytes never encrypt
    to the same block: for each variant, equal ciphertexts under the context
    of the same key come from equal plaintexts. *)
Theorem encrypt_injective (K P P' : list Z) :
  length P = 16%nat -> Forall is_byte P -> length P' = 16%nat -> Forall is_byte P' ->
  (AES128_encrypt (AES128_init K) P = AES128_encrypt (AES128_init K) P' -> P = P') /\
  (AES192_encrypt (AES192_init K) P = AES192_encrypt (AES192_init K) P' -> P = P') /\
  (AES256_encrypt (AES256_init K) P = AES256_encrypt (AES256_init K) P' -> P = P').
Proof.
  intros Hl Hb Hl' Hb'. unfold AES128_encrypt, AES192_encrypt, AES256_encrypt.
  split; [ | split ]; apply AES_encrypt_injective; assumption || lia.
Qed.

Lemma encrypt_injective_kat :
  AES128_encrypt (AES128_init kat128_key) kat_plain =
    AES128_encrypt (AES128_init kat128_key) kat_plain /\
  kat_plain = kat_plain.
Proof.
  split; [ reflexivity | ].
  exact (proj1 (encrypt_injective kat128_key kat_plain kat_plain eq_refl kat_plain_bytes
                  eq_refl kat_plain_bytes) eq_refl).
Defined.
